(** * Voucher, loyalty and audit engine of the WiFi portal

    Shallow embedding of [utils/voucher.js], [utils/audit.js] and the
    voucher routes ([routes/vouchers.js]) over an explicit model of the
    SQLite tables they read and write.  Asynchronous functions become
    computations in a state-and-exception monad over the [World]; every
    [await database.*], encoder call and file-logger call is an external
    call that the environment may fail. *)

From Stdlib Require Import ZArith List String Ascii Bool Lia.
From Stdlib.Strings Require Import Byte.
From Stdlib Require Import DecimalString.
Import ListNotations.

Local Open Scope string_scope.
Local Open Scope Z_scope.

(* ===================================================================== *)
(** ** JavaScript values and string helpers *)

Module Js.

(** Truthiness of a nullable string: [null], [undefined] and [''] are
    falsy. *)
Definition truthy_str (o : option string) : bool :=
  match o with
  | Some s => negb (String.eqb s EmptyString)
  | None => false
  end.

(** Truthiness of a nullable number: [null], [undefined] and [0] are
    falsy. *)
Definition truthy_num (o : option Z) : bool :=
  match o with
  | Some n => negb (n =? 0)
  | None => false
  end.

(** [x || null] on a nullable number. *)
Definition num_or_null (o : option Z) : option Z :=
  if truthy_num o then o else None.

(** [x || null] on a nullable string. *)
Definition str_or_null (o : option string) : option string :=
  if truthy_str o then o else None.

(** [String.prototype.toUpperCase].  Texts are strings of bytes and stand
    for ASCII text, where a character is a byte and only [a]-[z] change;
    beyond ASCII the source's function goes by Unicode (and can lengthen
    the text), which this one does not follow. *)
Definition upper_ascii (c : ascii) : ascii :=
  let n := N_of_ascii c in
  if (97 <=? n)%N && (n <=? 122)%N then ascii_of_N (n - 32) else c.

Fixpoint toUpperCase (s : string) : string :=
  match s with
  | EmptyString => EmptyString
  | String c s' => String (upper_ascii c) (toUpperCase s')
  end.

(** [s.startsWith(p)]. *)
Fixpoint startsWith (p s : string) : bool :=
  match p, s with
  | EmptyString, _ => true
  | String a p', String b s' => Ascii.eqb a b && startsWith p' s'
  | String _ _, EmptyString => false
  end.

(** [s.includes(p)]: [p] occurs somewhere in [s]. *)
Fixpoint includes (s p : string) : bool :=
  startsWith p s ||
  match s with
  | EmptyString => false
  | String _ s' => includes s' p
  end.

(** One lower-case hexadecimal digit, as [Buffer.toString('hex')]
    writes it. *)
Definition hex_digit (n : N) : ascii :=
  if (n <? 10)%N then ascii_of_N (48 + n) else ascii_of_N (87 + n).

Definition hex_of_byte (b : byte) : string :=
  let n := Byte.to_N b in
  String (hex_digit (n / 16)) (String (hex_digit (n mod 16)) EmptyString).

(** [buf.toString('hex')]. *)
Fixpoint toHex (bs : list byte) : string :=
  match bs with
  | [] => EmptyString
  | b :: bs' => hex_of_byte b ++ toHex bs'
  end.

(** The text is ASCII: every character is below 128. *)
Definition is_ascii (s : string) : bool :=
  forallb (fun c => (N_of_ascii c <? 128)%N) (list_ascii_of_string s).

(** The counts that a JavaScript number holds exactly and to which
    [count + 1] adds exactly one. *)
Definition exact_count (n : Z) : Prop := 0 <= n < 2 ^ 53.

End Js.

(* ===================================================================== *)
(** ** Instants and their two textual renderings

    An instant is a number of milliseconds since the epoch (the value of
    [Date.now()]).  JavaScript renders it with [toISOString()] as
    [YYYY-MM-DDTHH:MM:SS.sssZ]; SQLite's [CURRENT_TIMESTAMP] renders it as
    [YYYY-MM-DD HH:MM:SS].  Both are in UTC. *)

Module Clock.

Definition ms_per_day : Z := 86400000.

(** Proleptic Gregorian date (year, month, day) of a day number counted
    from 1970-01-01. *)
Definition civil_from_days (z : Z) : Z * Z * Z :=
  let z := z + 719468 in
  let era := z / 146097 in
  let doe := z - era * 146097 in
  let yoe := (doe - doe / 1460 + doe / 36524 - doe / 146096) / 365 in
  let doy := doe - (365 * yoe + yoe / 4 - yoe / 100) in
  let mp := (5 * doy + 2) / 153 in
  let d := doy - (153 * mp + 2) / 5 + 1 in
  let m := if mp <? 10 then mp + 3 else mp - 9 in
  let y := yoe + era * 400 + (if m <=? 2 then 1 else 0) in
  (y, m, d).

Definition digit (d : Z) : ascii := ascii_of_N (48 + Z.to_N (d mod 10)).

(** The [w] low decimal digits of [n], most significant first. *)
Fixpoint pad (w : nat) (n : Z) : string :=
  match w with
  | O => EmptyString
  | S w' => pad w' (n / 10) ++ String (digit n) EmptyString
  end.

(** Years 0000 to 9999 take four digits; [toISOString] writes the others
    with a sign and six digits. *)
Definition iso_year (y : Z) : string :=
  if (0 <=? y) && (y <=? 9999) then pad 4 y
  else (if y <? 0 then "-" else "+") ++ pad 6 (Z.abs y).

Definition date_text (year : Z -> string) (t : Z) : string :=
  let '(y, m, d) := civil_from_days (t / ms_per_day) in
  year y ++ "-" ++ pad 2 m ++ "-" ++ pad 2 d.

Definition time_text (t : Z) : string :=
  let s := (t mod ms_per_day) / 1000 in
  pad 2 (s / 3600) ++ ":" ++ pad 2 (s / 60 mod 60) ++ ":" ++ pad 2 (s mod 60).

(** [new Date(t).toISOString()]. *)
Definition toISOString (t : Z) : string :=
  date_text iso_year t ++ "T" ++ time_text t ++ "." ++ pad 3 (t mod 1000) ++ "Z".

(** The text SQLite stores for [CURRENT_TIMESTAMP] at instant [t]. *)
Definition sqlite_datetime (t : Z) : string :=
  date_text (pad 4) t ++ " " ++ time_text t.

(** [s.split('T')[0]]. *)
Fixpoint before_T (s : string) : string :=
  match s with
  | EmptyString => EmptyString
  | String c s' => if Ascii.eqb c "T" then EmptyString else String c (before_T s')
  end.

(** [new Date(t).toISOString().split('T')[0]]: the UTC calendar date. *)
Definition isoDate (t : Z) : string := before_T (toISOString t).

End Clock.

Arguments Clock.toISOString : simpl never.
Arguments Clock.sqlite_datetime : simpl never.
Arguments Clock.isoDate : simpl never.

(* ===================================================================== *)
(** ** Rows of the tables ([models/database.js], [createTables]) *)

(** [vouchers].  [expires_at] holds the [toISOString()] text of an instant
    and is read back with [new Date(...)]; the row keeps the instant.  The
    [qr_code] and [barcode] columns hold the images returned by the
    encoders and are not represented; amounts are in hundredths. *)
Record Voucher := mkVoucher {
  v_id : Z;
  v_user_id : option Z;
  v_site_id : option Z;
  v_code : string;
  v_type : string;
  v_title : string;
  v_description : string;
  v_value : Z;
  v_status : string;
  v_expires_at : Z;
  v_redeemed_at : option Z;
  v_redeemed_by : option Z
}.

(** [users].  [visit_count] is a JavaScript number when it is
    incremented; the embedding takes it as an integer, which is exact for
    counts from 0 up to 2^53 - 1 (see [Js.exact_count]): from 2^53 on the
    source's [count + 1] is rounded and leaves the count as it is. *)
Record User := mkUser {
  u_id : Z;
  u_site_id : option Z;
  u_email : string;
  u_name : string;
  u_visit_count : Z;
  u_loyalty_tier : string
}.

(** [staff]. *)
Record Staff := mkStaff {
  s_id : Z;
  s_site_id : option Z;
  s_email : string;
  s_name : string;
  s_role : string;
  s_daily_voucher_used : bool;
  s_last_voucher_date : option string
}.

(** A value inside a [details] object. *)
Inductive JsVal :=
| JNum (n : Z)
| JStr (s : string)
| JNull.

Definition Details := list (string * JsVal).

(** [audit_log].  [created_at] is filled by [DEFAULT CURRENT_TIMESTAMP];
    the row keeps the instant and [Clock.sqlite_datetime] gives the text
    that the column holds. *)
Record AuditRow := mkAuditRow {
  a_id : Z;
  a_user_type : string;
  a_user_id : option Z;
  a_action : string;
  a_resource : option string;
  a_details : option Details;
  a_ip_address : option string;
  a_user_agent : option string;
  a_created_at : Z
}.

(** The [eventData] argument of [auditLog]. *)
Record Event := mkEvent {
  user_type : string;
  user_id : option Z;
  action : string;
  resource : option string;
  details : option Details;
  ip_address : option string;
  user_agent : option string
}.

(** What a JavaScript [throw] carries. *)
Inductive Error :=
| JsError (message : string)
| TypeError (message : string)
| RangeError (message : string)
| SqliteConstraint (message : string)
| SqliteError (message : string)
| ExternalFailure.

Definition message (e : Error) : string :=
  match e with
  | JsError m | TypeError m | RangeError m | SqliteConstraint m
  | SqliteError m => m
  | ExternalFailure => "external failure"
  end.

Inductive ConsoleLine :=
| ConsoleError (tag : string) (e : Error)
| ConsoleWarn (text : string).

(* ===================================================================== *)
(** ** The world: tables, logs and environment

    The clock stands still while one call is served and is moved between
    calls; the zone offset is fixed. *)

Record World := mkWorld {
  vouchers : list Voucher;
  next_voucher_id : Z;
  users : list User;
  staff : list Staff;
  audit_log : list AuditRow;
  next_audit_id : Z;
  console : list ConsoleLine;
  (** [Date.now()], and the offset of local time from UTC, in ms *)
  clock : Z;
  tz_offset : Z;
  (** the bytes [crypto.randomBytes] will return, and how many were drawn *)
  entropy : nat -> byte;
  drawn : nat;
  (** one entry per external call still to come: [true] makes it fail;
      when the list is exhausted no call fails *)
  faults : list bool
}.

Definition set_vouchers (vs : list Voucher) (w : World) : World :=
  mkWorld vs (next_voucher_id w) (users w) (staff w) (audit_log w)
          (next_audit_id w) (console w) (clock w) (tz_offset w) (entropy w)
          (drawn w) (faults w).

Definition set_next_voucher_id (n : Z) (w : World) : World :=
  mkWorld (vouchers w) n (users w) (staff w) (audit_log w)
          (next_audit_id w) (console w) (clock w) (tz_offset w) (entropy w)
          (drawn w) (faults w).

Definition set_users (us : list User) (w : World) : World :=
  mkWorld (vouchers w) (next_voucher_id w) us (staff w) (audit_log w)
          (next_audit_id w) (console w) (clock w) (tz_offset w) (entropy w)
          (drawn w) (faults w).

Definition set_staff (ss : list Staff) (w : World) : World :=
  mkWorld (vouchers w) (next_voucher_id w) (users w) ss (audit_log w)
          (next_audit_id w) (console w) (clock w) (tz_offset w) (entropy w)
          (drawn w) (faults w).

Definition set_audit_log (rows : list AuditRow) (w : World) : World :=
  mkWorld (vouchers w) (next_voucher_id w) (users w) (staff w) rows
          (next_audit_id w) (console w) (clock w) (tz_offset w) (entropy w)
          (drawn w) (faults w).

Definition set_next_audit_id (n : Z) (w : World) : World :=
  mkWorld (vouchers w) (next_voucher_id w) (users w) (staff w) (audit_log w)
          n (console w) (clock w) (tz_offset w) (entropy w)
          (drawn w) (faults w).

Definition set_console (ls : list ConsoleLine) (w : World) : World :=
  mkWorld (vouchers w) (next_voucher_id w) (users w) (staff w) (audit_log w)
          (next_audit_id w) ls (clock w) (tz_offset w) (entropy w)
          (drawn w) (faults w).

Definition set_clock (t : Z) (w : World) : World :=
  mkWorld (vouchers w) (next_voucher_id w) (users w) (staff w) (audit_log w)
          (next_audit_id w) (console w) t (tz_offset w) (entropy w)
          (drawn w) (faults w).

Definition set_drawn (n : nat) (w : World) : World :=
  mkWorld (vouchers w) (next_voucher_id w) (users w) (staff w) (audit_log w)
          (next_audit_id w) (console w) (clock w) (tz_offset w) (entropy w)
          n (faults w).

Definition set_faults (fs : list bool) (w : World) : World :=
  mkWorld (vouchers w) (next_voucher_id w) (users w) (staff w) (audit_log w)
          (next_audit_id w) (console w) (clock w) (tz_offset w) (entropy w)
          (drawn w) fs.

(* ===================================================================== *)
(** ** Computations: state, exceptions, and running out of fuel *)

Inductive Outcome (A : Type) :=
| Ret (a : A)
| Throw (e : Error)
| Diverge.

Arguments Ret {A} a.
Arguments Throw {A} e.
Arguments Diverge {A}.

Definition M (A : Type) : Type := World -> Outcome A * World.

Definition ret {A} (a : A) : M A := fun w => (Ret a, w).

Definition throw {A} (e : Error) : M A := fun w => (Throw e, w).

Definition diverge {A} : M A := fun w => (Diverge, w).

Definition bind {A B} (m : M A) (k : A -> M B) : M B :=
  fun w =>
    match m w with
    | (Ret a, w') => k a w'
    | (Throw e, w') => (Throw e, w')
    | (Diverge, w') => (Diverge, w')
    end.

(** [try { m } catch (error) { h error }]. *)
Definition try_catch {A} (m : M A) (h : Error -> M A) : M A :=
  fun w =>
    match m w with
    | (Throw e, w') => h e w'
    | r => r
    end.

Notation "x <- m ;; k" := (bind m (fun x => k))
  (at level 61, m at next level, right associativity).
Notation "m ;; k" := (bind m (fun _ => k))
  (at level 61, right associativity).

Definition gets {A} (f : World -> A) : M A := fun w => (Ret (f w), w).

Definition modify (f : World -> World) : M unit := fun w => (Ret tt, f w).

(** [if (c) throw e]. *)
Definition throw_if (c : bool) (e : Error) : M unit :=
  if c then throw e else ret tt.

(** [console.error(tag, error)] and [console.warn(text)]. *)
Definition console_error (tag : string) (e : Error) : M unit :=
  modify (fun w => set_console (console w ++ [ConsoleError tag e])%list w).

Definition console_warn (text : string) : M unit :=
  modify (fun w => set_console (console w ++ [ConsoleWarn text])%list w).

(** The wrapper that most functions of the source have:
    [try { m } catch (error) { console.error(tag, error); throw error; }]. *)
Definition logged {A} (tag : string) (m : M A) : M A :=
  try_catch m (fun e => console_error tag e ;; throw e).

(** An external call (a database statement, an encoder, the file logger):
    it consumes the next entry of [faults] and fails when that is [true]. *)
Definition external : M unit :=
  fun w =>
    match faults w with
    | [] => (Ret tt, w)
    | false :: fs => (Ret tt, set_faults fs w)
    | true :: fs => (Throw ExternalFailure, set_faults fs w)
    end.

(** [Date.now()]. *)
Definition now : M Z := gets clock.

(** [crypto.randomBytes(n)]. *)
Definition randomBytes (n : nat) : M (list byte) :=
  fun w =>
    (Ret (map (entropy w) (seq (drawn w) n)), set_drawn (drawn w + n)%nat w).

(* ===================================================================== *)
(** ** The statements sent to the database

    Each statement is one [await database.run/get/all(...)].  A table is
    the list of its rows in insertion order; [database.get] yields the
    first row of the result. *)

Module Sql.

(** [column = ?] on a nullable text column: never true for [NULL]. *)
Definition text_eq (col param : option string) : bool :=
  match col, param with
  | Some a, Some b => String.eqb a b
  | _, _ => false
  end.

(** [column = ?] on a nullable integer column. *)
Definition int_eq (col param : option Z) : bool :=
  match col, param with
  | Some a, Some b => a =? b
  | _, _ => false
  end.

(** [created_at > ?] in the [audit_log] queries.  The column holds the
    text written by [CURRENT_TIMESTAMP], the parameter is the text of
    [toISOString()].  Neither text reads as a number, so the NUMERIC
    affinity of the [DATETIME] column converts nothing and SQLite
    compares the two texts byte by byte. *)
Definition created_after (r : AuditRow) (cutoff : string) : bool :=
  String.ltb cutoff (Clock.sqlite_datetime (a_created_at r)).

(** [INSERT INTO audit_log (user_type, user_id, action, resource,
    details, ip_address, user_agent) VALUES (...)]. *)
Definition insert_audit_log (e : Event) : M unit :=
  external ;;
  modify (fun w =>
    set_next_audit_id (next_audit_id w + 1)
      (set_audit_log
         (audit_log w ++
            [mkAuditRow (next_audit_id w) (user_type e) (user_id e)
               (action e) (resource e) (details e) (ip_address e)
               (user_agent e) (clock w)])%list w)).

Definition login_failed_from (ip : option string) (cutoff : string)
    (r : AuditRow) : bool :=
  String.eqb (a_action r) "login_failed"
  && text_eq (a_ip_address r) ip
  && created_after r cutoff.

(** [SELECT COUNT( * ) as count FROM audit_log WHERE action =
    'login_failed' AND ip_address = ? AND created_at > ?]. *)
Definition count_login_failed (ip : option string) (cutoff : string) : M Z :=
  external ;;
  gets (fun w =>
    Z.of_nat (List.length (filter (login_failed_from ip cutoff) (audit_log w)))).

Definition redeemed_by_user (uid : option Z) (cutoff : string)
    (r : AuditRow) : bool :=
  String.eqb (a_action r) "voucher_redeemed"
  && int_eq (a_user_id r) uid
  && created_after r cutoff.

(** [SELECT COUNT( * ) as count FROM audit_log WHERE action =
    'voucher_redeemed' AND user_id = ? AND created_at > ?]. *)
Definition count_voucher_redeemed (uid : option Z) (cutoff : string) : M Z :=
  external ;;
  gets (fun w =>
    Z.of_nat (List.length (filter (redeemed_by_user uid cutoff) (audit_log w)))).

End Sql.

(* ===================================================================== *)
(** ** [utils/audit.js] *)

(** The [auditEntry] object that [auditLog] builds from [eventData]. *)
Definition auditEntry (e : Event) : Event :=
  mkEvent (user_type e) (Js.num_or_null (user_id e)) (action e)
          (Js.str_or_null (resource e)) (details e)
          (Js.str_or_null (ip_address e)) (Js.str_or_null (user_agent e)).

(** [auditLogger.info('AUDIT', auditEntry)]: the winston file transport. *)
Definition auditLogger_info (e : Event) : M unit := external.

Definition jstr (o : option string) : JsVal :=
  match o with Some s => JStr s | None => JNull end.

Definition jnum (o : option Z) : JsVal :=
  match o with Some n => JNum n | None => JNull end.

Definition brute_force_alert (ip : option string) (count : Z) : Event :=
  mkEvent "system" None "security_alert" (Some "authentication")
          (Some [("alert_type", JStr "brute_force_attempt");
                 ("ip_address", jstr ip);
                 ("failed_attempts", JNum count)])
          None None.

Definition voucher_abuse_alert (uid : option Z) (count : Z) : Event :=
  mkEvent "system" None "security_alert" (Some "vouchers")
          (Some [("alert_type", JStr "voucher_abuse");
                 ("user_id", jnum uid);
                 ("redemptions_today", JNum count)])
          None None.

(** [new Date(now.getFullYear(), now.getMonth(), now.getDate())]: local
    midnight of the local day of [t], for a zone [off] ms ahead of UTC. *)
Definition todayStart (off t : Z) : Z :=
  (t + off) / Clock.ms_per_day * Clock.ms_per_day - off.

(** [checkSecurityAlerts], with the [auditLog] it re-enters as a
    parameter. *)
Definition checkSecurityAlerts_ (auditLog : Event -> M unit)
    (eventData : Event) : M unit :=
  try_catch
    (t <- now ;;
     let oneHourAgo := t - 60 * 60 * 1000 in
     (if String.eqb (action eventData) "login_failed"
         && Js.truthy_str (ip_address eventData)
      then
        failedAttempts <-
          Sql.count_login_failed (ip_address eventData)
                                 (Clock.toISOString oneHourAgo) ;;
        if 10 <=? failedAttempts then
          auditLog (brute_force_alert (ip_address eventData) failedAttempts) ;;
          console_warn
            ("SECURITY ALERT: Multiple failed login attempts from "
               ++ match ip_address eventData with
                  | Some s => s | None => EmptyString end)
        else ret tt
      else ret tt) ;;
     (if String.eqb (action eventData) "voucher_redeemed"
         && Js.truthy_num (user_id eventData)
      then
        off <- gets tz_offset ;;
        recentRedemptions <-
          Sql.count_voucher_redeemed (user_id eventData)
                                     (Clock.toISOString (todayStart off t)) ;;
        if 5 <=? recentRedemptions then
          auditLog (voucher_abuse_alert (user_id eventData) recentRedemptions)
        else ret tt
      else ret tt))
    (fun error => console_error "Security alert check failed:" error).

(** [auditLog], with the [checkSecurityAlerts] it calls as a parameter. *)
Definition auditLog_ (checkSecurityAlerts : Event -> M unit)
    (eventData : Event) : M unit :=
  try_catch
    (Sql.insert_audit_log (auditEntry eventData) ;;
     auditLogger_info (auditEntry eventData) ;;
     checkSecurityAlerts eventData)
    (fun error => console_error "Audit logging failed:" error).

(** The two functions call each other; [fuel] bounds the depth of
    re-entry, and a call that would exceed it diverges. *)
Fixpoint auditLog_fuel (fuel : nat) : Event -> M unit :=
  match fuel with
  | O => fun _ => diverge
  | S fuel' => auditLog_ (checkSecurityAlerts_ (auditLog_fuel fuel'))
  end.

(** An alert event triggers no rule, so the re-entry stops at depth two
    (see [auditLog_fuel_enough]). *)
Definition auditLog : Event -> M unit := auditLog_fuel 2.

Definition checkSecurityAlerts : Event -> M unit :=
  checkSecurityAlerts_ (auditLog_fuel 1).

(* ===================================================================== *)
(** ** Statements on [vouchers], [users] and [staff] *)

Module Db.

(** A row of [SELECT v.*, u.name as user_name, u.email as user_email
    FROM vouchers v LEFT JOIN users u ON v.user_id = u.id]. *)
Record VoucherView := mkView {
  vv_row : Voucher;
  vv_user_name : option string;
  vv_user_email : option string
}.

Definition user_with_id (uid : option Z) (u : User) : bool :=
  Sql.int_eq (Some (u_id u)) uid.

Definition join_user (us : list User) (v : Voucher) : VoucherView :=
  match find (user_with_id (v_user_id v)) us with
  | Some u => mkView v (Some (u_name u)) (Some (u_email u))
  | None => mkView v None None
  end.

Definition with_code (code : string) (v : Voucher) : bool :=
  String.eqb (v_code v) code.

Definition with_id (id : Z) (v : Voucher) : bool := v_id v =? id.

(** [database.get(SELECT ... WHERE v.code = ?)]. *)
Definition select_voucher_by_code (code : string) : M (option VoucherView) :=
  external ;;
  gets (fun w => option_map (join_user (users w))
                            (find (with_code code) (vouchers w))).

(** [database.get('SELECT * FROM vouchers WHERE id = ?')]. *)
Definition select_voucher_by_id (id : Z) : M (option Voucher) :=
  external ;;
  gets (fun w => find (with_id id) (vouchers w)).

Definition unique_code_message : string :=
  "SQLITE_CONSTRAINT: UNIQUE constraint failed: vouchers.code".

(** [INSERT INTO vouchers (...) VALUES (...)], resolved with the new
    row's id.  [code] is [UNIQUE]: a second row with the same code is
    rejected and the table is left as it was. *)
Definition insert_voucher (v : Voucher) : M Z :=
  external ;;
  fun w =>
    if existsb (with_code (v_code v)) (vouchers w) then
      (Throw (SqliteConstraint unique_code_message), w)
    else
      (Ret (next_voucher_id w),
       set_next_voucher_id (next_voucher_id w + 1)
         (set_vouchers
            (vouchers w ++
               [mkVoucher (next_voucher_id w) (v_user_id v) (v_site_id v)
                  (v_code v) (v_type v) (v_title v) (v_description v)
                  (v_value v) (v_status v) (v_expires_at v) None None])%list
            w)).

Definition null_title_message : string :=
  "SQLITE_CONSTRAINT: NOT NULL constraint failed: vouchers.title".

(** The same [INSERT] when [title] is [undefined]: the parameter is left
    unbound, and the column is [NOT NULL], so the row is rejected. *)
Definition insert_voucher_without_title (v : Voucher) : M Z :=
  external ;;
  throw (SqliteConstraint null_title_message).

Definition mark_redeemed (t : Z) (by_ : Z) (v : Voucher) : Voucher :=
  mkVoucher (v_id v) (v_user_id v) (v_site_id v) (v_code v) (v_type v)
            (v_title v) (v_description v) (v_value v) "redeemed"
            (v_expires_at v) (Some t) (Some by_).

(** [UPDATE vouchers SET status = 'redeemed', redeemed_at =
    datetime('now'), redeemed_by = ? WHERE id = ?]. *)
Definition update_voucher_redeemed (by_ id : Z) : M unit :=
  external ;;
  modify (fun w =>
    set_vouchers
      (map (fun v => if with_id id v then mark_redeemed (clock w) by_ v else v)
           (vouchers w)) w).

Definition no_updated_at_message : string :=
  "SQLITE_ERROR: no such column: updated_at".

(** [UPDATE vouchers SET status = ?, updated_at = datetime('now')
    WHERE id = ?].  [createTables] gives [vouchers] no column
    [updated_at] (unlike [users] and [staff]), so SQLite rejects the
    statement whenever it is run and no row is written. *)
Definition update_voucher_status (s : string) (id : Z) : M unit :=
  external ;;
  throw (SqliteError no_updated_at_message).

(** [database.get('SELECT * FROM users WHERE id = ?')] (and the variant
    that selects [site_id] only). *)
Definition select_user (id : Z) : M (option User) :=
  external ;;
  gets (fun w => find (fun u => u_id u =? id) (users w)).

Definition with_loyalty (count : Z) (tier : string) (u : User) : User :=
  mkUser (u_id u) (u_site_id u) (u_email u) (u_name u) count tier.

(** [UPDATE users SET visit_count = ?, loyalty_tier = ?, updated_at =
    datetime('now') WHERE id = ?]. *)
Definition update_user_loyalty (count : Z) (tier : string) (id : Z) : M unit :=
  external ;;
  modify (fun w =>
    set_users
      (map (fun u => if u_id u =? id then with_loyalty count tier u else u)
           (users w)) w).

(** [database.get('SELECT * FROM staff WHERE id = ?')] (and the variant
    that selects [site_id] only). *)
Definition select_staff (id : Z) : M (option Staff) :=
  external ;;
  gets (fun w => find (fun s => s_id s =? id) (staff w)).

(** [database.get('SELECT * FROM staff WHERE email = ?')]. *)
Definition select_staff_by_email (email : string) : M (option Staff) :=
  external ;;
  gets (fun w => find (fun s => String.eqb (s_email s) email) (staff w)).

Definition with_daily (used : bool) (date : option string) (s : Staff) : Staff :=
  mkStaff (s_id s) (s_site_id s) (s_email s) (s_name s) (s_role s) used date.

(** [UPDATE staff SET daily_voucher_used = 1, last_voucher_date = ?
    WHERE id = ?]. *)
Definition update_staff_daily_used (today : string) (id : Z) : M unit :=
  external ;;
  modify (fun w =>
    set_staff
      (map (fun s => if s_id s =? id then with_daily true (Some today) s else s)
           (staff w)) w).

(** [UPDATE staff SET daily_voucher_used = 0 WHERE id = ?]. *)
Definition reset_staff_daily_used (id : Z) : M unit :=
  external ;;
  modify (fun w =>
    set_staff
      (map (fun s => if s_id s =? id
                     then with_daily false (s_last_voucher_date s) s else s)
           (staff w)) w).

End Db.

Import Db.

(* ===================================================================== *)
(** ** [utils/voucher.js] *)

(** [generateVoucherCode(type, length)]; every caller leaves [length] at
    its default, 12.  [crypto.randomBytes] rejects a size below zero and
    drops the fraction of [length / 2]. *)
Definition generateVoucherCode (type : string) (length : Z) : M string :=
  let prefix := Js.toUpperCase (substring 0 2 type) in
  if 0 <=? length then
    bytes <- randomBytes (Z.to_nat (length / 2)) ;;
    ret (prefix ++ Js.toUpperCase (Js.toHex bytes))
  else throw (RangeError "The value of size is out of range.").

(** [generateQRCode(voucherData)]: the image is produced by the [qrcode]
    package. *)
Definition generateQRCode (v : Voucher) : M unit :=
  logged "QR code generation failed:" external.

(** [generateBarcode(code)]: the image is produced by [jsbarcode] on a
    canvas. *)
Definition generateBarcode (code : string) : M unit :=
  logged "Barcode generation failed:" external.

Record CreatedBy := mkCreatedBy {
  cb_type : option string;
  cb_id : option Z
}.

(** The [voucherData] argument of [createVoucher]. *)
Record VoucherData := mkVoucherData {
  vd_user_id : option Z;
  vd_site_id : option Z;
  vd_type : string;
  vd_title : string;
  vd_description : string;
  vd_value : Z;
  vd_expires_in_hours : option Z;
  vd_created_by : option CreatedBy
}.

Definition with_id_of (id : Z) (v : Voucher) : Voucher :=
  mkVoucher id (v_user_id v) (v_site_id v) (v_code v) (v_type v)
            (v_title v) (v_description v) (v_value v) (v_status v)
            (v_expires_at v) (v_redeemed_at v) (v_redeemed_by v).

Definition voucher_created_event (vd : VoucherData) (v : Voucher) : Event :=
  mkEvent
    (match vd_created_by vd with
     | Some cb => match Js.str_or_null (cb_type cb) with
                  | Some t => t | None => "system" end
     | None => "system"
     end)
    (match vd_created_by vd with
     | Some cb => Js.num_or_null (cb_id cb)
     | None => None
     end)
    "voucher_created" (Some "vouchers")
    (Some [("voucher_id", JNum (v_id v));
           ("voucher_code", JStr (v_code v));
           ("type", JStr (v_type v));
           ("value", JNum (v_value v));
           ("recipient_user_id", jnum (vd_user_id vd))])
    None None.

(** The body of [createVoucher(voucherData)], with the [INSERT] as a
    parameter: what the statement does depends on whether
    [voucherData.title] is there.  [expires_at.toISOString()] is taken to
    succeed: the instant of expiry is within the range of [Date]. *)
Definition createVoucher_ (insert : Voucher -> M Z)
    (voucherData : VoucherData) : M Voucher :=
  logged "Create voucher failed:"
    (let expires_in_hours :=
       match vd_expires_in_hours voucherData with Some h => h | None => 72 end in
     code <- generateVoucherCode (vd_type voucherData) 12 ;;
     t <- now ;;
     let expires_at := t + expires_in_hours * 60 * 60 * 1000 in
     let voucher :=
       mkVoucher 0 (vd_user_id voucherData) (vd_site_id voucherData) code
                 (vd_type voucherData) (vd_title voucherData)
                 (vd_description voucherData) (vd_value voucherData)
                 "active" expires_at None None in
     generateQRCode voucher ;;
     generateBarcode code ;;
     id <- insert voucher ;;
     let voucher := with_id_of id voucher in
     auditLog (voucher_created_event voucherData voucher) ;;
     ret voucher).

(** [createVoucher(voucherData)] with a [title]. *)
Definition createVoucher : VoucherData -> M Voucher :=
  createVoucher_ insert_voucher.

(** [createVoucher(voucherData)] with [title] (and [description] and
    [value]) [undefined]; the fields of that name in [voucherData] are
    not used. *)
Definition createVoucher_untitled : VoucherData -> M Voucher :=
  createVoucher_ insert_voucher_without_title.

(** [getVoucherByCode(code)].  The query also joins the redeeming staff
    member's name, which is not represented. *)
Definition getVoucherByCode (code : string) : M (option VoucherView) :=
  logged "Get voucher failed:" (select_voucher_by_code code).

(** [String.prototype.toLowerCase], on ASCII text as [Js.toUpperCase]. *)
Definition lower_ascii (c : ascii) : ascii :=
  let n := N_of_ascii c in
  if (65 <=? n)%N && (n <=? 90)%N then ascii_of_N (n + 32) else c.

Fixpoint toLowerCase (s : string) : string :=
  match s with
  | EmptyString => EmptyString
  | String c s' => String (lower_ascii c) (toLowerCase s')
  end.

(** The [rewards] object of [createLoyaltyReward]: title, description and
    value of its four own entries. *)
Definition rewards (key : string) : option (string * string * Z) :=
  if String.eqb key "bronze" then Some ("Welcome Reward", "Free drink", 500)
  else if String.eqb key "silver" then
    Some ("Silver Member Reward", "Free appetizer", 800)
  else if String.eqb key "gold" then Some ("Gold Member Reward", "Free meal", 1500)
  else if String.eqb key "platinum" then
    Some ("Platinum Patron", "Free dinner for two", 3000)
  else None.

(** The names that an object literal inherits from [Object.prototype].
    [rewards[key]] finds them as well: a function, or for [__proto__] the
    prototype itself, which is truthy and has no [title], [description]
    or [value]. *)
Definition inherited_keys : list string :=
  ["constructor"; "__defineGetter__"; "__defineSetter__"; "hasOwnProperty";
   "__lookupGetter__"; "__lookupSetter__"; "isPrototypeOf";
   "propertyIsEnumerable"; "toString"; "valueOf"; "__proto__";
   "toLocaleString"].

Definition inherited (key : string) : bool :=
  existsb (String.eqb key) inherited_keys.

Definition undefined_property (name : string) : Error :=
  TypeError ("Cannot read properties of undefined (reading '" ++ name ++ "')").

(** [createLoyaltyReward(user_id, tier, visits)]. *)
Definition createLoyaltyReward (user_id : Z) (tier : string) (visits : Z)
    : M Voucher :=
  logged "Create loyalty reward failed:"
    (match rewards (toLowerCase tier) with
     | Some (title, description, value) =>
         user <- select_user user_id ;;
         match user with
         | None => throw (undefined_property "site_id")
         | Some user =>
             createVoucher
               (mkVoucherData (Some user_id) (u_site_id user) "loyalty_reward"
                  title description value (Some 168)
                  (Some (mkCreatedBy (Some "system") None)))
         end
     | None =>
         if inherited (toLowerCase tier) then
           user <- select_user user_id ;;
           match user with
           | None => throw (undefined_property "site_id")
           | Some user =>
               createVoucher_untitled
                 (mkVoucherData (Some user_id) (u_site_id user)
                    "loyalty_reward" EmptyString EmptyString 0 (Some 168)
                    (Some (mkCreatedBy (Some "system") None)))
           end
         else throw (JsError "Invalid loyalty tier")
     end).

(** [createPremiumWiFiVoucher(staff_id, amount_paid)]. *)
Definition createPremiumWiFiVoucher (staff_id : Z) (amount_paid : Z)
    : M Voucher :=
  logged "Create premium WiFi voucher failed:"
    (staff <- select_staff staff_id ;;
     match staff with
     | None => throw (undefined_property "site_id")
     | Some staff =>
         createVoucher
           (mkVoucherData None (s_site_id staff) "premium_wifi"
              "Premium WiFi Access" "Unlimited high-speed WiFi for 24 hours"
              amount_paid (Some 48)
              (Some (mkCreatedBy (Some "staff") (Some staff_id))))
     end).

(** [createStaffWiFiVoucher(staff_id)]. *)
Definition createStaffWiFiVoucher (staff_id : Z) : M Voucher :=
  logged "Create staff WiFi voucher failed:"
    (staff <- select_staff staff_id ;;
     match staff with
     | None => throw (undefined_property "last_voucher_date")
     | Some staff =>
         t <- now ;;
         let today := Clock.isoDate t in
         throw_if (Sql.text_eq (s_last_voucher_date staff) (Some today)
                   && s_daily_voucher_used staff)
                  (JsError "Daily staff voucher already used") ;;
         voucher <-
           createVoucher
             (mkVoucherData None (s_site_id staff) "staff_wifi"
                "Staff WiFi Access" "Staff internet access for work device"
                0 (Some 24)
                (Some (mkCreatedBy (Some "staff") (Some staff_id)))) ;;
         update_staff_daily_used today staff_id ;;
         ret voucher
     end).

(** The tier that [updateUserLoyalty] assigns to a visit count. *)
Definition newTier (newVisitCount : Z) : string :=
  if 30 <=? newVisitCount then "Platinum"
  else if 15 <=? newVisitCount then "Gold"
  else if 5 <=? newVisitCount then "Silver"
  else "Bronze".

Record LoyaltyUpdate := mkLoyaltyUpdate {
  visit_count : Z;
  loyalty_tier : string;
  tier_changed : bool
}.

(** [updateUserLoyalty(user_id, action)]; [None] is the [undefined] that
    it returns for an unknown user. *)
Definition updateUserLoyalty (user_id : Z) (action_ : string)
    : M (option LoyaltyUpdate) :=
  logged "Update user loyalty failed:"
    (user <- select_user user_id ;;
     match user with
     | None => ret None
     | Some user =>
         let newVisitCount :=
           if String.eqb action_ "visit" then u_visit_count user + 1
           else u_visit_count user in
         let newTier := newTier newVisitCount in
         let tierChanged := negb (String.eqb newTier (u_loyalty_tier user)) in
         update_user_loyalty newVisitCount newTier user_id ;;
         (if tierChanged && String.eqb action_ "visit" then
            createLoyaltyReward user_id newTier newVisitCount ;; ret tt
          else ret tt) ;;
         ret (Some (mkLoyaltyUpdate newVisitCount newTier tierChanged))
     end).

Definition voucher_redeemed_event (staff_id : Z) (v : Voucher) : Event :=
  mkEvent "staff" (Some staff_id) "voucher_redeemed" (Some "vouchers")
    (Some [("voucher_id", JNum (v_id v));
           ("voucher_code", JStr (v_code v));
           ("type", JStr (v_type v));
           ("value", JNum (v_value v));
           ("customer_user_id", jnum (v_user_id v))])
    None None.

Definition num_of (o : option Z) : Z :=
  match o with Some n => n | None => 0 end.

(** [redeemVoucher(code, redeemed_by)]; [redeemed_by] is the staff record
    of the request, of which only [id] is used. *)
Definition redeemVoucher (code : string) (redeemed_by : Staff)
    : M VoucherView :=
  logged "Redeem voucher failed:"
    (found <- select_voucher_by_code code ;;
     match found with
     | None => throw (JsError "Voucher not found")
     | Some view =>
         let voucher := vv_row view in
         throw_if (String.eqb (v_status voucher) "redeemed")
                  (JsError "Voucher already redeemed") ;;
         t <- now ;;
         throw_if (v_expires_at voucher <? t) (JsError "Voucher expired") ;;
         throw_if (negb (String.eqb (v_status voucher) "active"))
                  (JsError "Voucher not active") ;;
         update_voucher_redeemed (s_id redeemed_by) (v_id voucher) ;;
         (if Js.truthy_num (v_user_id voucher)
             && String.eqb (v_type voucher) "loyalty_reward"
          then updateUserLoyalty (num_of (v_user_id voucher)) "redemption" ;;
               ret tt
          else ret tt) ;;
         auditLog (voucher_redeemed_event (s_id redeemed_by) voucher) ;;
         t' <- now ;;
         ret (mkView (mark_redeemed t' (s_id redeemed_by) voucher)
                     (vv_user_name view) (vv_user_email view))
     end).

(* ===================================================================== *)
(** ** [routes/vouchers.js]

    The handlers are modelled from the point where the token middleware
    has set [req.staff] and the validation chain has reported no error;
    their arguments are the sanitised body fields. *)

Record Response (A : Type) := mkResponse {
  res_status : Z;
  res_error : option string;
  res_body : option A
}.

Arguments mkResponse {A} _ _ _.
Arguments res_status {A} _.
Arguments res_error {A} _.
Arguments res_body {A} _.

Definition failure {A} (status : Z) (error : string) : M (Response A) :=
  ret (mkResponse status (Some error) None).

(** The [catch] block of [POST /redeem]. *)
Definition redeem_error_response (error : Error) : M (Response VoucherView) :=
  console_error "Voucher redemption error:" error ;;
  if Js.includes (message error) "not found" then
    failure 404 "Voucher not found"
  else if Js.includes (message error) "already redeemed" then
    failure 409 "Voucher already redeemed"
  else if Js.includes (message error) "expired" then
    failure 410 "Voucher has expired"
  else if Js.includes (message error) "not active" then
    failure 400 "Voucher is not active"
  else failure 500 "Failed to redeem voucher".

(** [POST /redeem]. *)
Definition post_redeem (req_staff : option Staff) (voucherCode : string)
    : M (Response VoucherView) :=
  try_catch
    (match req_staff with
     | None => failure 403 "Staff access required"
     | Some staff =>
         redeemedVoucher <- redeemVoucher voucherCode staff ;;
         ret (mkResponse 200 None (Some redeemedVoucher))
     end)
    redeem_error_response.

Definition premium_wifi_sale_event (staff_id : Z) (v : Voucher)
    (amountPaid : Z) (receiptBarcode : option string) : Event :=
  mkEvent "staff" (Some staff_id) "premium_wifi_sale" (Some "vouchers")
    (Some [("voucher_id", JNum (v_id v));
           ("amount_paid", JNum amountPaid);
           ("receipt_barcode", jstr receiptBarcode)])
    None None.

(** [POST /premium-wifi]. *)
Definition post_premium_wifi (req_staff : option Staff) (amountPaid : Z)
    (receiptBarcode : option string) : M (Response Voucher) :=
  try_catch
    (match req_staff with
     | None => failure 403 "Staff access required"
     | Some staff =>
         voucher <- createPremiumWiFiVoucher (s_id staff) amountPaid ;;
         (if Js.truthy_str receiptBarcode then
            auditLog (premium_wifi_sale_event (s_id staff) voucher amountPaid
                        receiptBarcode)
          else ret tt) ;;
         ret (mkResponse 201 None (Some voucher))
     end)
    (fun error =>
       console_error "Premium WiFi voucher creation error:" error ;;
       failure 500 "Failed to create premium WiFi voucher").

(** [POST /staff-wifi]. *)
Definition post_staff_wifi (req_staff : option Staff) : M (Response Voucher) :=
  try_catch
    (match req_staff with
     | None => failure 403 "Staff access required"
     | Some staff =>
         voucher <- createStaffWiFiVoucher (s_id staff) ;;
         ret (mkResponse 201 None (Some voucher))
     end)
    (fun error =>
       console_error "Staff WiFi voucher creation error:" error ;;
       if Js.includes (message error) "already used" then
         failure 409
           "Daily staff voucher already used. Manager override required."
       else failure 500 "Failed to create staff WiFi voucher").

Definition staff_wifi_override_event (manager_id : Z) (target : Staff)
    (staffEmail : string) (v : Voucher) (reason : string) : Event :=
  mkEvent "staff" (Some manager_id) "staff_wifi_override" (Some "vouchers")
    (Some [("target_staff_id", JNum (s_id target));
           ("target_staff_email", JStr staffEmail);
           ("voucher_id", JNum (v_id v));
           ("reason", JStr reason)])
    None None.

(** [POST /staff-wifi/override]; [req_staff] is the manager that
    [requireManager] let through. *)
Definition post_staff_wifi_override (req_staff : Staff)
    (staffEmail reason : string) : M (Response Voucher) :=
  try_catch
    (targetStaff <- select_staff_by_email staffEmail ;;
     match targetStaff with
     | None => failure 404 "Staff member not found"
     | Some targetStaff =>
         reset_staff_daily_used (s_id targetStaff) ;;
         voucher <- createStaffWiFiVoucher (s_id targetStaff) ;;
         auditLog (staff_wifi_override_event (s_id req_staff) targetStaff
                     staffEmail voucher reason) ;;
         ret (mkResponse 201 None (Some voucher))
     end)
    (fun error =>
       console_error "Staff WiFi override error:" error ;;
       failure 500 "Failed to override staff WiFi voucher").

Definition voucher_status_changed_event (manager_id id : Z)
    (old_status new_status : string) (reason : option string) : Event :=
  mkEvent "staff" (Some manager_id) "voucher_status_changed" (Some "vouchers")
    (Some [("voucher_id", JNum id);
           ("old_status", JStr old_status);
           ("new_status", JStr new_status);
           ("reason", jstr reason)])
    None None.

(** [PATCH /:id/status]. *)
Definition patch_voucher_status (req_staff : Staff) (id : Z) (status : string)
    (reason : option string) : M (Response unit) :=
  try_catch
    (voucher <- select_voucher_by_id id ;;
     match voucher with
     | None => failure 404 "Voucher not found"
     | Some voucher =>
         if String.eqb (v_status voucher) "redeemed" then
           failure 400 "Cannot change status of redeemed voucher"
         else
           update_voucher_status status id ;;
           auditLog (voucher_status_changed_event (s_id req_staff) id
                       (v_status voucher) status reason) ;;
           ret (mkResponse 200 None (Some tt))
     end)
    (fun error =>
       console_error "Update voucher status error:" error ;;
       failure 500 "Failed to update voucher status").

(* ===================================================================== *)
(** ** Histories: requests served one after the other *)

Inductive Request :=
| PostRedeem (req_staff : Staff) (voucherCode : string)
| PostPremiumWifi (req_staff : Staff) (amountPaid : Z)
                  (receiptBarcode : option string)
| PostStaffWifi (req_staff : Staff)
| PostStaffWifiOverride (req_staff : Staff) (staffEmail reason : string)
| PatchVoucherStatus (req_staff : Staff) (id : Z) (status : string)
                     (reason : option string)
| CallCreateLoyaltyReward (user_id : Z) (tier : string) (visits : Z)
| CallUpdateUserLoyalty (user_id : Z) (action_ : string)
| CallAuditLog (eventData : Event).

(** The world a computation leaves behind, whatever its outcome. *)
Definition exec {A} (m : M A) (w : World) : World := snd (m w).

Definition serve (r : Request) : World -> World :=
  match r with
  | PostRedeem s c => exec (post_redeem (Some s) c)
  | PostPremiumWifi s a b => exec (post_premium_wifi (Some s) a b)
  | PostStaffWifi s => exec (post_staff_wifi (Some s))
  | PostStaffWifiOverride s e r => exec (post_staff_wifi_override s e r)
  | PatchVoucherStatus s i st r => exec (patch_voucher_status s i st r)
  | CallCreateLoyaltyReward u t v => exec (createLoyaltyReward u t v)
  | CallUpdateUserLoyalty u a => exec (updateUserLoyalty u a)
  | CallAuditLog e => exec (auditLog e)
  end.

(** What happens between two observations: a request is served, time
    passes, the environment schedules failures, a customer signs up. *)
Inductive Step :=
| Serve (r : Request)
| Tick (t : Z)
| Plan (fs : list bool)
| Signup (u : User).

Definition step (s : Step) (w : World) : World :=
  match s with
  | Serve r => serve r w
  | Tick t => set_clock t w
  | Plan fs => set_faults fs w
  | Signup u => set_users (users w ++ [u])%list w
  end.

Definition run (h : list Step) (w : World) : World :=
  fold_left (fun w s => step s w) h w.

(* ===================================================================== *)
(** ** Two redemptions in flight

    [redeemVoucher] gives up control at each [await].  Its first stage is
    the [SELECT] with the checks that follow it, its second stage the
    [UPDATE], its third stage all that comes after. *)

Definition redeem_tag : string := "Redeem voucher failed:".

Definition redeem_validate (code : string) : M VoucherView :=
  found <- select_voucher_by_code code ;;
  match found with
  | None => throw (JsError "Voucher not found")
  | Some view =>
      let voucher := vv_row view in
      throw_if (String.eqb (v_status voucher) "redeemed")
               (JsError "Voucher already redeemed") ;;
      t <- now ;;
      throw_if (v_expires_at voucher <? t) (JsError "Voucher expired") ;;
      throw_if (negb (String.eqb (v_status voucher) "active"))
               (JsError "Voucher not active") ;;
      ret view
  end.

Definition redeem_update (redeemed_by : Staff) (view : VoucherView) : M unit :=
  update_voucher_redeemed (s_id redeemed_by) (v_id (vv_row view)).

Definition redeem_settle (redeemed_by : Staff) (view : VoucherView)
    : M VoucherView :=
  let voucher := vv_row view in
  (if Js.truthy_num (v_user_id voucher)
      && String.eqb (v_type voucher) "loyalty_reward"
   then updateUserLoyalty (num_of (v_user_id voucher)) "redemption" ;; ret tt
   else ret tt) ;;
  auditLog (voucher_redeemed_event (s_id redeemed_by) voucher) ;;
  t' <- now ;;
  ret (mkView (mark_redeemed t' (s_id redeemed_by) voucher)
              (vv_user_name view) (vv_user_email view)).

Inductive Stage :=
| Received
| Validated (view : VoucherView)
| Updated (view : VoucherView)
| Settled (result : Outcome VoucherView).

(** One stage of a call [redeemVoucher(code, redeemed_by)]. *)
Definition advance (code : string) (redeemed_by : Staff) (st : Stage)
    (w : World) : Stage * World :=
  match st with
  | Received =>
      match logged redeem_tag (redeem_validate code) w with
      | (Ret view, w') => (Validated view, w')
      | (Throw e, w') => (Settled (Throw e), w')
      | (Diverge, w') => (Settled Diverge, w')
      end
  | Validated view =>
      match logged redeem_tag (redeem_update redeemed_by view) w with
      | (Ret _, w') => (Updated view, w')
      | (Throw e, w') => (Settled (Throw e), w')
      | (Diverge, w') => (Settled Diverge, w')
      end
  | Updated view =>
      let (r, w') := logged redeem_tag (redeem_settle redeemed_by view) w in
      (Settled r, w')
  | Settled r => (Settled r, w)
  end.

(** Two calls with the same code; an entry of the schedule says which of
    them runs its next stage ([true]: the first). *)
Record Race := mkRace {
  call1 : Stage;
  call2 : Stage;
  world : World
}.

Definition race_step (code : string) (staff1 staff2 : Staff) (r : Race)
    (pick : bool) : Race :=
  if pick then
    let (st, w) := advance code staff1 (call1 r) (world r) in
    mkRace st (call2 r) w
  else
    let (st, w) := advance code staff2 (call2 r) (world r) in
    mkRace (call1 r) st w.

Definition race (code : string) (staff1 staff2 : Staff)
    (schedule : list bool) (w : World) : Race :=
  fold_left (race_step code staff1 staff2) schedule (mkRace Received Received w).

Definition committed (st : Stage) : bool :=
  match st with
  | Settled (Ret _) => true
  | _ => false
  end.

Definition rejected_with (msg : string) (st : Stage) : bool :=
  match st with
  | Settled (Throw (JsError m)) => String.eqb m msg
  | _ => false
  end.

(* ===================================================================== *)
(** ** Vocabulary of the statements *)

(** [halts m]: [m] never runs out of fuel. *)
Definition halts {A} (m : M A) : Prop := forall w, fst (m w) <> Diverge.

(** [inv P m]: whatever its outcome, [m] takes a world that satisfies [P]
    to a world that satisfies [P]. *)
Definition inv (P : World -> Prop) {A} (m : M A) : Prop :=
  forall w, P w -> P (snd (m w)).

(** [keeps f m]: [m] leaves the component [f] of the world as it was. *)
Definition keeps {X A} (f : World -> X) (m : M A) : Prop :=
  forall w, f (snd (m w)) = f w.

(** [calm m]: started with no failure pending, [m] leaves none pending. *)
Definition calm {A} (m : M A) : Prop := inv (fun w => faults w = []) m.

(** The code that [generateVoucherCode(type)] produces in [w]: the type
    prefix and the next six random bytes. *)
Definition next_code (type : string) (w : World) : string :=
  Js.toUpperCase (substring 0 2 type) ++
  Js.toUpperCase (Js.toHex (map (entropy w) (seq (drawn w) 6))).

(** The row that [createVoucher(voucherData)] inserts in [w]. *)
Definition new_voucher (vd : VoucherData) (w : World) : Voucher :=
  mkVoucher (next_voucher_id w) (vd_user_id vd) (vd_site_id vd)
            (next_code (vd_type vd) w) (vd_type vd) (vd_title vd)
            (vd_description vd) (vd_value vd) "active"
            (clock w +
             match vd_expires_in_hours vd with Some h => h | None => 72 end
             * 60 * 60 * 1000)
            None None.

(** No voucher of [w] carries the code. *)
Definition fresh_code (code : string) (w : World) : Prop :=
  existsb (with_code code) (vouchers w) = false.

(** [w'] differs from [w] at most in the audit table, the console and the
    pending faults. *)
Definition audit_only (w w' : World) : Prop :=
  vouchers w' = vouchers w /\
  next_voucher_id w' = next_voucher_id w /\
  users w' = users w /\
  staff w' = staff w /\
  clock w' = clock w /\
  tz_offset w' = tz_offset w /\
  entropy w' = entropy w /\
  drawn w' = drawn w.

(** [w'] is [w] after [createVoucher] has inserted [v]: one more row, one
    more id handed out, six more random bytes drawn. *)
Definition created (v : Voucher) (w w' : World) : Prop :=
  vouchers w' = (vouchers w ++ [v])%list /\
  next_voucher_id w' = next_voucher_id w + 1 /\
  users w' = users w /\
  staff w' = staff w /\
  clock w' = clock w /\
  tz_offset w' = tz_offset w /\
  entropy w' = entropy w /\
  drawn w' = (drawn w + 6)%nat.

(** The primary key of [vouchers]: ids are distinct and below the next
    id that [AUTOINCREMENT] hands out. *)
Definition ids_ok (w : World) : Prop :=
  NoDup (map v_id (vouchers w)) /\
  Forall (fun v => v_id v < next_voucher_id w) (vouchers w).

(** The voucher that a lookup by [code] finds has status [redeemed]. *)
Definition redeemed_in (code : string) (w : World) : Prop :=
  exists v, find (with_code code) (vouchers w) = Some v /\
            v_status v = "redeemed".

(** The row of staff member [sid] says that the daily voucher of date [d]
    is used. *)
Definition daily_used_on (sid : Z) (d : string) (w : World) : Prop :=
  exists s, find (fun s => s_id s =? sid) (staff w) = Some s /\
            s_daily_voucher_used s = true /\
            s_last_voucher_date s = Some d.

(** A step that is not a manager override and that does not move the
    clock to another calendar date than [d]. *)
Definition ordinary_on (d : string) (s : Step) : bool :=
  match s with
  | Serve (PostStaffWifiOverride _ _ _) => false
  | Tick t => String.eqb (Clock.isoDate t) d
  | _ => true
  end.

(** The tier table as the specification words it, in ascending order of
    threshold. *)
Definition tier_table : list (string * Z) :=
  [("Bronze", 0); ("Silver", 5); ("Gold", 15); ("Platinum", 30)].

(** The lookup as the specification words it: the table is walked from
    the highest threshold down and the first threshold that does not
    exceed the count selects the tier. *)
Definition threshold_lookup (count : Z) : option string :=
  option_map fst (find (fun entry => snd entry <=? count) (rev tier_table)).

(** The row of customer [uid]. *)
Definition customer (uid : Z) (w : World) : option User :=
  find (fun u => u_id u =? uid) (users w).

(** [n] calls [updateUserLoyalty(uid, 'visit')], one after the other. *)
Fixpoint recordVisits (n : nat) (uid : Z) (w : World) : World :=
  match n with
  | O => w
  | S n' => recordVisits n' uid (exec (updateUserLoyalty uid "visit") w)
  end.

Definition detail (key : string) (d : option Details) : option JsVal :=
  match d with
  | Some fields =>
      option_map snd (find (fun kv => String.eqb (fst kv) key) fields)
  | None => None
  end.

(** The row is a [security_alert] of type [brute_force_attempt]. *)
Definition is_brute_force_alert (r : AuditRow) : bool :=
  String.eqb (a_action r) "security_alert"
  && match detail "alert_type" (a_details r) with
     | Some (JStr t) => String.eqb t "brute_force_attempt"
     | _ => false
     end.

Definition brute_force_alerts (w : World) : Z :=
  Z.of_nat (List.length (filter is_brute_force_alert (audit_log w))).

(** The count that the failed-login query of [checkSecurityAlerts]
    returns in [w]. *)
Definition failed_logins_seen (ip : option string) (w : World) : Z :=
  Z.of_nat
    (List.length
       (filter (Sql.login_failed_from ip
                  (Clock.toISOString (clock w - 60 * 60 * 1000)))
               (audit_log w))).

(** [w] after the [INSERT] of [auditLog(e)]. *)
Definition logged_event (e : Event) (w : World) : World :=
  set_next_audit_id (next_audit_id w + 1)
    (set_audit_log
       (audit_log w ++
          [mkAuditRow (next_audit_id w) (user_type e) (user_id e)
             (action e) (resource e) (details e) (ip_address e)
             (user_agent e) (clock w)])%list w).

(** A failed login from [ip], as the staff login reports it for an
    unknown email. *)
Definition login_failed_event (ip email : string) : Event :=
  mkEvent "staff" None "login_failed" (Some "authentication")
          (Some [("reason", JStr "user_not_found"); ("email", JStr email)])
          (Some ip) None.

(** The argument that [createStaffWiFiVoucher] passes to [createVoucher]. *)
Definition staff_wifi_data (staff : Staff) (staff_id : Z) : VoucherData :=
  mkVoucherData None (s_site_id staff) "staff_wifi" "Staff WiFi Access"
    "Staff internet access for work device" 0 (Some 24)
    (Some (mkCreatedBy (Some "staff") (Some staff_id))).

(** The daily-use gate of [createStaffWiFiVoucher]. *)
Definition daily_gate (s : Staff) (w : World) : bool :=
  Sql.text_eq (s_last_voucher_date s) (Some (Clock.isoDate (clock w)))
  && s_daily_voucher_used s.

(** What [updateUserLoyalty(uid, 'redemption')] does to [users]: the row
    of [uid] keeps its count and gets the tier of that count. *)
Definition retier (uid : Z) (us : list User) : list User :=
  match find (fun u => u_id u =? uid) us with
  | Some u =>
      map (fun u' => if u_id u' =? uid
                     then with_loyalty (u_visit_count u)
                                       (newTier (u_visit_count u)) u'
                     else u') us
  | None => us
  end.

(** [redeemVoucher] counts the redemption for the owner of the voucher. *)
Definition counts_for_loyalty (v : Voucher) : bool :=
  Js.truthy_num (v_user_id v) && String.eqb (v_type v) "loyalty_reward".

(** The checks of [redeemVoucher], in the order in which it makes them. *)
Definition redeem_verdict (v : Voucher) (t : Z) : option string :=
  if String.eqb (v_status v) "redeemed" then Some "Voucher already redeemed"
  else if v_expires_at v <? t then Some "Voucher expired"
  else if negb (String.eqb (v_status v) "active") then Some "Voucher not active"
  else None.

(** The world after a redemption that went through. *)
Definition redeemed_world (s : Staff) (v : Voucher) (w w' : World) : Prop :=
  vouchers w' =
    map (fun v' => if with_id (v_id v) v' then mark_redeemed (clock w) (s_id s) v'
                   else v') (vouchers w) /\
  users w' = (if counts_for_loyalty v then retier (num_of (v_user_id v)) (users w)
              else users w) /\
  next_voucher_id w' = next_voucher_id w /\
  staff w' = staff w /\ clock w' = clock w /\ faults w' = [] /\
  drawn w' = drawn w /\ entropy w' = entropy w.

(** The HTTP status with which a handler answered. *)
Definition status_of {A} (x : Outcome (Response A) * World) : option Z :=
  match fst x with
  | Ret response => Some (res_status response)
  | _ => None
  end.

(** The state of affairs that holds from a successful issuance to the end of
    the day. *)
Definition used_today (sid : Z) (d : string) (w : World) : Prop :=
  daily_used_on sid d w /\ Clock.isoDate (clock w) = d.

(* ===================================================================== *)
(** ** Sample worlds *)

Definition alice : Staff :=
  mkStaff 1 (Some 1) "alice@cafe.example" "Alice" "staff" false None.

Definition bob : Staff :=
  mkStaff 2 (Some 1) "bob@cafe.example" "Bob" "staff" false None.

Definition carol : User :=
  mkUser 7 (Some 1) "carol@mail.example" "Carol" 4 "Bronze".

(** 2023-11-15T00:10:00.000Z. *)
Definition just_after_midnight : Z := 1700007000000.

(** Six bytes [1a], then [2b] for ever. *)
Definition sample_entropy (n : nat) : byte :=
  if (n <? 6)%nat then x1a else x2b.

(** An empty database with two staff members and one customer. *)
Definition sample_world : World :=
  mkWorld [] 1 [carol] [alice; bob] [] 1 [] just_after_midnight 0
          sample_entropy 0 [].

Definition sample_voucher (id : Z) (owner : option Z) (code type status : string)
    (expires_at : Z) : Voucher :=
  mkVoucher id owner (Some 1) code type "Sample" "Sample voucher" 500 status
            expires_at None None.

(** [sample_world] with one voucher in it. *)
Definition world_with (v : Voucher) : World :=
  set_next_voucher_id (v_id v + 1) (set_vouchers [v] sample_world).

(** In a table that already holds the code [ST1A1A1A1A1A1A], the staff
    voucher of Alice collides on its first draw. *)
Definition world_with_collision : World :=
  world_with (sample_voucher 1 None "ST1A1A1A1A1A1A" "staff_wifi" "active"
                             (just_after_midnight + 1000)).

(** Carol holds an active loyalty reward that expires in a week. *)
Definition world_with_reward : World :=
  world_with (sample_voucher 1 (Some 7) "LOC0FFEE000001" "loyalty_reward"
                             "active" (just_after_midnight + 604800000)).


(** An active voucher whose expiry has passed. *)
Definition world_active_and_past : World :=
  world_with (sample_voucher 1 None "PRAC71FE000001" "premium_wifi" "active"
                             (just_after_midnight - 1000)).

(** Requests of every kind served after Carol's reward was redeemed. *)
Definition sample_history : list Step :=
  [ Tick (just_after_midnight + 60000);
    Serve (PatchVoucherStatus bob 1 "active" (Some "reopened by mistake"));
    Serve (PostStaffWifi alice);
    Signup (mkUser 8 (Some 1) "dave@mail.example" "Dave" 0 "Bronze");
    Serve (CallUpdateUserLoyalty 7 "visit");
    Serve (PostPremiumWifi bob 250 None);
    Serve (PostRedeem bob "LOC0FFEE000001");
    Tick (just_after_midnight + 86400000) ].

(** What happens on the day of Alice's staff voucher after she got it. *)
Definition same_day_history : list Step :=
  [ Tick (just_after_midnight + 60000);
    Serve (PostStaffWifi bob);
    Serve (PostPremiumWifi alice 250 None);
    Serve (PostStaffWifi alice);
    Tick (just_after_midnight + 3600000) ].

(** [n] failed logins from 203.0.113.5, one a minute, the first at ten
    past midnight (UTC). *)
Fixpoint failed_logins (start : Z) (n : nat) : list Step :=
  match n with
  | O => []
  | S n' =>
      Tick start
        :: Serve (CallAuditLog (login_failed_event "203.0.113.5" "mallory@mail.example"))
        :: failed_logins (start + 60000) n'
  end.

(** 2023-11-15T12:00:00.000Z. *)
Definition noon : Z := 1700049600000.


(* ===================================================================== *)
(** ** The fallback channel of [utils/audit.js] *)

(** How many of the external calls that were made have failed. *)
Definition failed (used : list bool) : nat :=
  count_occ Bool.bool_dec used true.

(** A line that [auditLog] or [checkSecurityAlerts] writes with
    [console.error] in its [catch] block. *)
Definition is_fallback_line (l : ConsoleLine) : bool :=
  match l with
  | ConsoleError tag _ =>
      String.eqb tag "Audit logging failed:"
      || String.eqb tag "Security alert check failed:"
  | ConsoleWarn _ => false
  end.

Definition fallback_lines (ls : list ConsoleLine) : nat :=
  List.length (filter is_fallback_line ls).

(** What the two functions write to the console: the failure of an
    external call under one of the two tags, or a warning. *)
Definition audit_line (l : ConsoleLine) : Prop :=
  match l with
  | ConsoleError tag e => is_fallback_line l = true /\ e = ExternalFailure
  | ConsoleWarn _ => True
  end.

(** [m] accounts for the failures of its external calls: the calls made
    are the first entries of the plan, and every one that failed is on
    the console as a fallback line, except the one that [m] throws. *)
Definition accounts {A} (m : M A) : Prop :=
  forall w,
    exists used lines,
      faults w = (used ++ faults (snd (m w)))%list /\
      console (snd (m w)) = (console w ++ lines)%list /\
      Forall audit_line lines /\
      match fst (m w) with
      | Ret _ => fallback_lines lines = failed used
      | Throw e => e = ExternalFailure /\ S (fallback_lines lines) = failed used
      | Diverge => True
      end.
(* ===================================================================== *)
(** ** The rest of [utils/voucher.js], [utils/audit.js] and the routes *)

(** [console.log(text)] writes to the standard output, of which the world
    keeps no record ([console] holds the lines of the error stream). *)
Definition console_log (text : string) : M unit := ret tt.

(** *** [GET /lookup/:code] ([routes/vouchers.js]) *)

(** The [voucher] object of the answer: the row with the two flags that
    the handler adds. *)
Record Lookup := mkLookup {
  lk_voucher : VoucherView;
  is_expired : bool;
  is_redeemed : bool
}.

Definition get_lookup (req_staff : option Staff) (code : string)
    : M (Response Lookup) :=
  try_catch
    (match req_staff with
     | None => failure 403 "Staff access required"
     | Some _ =>
         voucher <- getVoucherByCode code ;;
         match voucher with
         | None => failure 404 "Voucher not found"
         | Some voucher =>
             t <- now ;;
             let isExpired := v_expires_at (vv_row voucher) <? t in
             ret (mkResponse 200 None
                    (Some (mkLookup voucher isExpired
                             (String.eqb (v_status (vv_row voucher))
                                         "redeemed"))))
         end
     end)
    (fun error =>
       console_error "Voucher lookup error:" error ;;
       failure 500 "Failed to lookup voucher").

(** *** [getUserVouchers] and [GET /user/:userId] *)

Section NewestFirst.

(** The order in which the store returns the rows of [ORDER BY created_at
    DESC].  The voucher rows of the world carry no [created_at], and
    SQLite leaves the order of rows with equal keys open, so the order is
    a parameter. *)
Variable newest_first : list Voucher -> list Voucher.

Definition of_user (user_id : option Z) (status : option string)
    (v : Voucher) : bool :=
  Sql.int_eq (v_user_id v) user_id
  && match Js.str_or_null status with
     | Some s => String.eqb (v_status v) s
     | None => true
     end.

(** [SELECT * FROM vouchers WHERE user_id = ? [AND status = ?] ORDER BY
    created_at DESC]. *)
Definition select_vouchers_of_user (user_id : option Z)
    (status : option string) : M (list Voucher) :=
  external ;;
  gets (fun w => newest_first (filter (of_user user_id status) (vouchers w))).

(** [getUserVouchers(user_id, status)]; a [user_id] that is [NaN] reaches
    the store as [NULL] and is [None] here. *)
Definition getUserVouchers (user_id : option Z) (status : option string)
    : M (list Voucher) :=
  logged "Get user vouchers failed:" (select_vouchers_of_user user_id status).

(** [req.customer && req.customer.id !== parseInt(userId)]. *)
Definition other_customer (req_customer : option User) (userId : option Z)
    : bool :=
  match req_customer with
  | Some customer =>
      negb (match userId with
            | Some n => u_id customer =? n
            | None => false
            end)
  | None => false
  end.

(** [GET /user/:userId]; [userId] is the value of [parseInt(userId)],
    [None] when that is [NaN]. *)
Definition get_user_vouchers (req_customer : option User) (userId : option Z)
    (status : option string) : M (Response (list Voucher)) :=
  try_catch
    (if other_customer req_customer userId then failure 403 "Access denied"
     else
       vouchers <- getUserVouchers userId status ;;
       ret (mkResponse 200 None (Some vouchers)))
    (fun error =>
       console_error "Get user vouchers error:" error ;;
       failure 500 "Failed to retrieve vouchers").

End NewestFirst.

(** *** [cleanOldAuditLogs] ([utils/audit.js]) *)

(** [created_at < ?] in the [DELETE]: as in [Sql.created_after], the text
    of the column is compared with the text of [toISOString()]. *)
Definition created_before (r : AuditRow) (cutoff : string) : bool :=
  String.ltb (Clock.sqlite_datetime (a_created_at r)) cutoff.

(** [DELETE FROM audit_log WHERE created_at < ?], resolved with the
    number of rows that went ([result.changes]). *)
Definition delete_audit_log_before (cutoff : string) : M Z :=
  external ;;
  fun w =>
    let kept := filter (fun r => negb (created_before r cutoff)) (audit_log w) in
    (Ret (Z.of_nat (List.length (audit_log w) - List.length kept)),
     set_audit_log kept w).

Definition audit_cleanup_event (deleted : Z) (cutoff : string) : Event :=
  mkEvent "system" None "audit_cleanup" (Some "audit_log")
          (Some [("deleted_entries", JNum deleted);
                 ("cutoff_date", JStr cutoff)])
          None None.

Definition cleanOldAuditLogs : M unit :=
  try_catch
    (let retentionDays := 365 in
     t <- now ;;
     let cutoffDate := t - retentionDays * 24 * 60 * 60 * 1000 in
     changes <- delete_audit_log_before (Clock.toISOString cutoffDate) ;;
     console_log ("Cleaned " ++ NilZero.string_of_int (Z.to_int changes)
                    ++ " old audit log entries") ;;
     auditLog (audit_cleanup_event changes (Clock.toISOString cutoffDate)))
    (fun error => console_error "Clean old audit logs failed:" error).

(** *** [middleware/auth.js]: the role checks and the device block *)

(** What a middleware does with a request: it answers, or it calls
    [next()], which it does only when [req.staff] is there. *)
Inductive Checked :=
| Next (staff : Staff)
| Denied (status : Z) (error : string).

Definition requireAdmin (req_staff : option Staff) : Checked :=
  match req_staff with
  | None => Denied 403 "Administrative privileges required."
  | Some staff =>
      if negb (String.eqb (s_role staff) "admin")
         && negb (String.eqb (s_role staff) "manager")
      then Denied 403 "Administrative privileges required."
      else Next staff
  end.

Definition requireManager (req_staff : option Staff) : Checked :=
  match req_staff with
  | None => Denied 403 "Management privileges required."
  | Some staff =>
      if negb (existsb (String.eqb (s_role staff)) ["admin"; "manager"])
      then Denied 403 "Management privileges required."
      else Next staff
  end.

(** A handler behind a role check. *)
Definition guarded {A} (check : option Staff -> Checked)
    (handler : Staff -> M (Response A)) (req_staff : option Staff)
    : M (Response A) :=
  match check req_staff with
  | Next staff => handler staff
  | Denied status error => failure status error
  end.

(** [POST /staff-wifi/override] and [PATCH /:id/status] as they are
    mounted, behind [requireManager]. *)
Definition route_staff_wifi_override (req_staff : option Staff)
    (staffEmail reason : string) : M (Response Voucher) :=
  guarded requireManager
    (fun staff => post_staff_wifi_override staff staffEmail reason) req_staff.

Definition route_patch_voucher_status (req_staff : option Staff) (id : Z)
    (status : string) (reason : option string) : M (Response unit) :=
  guarded requireManager
    (fun staff => patch_voucher_status staff id status reason) req_staff.

Definition device_blocked_event (macAddress : string) : Event :=
  mkEvent "system" None "device_blocked" (Some "network")
          (Some [("mac_address", JStr macAddress);
                 ("reason", JStr "failed_staff_login")])
          None None.

(** [blockDeviceByMAC(macAddress)]. *)
Definition blockDeviceByMAC (macAddress : option string) : M unit :=
  match Js.str_or_null macAddress with
  | None => ret tt
  | Some mac =>
      try_catch
        (console_log ("Blocking device with MAC: " ++ mac) ;;
         auditLog (device_blocked_event mac))
        (fun error => console_error "Failed to block device:" error)
  end.

(* ===================================================================== *)
(** ** Calendar days

    What the statements about dates are worded with. *)

Module Calendar.

(** The UTC day of an instant, counted from 1970-01-01. *)
Definition utc_day (t : Z) : Z := t / Clock.ms_per_day.

(** Year, month and day of a day number as one number, YYYYMMDD. *)
Definition date_key (z : Z) : Z :=
  let '(y, m, d) := Clock.civil_from_days z in y * 10000 + m * 100 + d.

(** The day has a month and a day of the month in range, and the next
    day has a later date. *)
Definition day_ok (z : Z) : bool :=
  let '(y, m, d) := Clock.civil_from_days z in
  (1 <=? m) && (m <=? 12) && (1 <=? d) && (d <=? 31)
  && (date_key z <? date_key (z + 1)).

(** On each of the [n] days from [z] on, month and day of the month are
    in range and the date is later than that of the day before ([prev]
    for the first of them). *)
Fixpoint rising (n : nat) (z prev : Z) (acc : bool) : bool :=
  match n with
  | O => acc
  | S n' =>
      let '(y, m, d) := Clock.civil_from_days z in
      let key := y * 10000 + m * 100 + d in
      rising n' (z + 1) key
        (acc && ((1 <=? m) && (m <=? 12) && (1 <=? d) && (d <=? 31)
                 && (prev <? key)))
  end.

(** The instants from 1970-01-01 to the end of 9999, whose year both
    renderings write with four digits. *)
Definition four_digit_year (t : Z) : Prop := 0 <= t < 253402300800000.

End Calendar.

(* ===================================================================== *)
(** ** Vocabulary of the further statements *)

(** No row of the audit table is dated after the clock or before 1970. *)
Definition audit_log_in_the_past (w : World) : Prop :=
  Forall (fun r => 0 <= a_created_at r <= clock w) (audit_log w).

(** The count that the redemption query of [checkSecurityAlerts] returns
    in [w]. *)
Definition redemptions_seen (uid : option Z) (w : World) : Z :=
  Z.of_nat
    (List.length
       (filter (Sql.redeemed_by_user uid
                  (Clock.toISOString (todayStart (tz_offset w) (clock w))))
               (audit_log w))).

(** The row that [auditLog(e)] inserts in [w]. *)
Definition audit_row (e : Event) (w : World) : AuditRow :=
  mkAuditRow (next_audit_id w) (user_type e) (Js.num_or_null (user_id e))
             (action e) (Js.str_or_null (resource e)) (details e)
             (Js.str_or_null (ip_address e)) (Js.str_or_null (user_agent e))
             (clock w).

(** Alice's redemption of a voucher, as [redeemVoucher] reports it, and
    five of them on a morning. *)
Definition sample_redemption : Event :=
  voucher_redeemed_event 1
    (sample_voucher 1 None "PRAC71FE000001" "premium_wifi" "active"
                    (noon + 3600000)).

Definition five_redemptions : list Step :=
  Tick (noon - 7200000) :: repeat (Serve (CallAuditLog sample_redemption)) 5.

(** Two rows of 2022-11-15, the second of them later in the day than the
    instant 365 days before [noon]; one row of the day after. *)
Definition old_rows : list AuditRow :=
  [ mkAuditRow 1 "staff" (Some 1) "login_success" (Some "authentication")
               None None None (noon - 31536000000 - 3600000);
    mkAuditRow 2 "staff" (Some 1) "login_success" (Some "authentication")
               None None None (noon - 31536000000 + 3600000);
    mkAuditRow 3 "staff" (Some 2) "login_success" (Some "authentication")
               None None None (noon - 31536000000 + 86400000) ].

Definition world_with_old_rows : World :=
  set_clock noon (set_next_audit_id 4 (set_audit_log old_rows sample_world)).

(** What [createPremiumWiFiVoucher(1, 2.50)] passes to [createVoucher]. *)
Definition sample_premium : VoucherData :=
  mkVoucherData None (Some 1) "premium_wifi" "Premium WiFi Access"
    "Unlimited high-speed WiFi for 24 hours" 250 (Some 48)
    (Some (mkCreatedBy (Some "staff") (Some 1))).

(** [w] after the [INSERT] of [createVoucher]: the row, the next id, and
    the six random bytes that the code took. *)
Definition inserted (v : Voucher) (w : World) : World :=
  set_next_voucher_id (next_voucher_id w + 1)
    (set_vouchers (vouchers w ++ [v])%list (set_drawn (drawn w + 6) w)).


(** The store fails at the seventh call, which for
    [createStaffWiFiVoucher] is the [UPDATE] of the flag. *)
Definition world_failing_at_the_flag : World :=
  set_faults [false; false; false; false; false; false; true] sample_world.

(** Alice has had her voucher of the day ([just_after_midnight] is on
    2023-11-15). *)
Definition world_after_alices_voucher : World :=
  set_staff [with_daily true (Some "2023-11-15") alice; bob] sample_world.

(** Three calls to the store go through and the fourth external call
    fails, which for the override route is the QR encoder inside
    [createVoucher]. *)
Definition world_failing_in_the_override : World :=
  set_faults [false; false; false; true] world_after_alices_voucher.

(** The argument that [createLoyaltyReward] passes to [createVoucher]. *)
Definition loyalty_reward_data (user_id : Z) (user : User)
    (reward : string * string * Z) : VoucherData :=
  let '(title, description, value) := reward in
  mkVoucherData (Some user_id) (u_site_id user) "loyalty_reward"
    title description value (Some 168)
    (Some (mkCreatedBy (Some "system") None)).

(** Carol's fifth visit when the code of her reward is taken: the table
    holds the code that the next six random bytes give. *)
Definition world_with_taken_reward_code : World :=
  world_with (sample_voucher 1 None "LO1A1A1A1A1A1A" "loyalty_reward" "active"
                             (just_after_midnight + 1000)).

(** A voucher row without what a redemption writes: the status,
    [redeemed_at] and [redeemed_by]. *)
Definition as_issued (v : Voucher) : Voucher :=
  mkVoucher (v_id v) (v_user_id v) (v_site_id v) (v_code v) (v_type v)
            (v_title v) (v_description v) (v_value v) "active"
            (v_expires_at v) None None.

(** The store answers the [SELECT] and the [UPDATE] of a redemption and
    fails at the [SELECT] of the loyalty update. *)
Definition world_failing_after_the_update : World :=
  set_faults [false; false; true] world_with_reward.

(** The rows of [l'] begin with the rows of [l], in the same order. *)
Definition begins_with {A} (l l' : list A) : Prop :=
  exists rest, l' = (l ++ rest)%list.

(** The audit table of [w] begins with the rows [l]. *)
Definition trail_kept (l : list AuditRow) (w : World) : Prop :=
  begins_with l (audit_log w).

(** One of [0-9A-F]. *)
Definition hex_upper (c : ascii) : bool :=
  let n := N_of_ascii c in
  ((48 <=? n)%N && (n <=? 57)%N) || ((65 <=? n)%N && (n <=? 70)%N).

(** A manager, and the sample world with her in the [staff] table. *)
Definition dana : Staff :=
  mkStaff 3 (Some 1) "dana@cafe.example" "Dana" "manager" false None.

Definition world_with_a_manager : World :=
  set_staff [alice; bob; dana] sample_world.

(** The same world, with the store failing at the seventh call. *)
Definition manager_world_failing_at_the_flag : World :=
  set_faults [false; false; false; false; false; false; true]
             world_with_a_manager.

(** [v'] is the row [v] as it was, or as a redemption has marked it. *)
Definition kept_or_redeemed (v v' : Voucher) : Prop :=
  v' = v \/ exists t by_, v' = mark_redeemed t by_ v.

(** The table [l'] begins with the rows of [l], in the same order, each
    as it was or marked by a redemption. *)
Definition rows_kept_or_redeemed (l l' : list Voucher) : Prop :=
  exists old rest, l' = (old ++ rest)%list /\ Forall2 kept_or_redeemed l old.
(* ===================================================================== *)
(** * Properties *)

(** ** Running a computation step by step *)

Lemma bind_Ret {A B} (m : M A) (k : A -> M B) (w w1 : World) (a : A) r :
  m w = (Ret a, w1) -> k a w1 = r -> bind m k w = r.
Proof. intros Hm Hk. unfold bind. now rewrite Hm. Qed.

Lemma bind_Throw {A B} (m : M A) (k : A -> M B) (w w1 : World) (e : Error) :
  m w = (Throw e, w1) -> bind m k w = (Throw e, w1).
Proof. intros Hm. unfold bind. now rewrite Hm. Qed.

Lemma logged_Ret {A} (tag : string) (m : M A) (w w1 : World) (a : A) :
  m w = (Ret a, w1) -> logged tag m w = (Ret a, w1).
Proof. intros Hm. unfold logged, try_catch. now rewrite Hm. Qed.

Lemma logged_Throw {A} (tag : string) (m : M A) (w w1 : World) (e : Error) :
  m w = (Throw e, w1) ->
  logged tag m w =
    (Throw e, set_console (console w1 ++ [ConsoleError tag e])%list w1).
Proof. intros Hm. unfold logged, try_catch. now rewrite Hm. Qed.

Lemma try_catch_Ret {A} (m : M A) (h : Error -> M A) (w w1 : World) (a : A) :
  m w = (Ret a, w1) -> try_catch m h w = (Ret a, w1).
Proof. intros Hm. unfold try_catch. now rewrite Hm. Qed.

(** [logged] changes neither the kind of outcome nor the value. *)
Lemma logged_fst {A} (tag : string) (m : M A) (w : World) :
  fst (logged tag m w) = fst (m w).
Proof.
  unfold logged, try_catch. destruct (m w) as [[a | e | ] w1]; reflexivity.
Qed.

Lemma bind_ext {A B} (m : M A) (k k' : A -> M B) (w : World) :
  (forall a w1, k a w1 = k' a w1) -> bind m k w = bind m k' w.
Proof. intros H. unfold bind. destruct (m w) as [[a | e | ] w1]; auto. Qed.

Lemma bind_ext_l {A B} (m m' : M A) (k : A -> M B) (w : World) :
  m w = m' w -> bind m k w = bind m' k w.
Proof. intros H. unfold bind. now rewrite H. Qed.

Lemma try_catch_ext {A} (m m' : M A) (h : Error -> M A) (w : World) :
  m w = m' w -> try_catch m h w = try_catch m' h w.
Proof. intros H. unfold try_catch. now rewrite H. Qed.

Lemma bind_assoc {A B C} (m : M A) (k : A -> M B) (k' : B -> M C) (w : World) :
  bind (bind m k) k' w = bind m (fun a => bind (k a) k') w.
Proof.
  unfold bind. destruct (m w) as [[a | e | ] w1]; reflexivity.
Qed.

(** The three ways in which [bind m k] can go. *)
Lemma bind_cases {A B} (m : M A) (k : A -> M B) (w : World) :
  (exists a w1, m w = (Ret a, w1) /\ bind m k w = k a w1) \/
  (exists e w1, m w = (Throw e, w1) /\ bind m k w = (Throw e, w1)) \/
  (exists w1, m w = (Diverge, w1) /\ bind m k w = (Diverge, w1)).
Proof.
  unfold bind. destruct (m w) as [[a | e | ] w1]; eauto 6.
Qed.

(** Case analysis on the outermost [bind] that is applied to a world. *)
Tactic Notation "step_bind" ident(a) ident(w1) ident(E) :=
  match goal with
  | |- context [bind ?m ?k ?w] =>
      let e := fresh "e" in
      let R := fresh "R" in
      destruct (bind_cases m k w)
        as [(a & w1 & E & R) | [(e & w1 & E & R) | (w1 & E & R)]];
      rewrite R in *; clear R; cbv beta
  end.

Lemma external_quiet (w : World) : faults w = [] -> external w = (Ret tt, w).
Proof. intros H. unfold external. now rewrite H. Qed.

(** A statement that only reads. *)
Lemma query_quiet {A} (f : World -> A) (w : World) :
  faults w = [] -> (external ;; gets f) w = (Ret (f w), w).
Proof. intros H. unfold bind. now rewrite external_quiet. Qed.

(** A statement that only writes. *)
Lemma command_quiet (g : World -> World) (w : World) :
  faults w = [] -> (external ;; modify g) w = (Ret tt, g w).
Proof. intros H. unfold bind. now rewrite external_quiet. Qed.

(** ** Computations that come back *)

Section Halting.

Context {A B : Type}.

Lemma halts_ret (a : A) : halts (ret a).
Proof. intros w; cbn; discriminate. Qed.

Lemma halts_throw (e : Error) : halts (@throw A e).
Proof. intros w; cbn; discriminate. Qed.

Lemma halts_gets (f : World -> A) : halts (gets f).
Proof. intros w; cbn; discriminate. Qed.

Lemma halts_bind (m : M A) (k : A -> M B) :
  halts m -> (forall a, halts (k a)) -> halts (bind m k).
Proof.
  intros Hm Hk w. unfold bind. specialize (Hm w).
  destruct (m w) as [[a | e | ] w']; cbn in *;
    [apply Hk | discriminate | congruence].
Qed.

Lemma halts_try_catch (m : M A) (h : Error -> M A) :
  halts m -> (forall e, halts (h e)) -> halts (try_catch m h).
Proof.
  intros Hm Hh w. unfold try_catch. specialize (Hm w).
  destruct (m w) as [[a | e | ] w']; cbn in *;
    [discriminate | apply Hh | congruence].
Qed.

End Halting.

Lemma halts_modify (f : World -> World) : halts (modify f).
Proof. intros w; cbn; discriminate. Qed.

Lemma halts_external : halts external.
Proof.
  intros w; unfold external; destruct (faults w) as [|[|] fs]; cbn; discriminate.
Qed.

Lemma halts_throw_if (c : bool) (e : Error) : halts (throw_if c e).
Proof. destruct c; [apply halts_throw | apply halts_ret]. Qed.

Lemma halts_console_error (tag : string) (e : Error) : halts (console_error tag e).
Proof. apply halts_modify. Qed.

Lemma halts_console_warn (text : string) : halts (console_warn text).
Proof. apply halts_modify. Qed.

Lemma halts_logged {A} (tag : string) (m : M A) : halts m -> halts (logged tag m).
Proof.
  intros Hm. apply halts_try_catch; [exact Hm | intros e].
  apply halts_bind; [apply halts_console_error | intros _; apply halts_throw].
Qed.

Lemma halts_randomBytes (n : nat) : halts (randomBytes n).
Proof. intros w; cbn; discriminate. Qed.

Create HintDb halts.

#[export] Hint Resolve halts_ret halts_throw halts_gets halts_modify
  halts_external halts_throw_if halts_console_error halts_console_warn
  halts_randomBytes : halts.

(** Splits a goal [halts m] along the structure of [m]. *)
Ltac halts_step :=
  match goal with
  | |- halts (bind _ _) => apply halts_bind; [ | intros ? ]
  | |- halts (try_catch _ _) => apply halts_try_catch; [ | intros ? ]
  | |- halts (logged _ _) => apply halts_logged
  | |- halts (if ?c then _ else _) => destruct c
  | |- halts (match ?x with Some _ => _ | None => _ end) => destruct x
  | |- halts (let '(_, _) := ?x in _) => destruct x
  | |- halts _ => solve [auto with halts]
  end.

Ltac halts_tac := repeat halts_step.

Lemma halts_insert_audit_log (e : Event) : halts (Sql.insert_audit_log e).
Proof. unfold Sql.insert_audit_log; halts_tac. Qed.

Lemma halts_count_login_failed ip cutoff : halts (Sql.count_login_failed ip cutoff).
Proof. unfold Sql.count_login_failed; halts_tac. Qed.

Lemma halts_count_voucher_redeemed uid cutoff :
  halts (Sql.count_voucher_redeemed uid cutoff).
Proof. unfold Sql.count_voucher_redeemed; halts_tac. Qed.

#[export] Hint Resolve halts_insert_audit_log halts_count_login_failed
  halts_count_voucher_redeemed : halts.

(** ** The re-entry of [auditLog] stops *)

(** An event that is neither a failed login nor a redemption makes
    [checkSecurityAlerts] return without calling [auditLog] again. *)
Lemma checkSecurityAlerts_quiet (a : Event -> M unit) (ev : Event) (w : World) :
  String.eqb (action ev) "login_failed" = false ->
  String.eqb (action ev) "voucher_redeemed" = false ->
  checkSecurityAlerts_ a ev w = (Ret tt, w).
Proof.
  intros H1 H2. unfold checkSecurityAlerts_, try_catch, bind, now, gets.
  rewrite H1, H2. reflexivity.
Qed.

Lemma halts_checkSecurityAlerts_ (a : Event -> M unit) (ev : Event) :
  (forall ip n, halts (a (brute_force_alert ip n))) ->
  (forall uid n, halts (a (voucher_abuse_alert uid n))) ->
  halts (checkSecurityAlerts_ a ev).
Proof.
  intros Hb Hv. unfold checkSecurityAlerts_, now. halts_tac; auto.
Qed.

Lemma halts_auditLog_ (c : Event -> M unit) (ev : Event) :
  halts (c ev) -> halts (auditLog_ c ev).
Proof.
  intros Hc. unfold auditLog_, auditLogger_info. halts_tac.
Qed.

(** A [try] whose [catch] block does not rethrow ends with [Ret tt] as
    soon as its body does not diverge. *)
Lemma try_catch_returns (m : M unit) (h : Error -> M unit) (w : World) :
  fst (m w) <> Diverge ->
  (forall e w1, exists w', h e w1 = (Ret tt, w')) ->
  exists w', try_catch m h w = (Ret tt, w').
Proof.
  intros Hm Hh. unfold try_catch.
  destruct (m w) as [[[] | e | ] w1]; cbn in Hm; [eauto | apply Hh | congruence].
Qed.

Lemma console_error_returns (tag : string) (e : Error) (w : World) :
  exists w', console_error tag e w = (Ret tt, w').
Proof. unfold console_error, modify; eauto. Qed.

Lemma auditLog__returns (c : Event -> M unit) (ev : Event) :
  halts (c ev) -> forall w, exists w', auditLog_ c ev w = (Ret tt, w').
Proof.
  intros Hc w. unfold auditLog_. apply try_catch_returns.
  - revert w. change (halts (Sql.insert_audit_log (auditEntry ev) ;;
                             auditLogger_info (auditEntry ev) ;; c ev)).
    unfold auditLogger_info. halts_tac.
  - intros e w1. apply console_error_returns.
Qed.

Lemma halts_auditLog_fuel_1_alert (ev : Event) :
  String.eqb (action ev) "login_failed" = false ->
  String.eqb (action ev) "voucher_redeemed" = false ->
  halts (auditLog_fuel 1 ev).
Proof.
  intros H1 H2. cbn [auditLog_fuel]. apply halts_auditLog_. intros w.
  rewrite checkSecurityAlerts_quiet by assumption. cbn; discriminate.
Qed.

Lemma halts_checkSecurityAlerts (ev : Event) : halts (checkSecurityAlerts ev).
Proof.
  apply halts_checkSecurityAlerts_; intros;
    apply halts_auditLog_fuel_1_alert; reflexivity.
Qed.

Lemma auditLog_returns (ev : Event) (w : World) :
  exists w', auditLog ev w = (Ret tt, w').
Proof. apply auditLog__returns, halts_checkSecurityAlerts. Qed.

Lemma halts_auditLog (ev : Event) : halts (auditLog ev).
Proof.
  intros w. destruct (auditLog_returns ev w) as [w' ->]. cbn; discriminate.
Qed.

#[export] Hint Resolve halts_auditLog : halts.

(** ** More fuel changes nothing *)

Lemma checkSecurityAlerts__ext (a a' : Event -> M unit) (ev : Event) (w : World) :
  (forall ip n w1, a (brute_force_alert ip n) w1 = a' (brute_force_alert ip n) w1) ->
  (forall uid n w1, a (voucher_abuse_alert uid n) w1 = a' (voucher_abuse_alert uid n) w1) ->
  checkSecurityAlerts_ a ev w = checkSecurityAlerts_ a' ev w.
Proof.
  intros Hb Hv. unfold checkSecurityAlerts_. apply try_catch_ext.
  apply bind_ext; intros t w1.
  transitivity
    (bind (if String.eqb (action ev) "login_failed" && Js.truthy_str (ip_address ev)
           then
             failedAttempts <-
               Sql.count_login_failed (ip_address ev)
                 (Clock.toISOString (t - 60 * 60 * 1000)) ;;
             if 10 <=? failedAttempts then
               a' (brute_force_alert (ip_address ev) failedAttempts) ;;
               console_warn
                 ("SECURITY ALERT: Multiple failed login attempts from "
                    ++ match ip_address ev with
                       | Some s => s | None => EmptyString end)
             else ret tt
           else ret tt)
          (fun _ =>
             if String.eqb (action ev) "voucher_redeemed" && Js.truthy_num (user_id ev)
             then
               off <- gets tz_offset ;;
               recentRedemptions <-
                 Sql.count_voucher_redeemed (user_id ev)
                   (Clock.toISOString (todayStart off t)) ;;
               if 5 <=? recentRedemptions then
                 a (voucher_abuse_alert (user_id ev) recentRedemptions)
               else ret tt
             else ret tt) w1).
  - apply bind_ext_l. destruct (_ && _); [ | reflexivity ].
    apply bind_ext; intros n w2. destruct (10 <=? n); [ | reflexivity ].
    apply bind_ext_l, Hb.
  - apply bind_ext; intros _ w2. destruct (_ && _); [ | reflexivity ].
    apply bind_ext; intros off w3. apply bind_ext; intros n w4.
    destruct (5 <=? n); [apply Hv | reflexivity].
Qed.

Lemma auditLog__ext (c c' : Event -> M unit) (ev : Event) (w : World) :
  (forall w1, c ev w1 = c' ev w1) -> auditLog_ c ev w = auditLog_ c' ev w.
Proof.
  intros H. unfold auditLog_. apply try_catch_ext.
  apply bind_ext; intros _ w1. apply bind_ext; intros _ w2. apply H.
Qed.

Lemma auditLog_fuel_alert (k : nat) (ev : Event) (w : World) :
  String.eqb (action ev) "login_failed" = false ->
  String.eqb (action ev) "voucher_redeemed" = false ->
  auditLog_fuel (S k) ev w = auditLog_fuel 1 ev w.
Proof.
  intros H1 H2. cbn [auditLog_fuel]. apply auditLog__ext; intros w1.
  now rewrite !checkSecurityAlerts_quiet.
Qed.

(** Two levels of re-entry are all that a call of [auditLog] uses. *)
Lemma auditLog_fuel_enough (k : nat) (ev : Event) (w : World) :
  auditLog_fuel (2 + k) ev w = auditLog ev w.
Proof.
  unfold auditLog. cbn [Nat.add auditLog_fuel].
  apply auditLog__ext; intros w1.
  apply checkSecurityAlerts__ext; intros; apply auditLog_fuel_alert; reflexivity.
Qed.

(** ** Invariants *)

Lemma inv_ret (P : World -> Prop) {A} (a : A) : inv P (ret a).
Proof. intros w H; exact H. Qed.

Lemma inv_throw (P : World -> Prop) {A} (e : Error) : inv P (@throw A e).
Proof. intros w H; exact H. Qed.

Lemma inv_diverge (P : World -> Prop) {A} : inv P (@diverge A).
Proof. intros w H; exact H. Qed.

Lemma inv_gets (P : World -> Prop) {A} (f : World -> A) : inv P (gets f).
Proof. intros w H; exact H. Qed.

Lemma inv_throw_if (P : World -> Prop) (c : bool) (e : Error) :
  inv P (throw_if c e).
Proof. destruct c; intros w H; exact H. Qed.

Lemma inv_bind (P : World -> Prop) {A B} (m : M A) (k : A -> M B) :
  inv P m -> (forall a, inv P (k a)) -> inv P (bind m k).
Proof.
  intros Hm Hk w H. unfold bind. specialize (Hm w H).
  destruct (m w) as [[a | e | ] w']; cbn in *;
    [now apply Hk | exact Hm | exact Hm].
Qed.

Lemma inv_try_catch (P : World -> Prop) {A} (m : M A) (h : Error -> M A) :
  inv P m -> (forall e, inv P (h e)) -> inv P (try_catch m h).
Proof.
  intros Hm Hh w H. unfold try_catch. specialize (Hm w H).
  destruct (m w) as [[a | e | ] w']; cbn in *;
    [exact Hm | now apply Hh | exact Hm].
Qed.

Lemma inv_modify (P : World -> Prop) (g : World -> World) :
  (forall w, P w -> P (g w)) -> inv P (modify g).
Proof. intros Hg w H; cbn. now apply Hg. Qed.

Lemma inv_console_error (P : World -> Prop) (tag : string) (e : Error) :
  (forall ls w, P w -> P (set_console ls w)) -> inv P (console_error tag e).
Proof. intros Hc. apply inv_modify. intros w; apply Hc. Qed.

Lemma inv_console_warn (P : World -> Prop) (text : string) :
  (forall ls w, P w -> P (set_console ls w)) -> inv P (console_warn text).
Proof. intros Hc. apply inv_modify. intros w; apply Hc. Qed.

Lemma inv_logged (P : World -> Prop) {A} (tag : string) (m : M A) :
  (forall ls w, P w -> P (set_console ls w)) -> inv P m -> inv P (logged tag m).
Proof.
  intros Hc Hm. apply inv_try_catch; [exact Hm | intros e].
  apply inv_bind; [now apply inv_console_error | intros _; apply inv_throw].
Qed.

Lemma inv_exec (P : World -> Prop) {A} (m : M A) (w : World) :
  inv P m -> P w -> P (exec m w).
Proof. intros Hm H. now apply Hm. Qed.

Create HintDb inv.

#[export] Hint Resolve inv_ret inv_throw inv_diverge inv_gets inv_throw_if
  inv_console_error inv_console_warn : inv.

(** Splits a goal [inv P m] along the structure of [m]. *)
Ltac inv_step :=
  match goal with
  | |- inv _ (bind _ _) => apply inv_bind; [ | intros ? ]
  | |- inv _ (try_catch _ _) => apply inv_try_catch; [ | intros ? ]
  | |- inv _ (logged _ _) => apply inv_logged; [solve [auto] | ]
  | |- inv _ (if ?c then _ else _) => destruct c
  | |- inv _ (match ?x with Some _ => _ | None => _ end) => destruct x
  | |- inv _ (let '(_, _) := ?x in _) => destruct x
  | |- inv _ _ => solve [auto with inv]
  end.

Ltac inv_tac := repeat inv_step.

Section Invariants.

Variable P : World -> Prop.

(** What [P] has to withstand: an external call, a line on the
    console, a row in the audit table, a draw of random bytes. *)
Hypothesis P_external : inv P external.
Hypothesis P_console : forall ls w, P w -> P (set_console ls w).
Hypothesis P_audit :
  forall rows n w, P w -> P (set_next_audit_id n (set_audit_log rows w)).
Hypothesis P_drawn : forall n w, P w -> P (set_drawn n w).

(** ... and the statements that write. *)
Hypothesis P_insert :
  forall v w, P w ->
    existsb (with_code (v_code v)) (vouchers w) = false ->
    P (set_next_voucher_id (next_voucher_id w + 1)
         (set_vouchers
            (vouchers w ++
               [mkVoucher (next_voucher_id w) (v_user_id v) (v_site_id v)
                  (v_code v) (v_type v) (v_title v) (v_description v)
                  (v_value v) (v_status v) (v_expires_at v) None None])%list
            w)).
Hypothesis P_redeem :
  forall by_ id w, P w ->
    P (set_vouchers
         (map (fun v => if with_id id v then mark_redeemed (clock w) by_ v else v)
              (vouchers w)) w).
Hypothesis P_users : forall us w, P w -> P (set_users us w).
Hypothesis P_staff : forall ss w, P w -> P (set_staff ss w).

#[local] Hint Resolve P_external P_console P_audit P_drawn P_users P_staff : inv.

Lemma inv_query {A} (g : World -> A) : inv P (external ;; gets g).
Proof. inv_tac. Qed.

Lemma inv_insert_audit_log (e : Event) : inv P (Sql.insert_audit_log e).
Proof.
  unfold Sql.insert_audit_log. inv_tac.
  apply inv_modify; intros w; apply P_audit.
Qed.

Lemma inv_checkSecurityAlerts_ (a : Event -> M unit) (ev : Event) :
  (forall e, inv P (a e)) -> inv P (checkSecurityAlerts_ a ev).
Proof.
  intros Ha. unfold checkSecurityAlerts_, now, Sql.count_login_failed,
    Sql.count_voucher_redeemed.
  inv_tac.
Qed.

Lemma inv_auditLog_fuel (n : nat) (ev : Event) : inv P (auditLog_fuel n ev).
Proof.
  revert ev; induction n as [|n IH]; intros ev; cbn [auditLog_fuel].
  - apply inv_diverge.
  - unfold auditLog_, auditLogger_info.
    pose proof inv_insert_audit_log.
    pose proof (fun e => inv_checkSecurityAlerts_ _ e IH).
    inv_tac.
Qed.

Lemma inv_auditLog (ev : Event) : inv P (auditLog ev).
Proof. apply inv_auditLog_fuel. Qed.

#[local] Hint Resolve inv_auditLog inv_query : inv.

Lemma inv_generateVoucherCode type len : inv P (generateVoucherCode type len).
Proof.
  unfold generateVoucherCode. inv_tac. intros w H; cbn. now apply P_drawn.
Qed.

Lemma inv_insert_voucher v : inv P (insert_voucher v).
Proof.
  unfold insert_voucher. inv_tac.
  intros w H. destruct (existsb _ _) eqn:E; cbn; [exact H | now apply P_insert].
Qed.

#[local] Hint Resolve inv_generateVoucherCode inv_insert_voucher : inv.

Lemma inv_createVoucher vd : inv P (createVoucher vd).
Proof.
  unfold createVoucher, createVoucher_, generateQRCode, generateBarcode, now.
  inv_tac.
Qed.

Lemma inv_createVoucher_untitled vd : inv P (createVoucher_untitled vd).
Proof.
  unfold createVoucher_untitled, createVoucher_, insert_voucher_without_title,
    generateQRCode, generateBarcode, now.
  inv_tac.
Qed.

#[local] Hint Resolve inv_createVoucher inv_createVoucher_untitled : inv.

Lemma inv_select_voucher_by_code code : inv P (select_voucher_by_code code).
Proof. unfold select_voucher_by_code. inv_tac. Qed.

Lemma inv_select_user id : inv P (select_user id).
Proof. unfold select_user. inv_tac. Qed.

Lemma inv_select_staff id : inv P (select_staff id).
Proof. unfold select_staff. inv_tac. Qed.

Lemma inv_update_voucher_redeemed by_ id : inv P (update_voucher_redeemed by_ id).
Proof.
  unfold update_voucher_redeemed. inv_tac.
  apply inv_modify; intros w; apply P_redeem.
Qed.

Lemma inv_update_user_loyalty n t id : inv P (update_user_loyalty n t id).
Proof.
  unfold update_user_loyalty. inv_tac. apply inv_modify; intros w; apply P_users.
Qed.

#[local] Hint Resolve inv_select_voucher_by_code inv_select_user
  inv_select_staff inv_update_voucher_redeemed inv_update_user_loyalty : inv.

Lemma inv_createLoyaltyReward uid tier visits :
  inv P (createLoyaltyReward uid tier visits).
Proof.
  unfold createLoyaltyReward.
  destruct (rewards _) as [[[title description] value]|]; inv_tac.
Qed.

#[local] Hint Resolve inv_createLoyaltyReward : inv.

Lemma inv_updateUserLoyalty uid act : inv P (updateUserLoyalty uid act).
Proof. unfold updateUserLoyalty. inv_tac. Qed.

Lemma inv_createPremiumWiFiVoucher sid amount :
  inv P (createPremiumWiFiVoucher sid amount).
Proof. unfold createPremiumWiFiVoucher. inv_tac. Qed.

#[local] Hint Resolve inv_updateUserLoyalty inv_createPremiumWiFiVoucher : inv.

Lemma inv_redeem_validate code : inv P (redeem_validate code).
Proof. unfold redeem_validate, now. inv_tac. Qed.

Lemma inv_redeem_settle s view : inv P (redeem_settle s view).
Proof. unfold redeem_settle, now. inv_tac. Qed.

Lemma inv_redeemVoucher code s : inv P (redeemVoucher code s).
Proof. unfold redeemVoucher, now. inv_tac. Qed.

#[local] Hint Resolve inv_redeemVoucher : inv.

Lemma inv_post_redeem s code : inv P (post_redeem s code).
Proof. unfold post_redeem, redeem_error_response, failure. inv_tac. Qed.

Lemma inv_post_premium_wifi s amount receipt :
  inv P (post_premium_wifi s amount receipt).
Proof. unfold post_premium_wifi, failure. inv_tac. Qed.

(** The functions that write [staff]. *)
Lemma inv_createStaffWiFiVoucher sid : inv P (createStaffWiFiVoucher sid).
Proof.
  unfold createStaffWiFiVoucher, now, update_staff_daily_used. inv_tac.
  apply inv_modify; intros w; apply P_staff.
Qed.

Lemma inv_post_staff_wifi_override s email reason :
  inv P (post_staff_wifi_override s email reason).
Proof.
  pose proof inv_createStaffWiFiVoucher.
  unfold post_staff_wifi_override, failure, select_staff_by_email,
    reset_staff_daily_used.
  inv_tac. apply inv_modify; intros w; apply P_staff.
Qed.

(** The status route, whose [UPDATE] writes nothing. *)
Lemma inv_patch_voucher_status s id st reason :
  inv P (patch_voucher_status s id st reason).
Proof.
  unfold patch_voucher_status, failure, select_voucher_by_id,
    update_voucher_status.
  inv_tac.
Qed.

(** The history level, given the three functions above. *)
Hypothesis P_staff_wifi : forall sid, inv P (createStaffWiFiVoucher sid).
Hypothesis P_patch :
  forall s id st reason, inv P (patch_voucher_status s id st reason).
Hypothesis P_clock : forall t w, P w -> P (set_clock t w).
Hypothesis P_faults : forall fs w, P w -> P (set_faults fs w).

Lemma inv_post_staff_wifi s : inv P (post_staff_wifi s).
Proof. unfold post_staff_wifi, failure. inv_tac. Qed.

Lemma inv_serve_ordinary (r : Request) (w : World) :
  match r with PostStaffWifiOverride _ _ _ => False | _ => True end ->
  P w -> P (serve r w).
Proof.
  destruct r; cbn [serve]; intros Hr H; try contradiction; apply inv_exec;
    auto using inv_post_redeem, inv_post_premium_wifi, inv_post_staff_wifi
      with inv.
Qed.

End Invariants.

(** ** Frames: what a function leaves alone *)

Lemma inv_external_of_faults (P : World -> Prop) :
  (forall fs w, P w -> P (set_faults fs w)) -> inv P external.
Proof.
  intros Hf w H. unfold external. destruct (faults w) as [|[|] fs]; cbn; auto.
Qed.

Lemma keeps_of_inv {X A} (f : World -> X) (m : M A) :
  (forall x, inv (fun w => f w = x) m) -> keeps f m.
Proof. intros H w. now apply (H (f w) w). Qed.

Lemma calm_external : calm external.
Proof. intros w H. now rewrite external_quiet. Qed.

(** Discharges the side conditions of the lemmas of [Invariants] for a
    property that the write in question cannot affect. *)
Ltac unaffected :=
  first [ exact calm_external
        | apply inv_external_of_faults; intros; assumption
        | intros; assumption ].

Lemma calm_auditLog (ev : Event) : calm (auditLog ev).
Proof. apply inv_auditLog; unaffected. Qed.

Lemma calm_createVoucher (vd : VoucherData) : calm (createVoucher vd).
Proof. apply inv_createVoucher; unaffected. Qed.

Lemma calm_updateUserLoyalty (uid : Z) (act : string) :
  calm (updateUserLoyalty uid act).
Proof. apply inv_updateUserLoyalty; unaffected. Qed.

Lemma calm_redeemVoucher (code : string) (s : Staff) : calm (redeemVoucher code s).
Proof. apply inv_redeemVoucher; unaffected. Qed.

Lemma calm_createStaffWiFiVoucher (sid : Z) : calm (createStaffWiFiVoucher sid).
Proof. apply inv_createStaffWiFiVoucher; unaffected. Qed.

(** What a call of [auditLog] does to the rest of the world. *)
Lemma auditLog_run (ev : Event) (w : World) :
  exists w', auditLog ev w = (Ret tt, w') /\
             audit_only w w' /\
             (faults w = [] -> faults w' = []).
Proof.
  destruct (auditLog_returns ev w) as [w' Hw']. exists w'.
  split; [exact Hw' | split].
  - unfold audit_only.
    repeat split;
      match goal with
      | |- ?f w' = ?f w =>
          change w' with (snd (Ret tt, w')); rewrite <- Hw';
          apply (keeps_of_inv f); intros x; apply inv_auditLog; unaffected
      end.
  - intros H. pose proof (calm_auditLog ev w H) as C. now rewrite Hw' in C.
Qed.

Lemma keeps_staff_createVoucher (vd : VoucherData) : keeps staff (createVoucher vd).
Proof. apply keeps_of_inv; intros x; apply inv_createVoucher; unaffected. Qed.

Lemma keeps_clock_createVoucher (vd : VoucherData) : keeps clock (createVoucher vd).
Proof. apply keeps_of_inv; intros x; apply inv_createVoucher; unaffected. Qed.

Lemma keeps_users_createVoucher (vd : VoucherData) : keeps users (createVoucher vd).
Proof. apply keeps_of_inv; intros x; apply inv_createVoucher; unaffected. Qed.

(** ** [createVoucher] *)

Lemma generateVoucherCode_run (type : string) (w : World) :
  generateVoucherCode type 12 w =
    (Ret (next_code type w), set_drawn (drawn w + 6) w).
Proof. reflexivity. Qed.

Lemma encoders_quiet (w : World) :
  faults w = [] -> logged "QR code generation failed:" external w = (Ret tt, w) /\
                   logged "Barcode generation failed:" external w = (Ret tt, w).
Proof. intros H; split; apply logged_Ret, external_quiet, H. Qed.

(** With a working store and a code that no voucher carries,
    [createVoucher] inserts the row and returns it. *)
Lemma createVoucher_quiet (vd : VoucherData) (w : World) :
  faults w = [] ->
  fresh_code (next_code (vd_type vd) w) w ->
  exists w', createVoucher vd w = (Ret (new_voucher vd w), w') /\
             created (new_voucher vd w) w w' /\
             faults w' = [].
Proof.
  intros Hq Hfresh. unfold createVoucher, createVoucher_.
  set (w1 := set_drawn (drawn w + 6) w).
  assert (Hq1 : faults w1 = []) by exact Hq.
  set (w2 := set_next_voucher_id (next_voucher_id w + 1)
               (set_vouchers (vouchers w ++ [new_voucher vd w])%list w1)).
  destruct (auditLog_run
              (voucher_created_event vd (new_voucher vd w)) w2)
    as (w3 & Ha & Hframe & Hq3).
  exists w3. split; [ | split ].
  - apply logged_Ret.
    eapply bind_Ret; [apply generateVoucherCode_run | ].
    eapply bind_Ret; [reflexivity | ].
    unfold generateQRCode, generateBarcode.
    eapply bind_Ret; [apply (encoders_quiet w1 Hq1) | ].
    eapply bind_Ret; [apply (encoders_quiet w1 Hq1) | ].
    eapply bind_Ret with (a := next_voucher_id w) (w1 := w2).
    + unfold insert_voucher. eapply bind_Ret; [apply external_quiet, Hq1 | ].
      cbn. unfold fresh_code in Hfresh. rewrite Hfresh. reflexivity.
    + eapply bind_Ret; [exact Ha | reflexivity].
  - destruct Hframe as (F1 & F2 & F3 & F4 & F5 & F6 & F7 & F8).
    unfold created. rewrite F1, F2, F3, F4, F5, F6, F7, F8. cbn. tauto.
  - apply Hq3. exact Hq.
Qed.

(** With a working store and a code that some voucher already carries,
    [createVoucher] fails with the constraint error of the store and the
    tables are as before. *)
Lemma createVoucher_collision (vd : VoucherData) (w : World) :
  faults w = [] ->
  existsb (with_code (next_code (vd_type vd) w)) (vouchers w) = true ->
  exists w', createVoucher vd w =
               (Throw (SqliteConstraint unique_code_message), w') /\
             vouchers w' = vouchers w /\
             staff w' = staff w /\
             users w' = users w /\
             drawn w' = (drawn w + 6)%nat /\
             faults w' = [].
Proof.
  intros Hq Hdup. unfold createVoucher, createVoucher_.
  set (w1 := set_drawn (drawn w + 6) w).
  assert (Hq1 : faults w1 = []) by exact Hq.
  eexists. split.
  - apply logged_Throw.
    eapply bind_Ret; [apply generateVoucherCode_run | ].
    eapply bind_Ret; [reflexivity | ].
    unfold generateQRCode, generateBarcode.
    eapply bind_Ret; [apply (encoders_quiet w1 Hq1) | ].
    eapply bind_Ret; [apply (encoders_quiet w1 Hq1) | ].
    apply bind_Throw with (w1 := w1).
    unfold insert_voucher. eapply bind_Ret; [apply external_quiet, Hq1 | ].
    cbn. rewrite Hdup. reflexivity.
  - cbn. auto.
Qed.

Lemma logged_keeps {X A} (f : World -> X) (tag : string) (m : M A) (w : World) :
  (forall ls w1, f (set_console ls w1) = f w1) ->
  f (snd (logged tag m w)) = f (snd (m w)).
Proof.
  intros Hc. unfold logged, try_catch.
  destruct (m w) as [[a | e | ] w1]; cbn; auto.
Qed.

(** Every call of [createVoucher] draws one code, whatever happens next. *)
Lemma createVoucher_draws (vd : VoucherData) (w : World) :
  drawn (snd (createVoucher vd w)) = (drawn w + 6)%nat.
Proof.
  unfold createVoucher, createVoucher_. rewrite logged_keeps by reflexivity.
  unfold bind at 1. rewrite generateVoucherCode_run.
  set (w1 := set_drawn (drawn w + 6) w).
  change (drawn w + 6)%nat with (drawn w1).
  match goal with
  | |- drawn (snd (?k w1)) = _ => generalize w1; change (keeps drawn k)
  end.
  apply keeps_of_inv; intros x.
  assert (inv (fun w => drawn w = x) external) by unaffected.
  assert (forall e, inv (fun w => drawn w = x) (auditLog e))
    by (intros e; apply inv_auditLog; unaffected).
  assert (forall v, inv (fun w => drawn w = x) (insert_voucher v))
    by (intros v; apply inv_insert_voucher; unaffected).
  unfold generateQRCode, generateBarcode, now. inv_tac.
Qed.

(* ===================================================================== *)
(** ** Audit logging is isolated from its caller *)

Lemma accounts_ret {A} (a : A) : accounts (ret a).
Proof. intros w. exists [], []. cbn. rewrite app_nil_r. auto. Qed.

Lemma accounts_diverge {A} : accounts (@diverge A).
Proof. intros w. exists [], []. cbn. rewrite app_nil_r. auto. Qed.

Lemma accounts_gets {A} (f : World -> A) : accounts (gets f).
Proof. intros w. exists [], []. cbn. rewrite app_nil_r. auto. Qed.

Lemma accounts_external : accounts external.
Proof.
  intros w. unfold external. destruct (faults w) as [|[|] fs] eqn:E.
  - exists [], []. cbn. rewrite E, app_nil_r. auto.
  - exists [true], []. cbn. rewrite app_nil_r. auto.
  - exists [false], []. cbn. rewrite app_nil_r. auto.
Qed.

(** A write to the tables. *)
Lemma accounts_modify (f : World -> World) :
  (forall w, faults (f w) = faults w) ->
  (forall w, console (f w) = console w) ->
  accounts (modify f).
Proof.
  intros Hf Hc w. exists [], []. cbn. rewrite Hf, Hc, app_nil_r. auto.
Qed.

Lemma accounts_console_warn (text : string) : accounts (console_warn text).
Proof.
  intros w. exists [], [ConsoleWarn text]. cbn.
  repeat split; auto. repeat constructor.
Qed.

Lemma fallback_lines_app (ls ls' : list ConsoleLine) :
  fallback_lines (ls ++ ls') = (fallback_lines ls + fallback_lines ls')%nat.
Proof. unfold fallback_lines. now rewrite filter_app, length_app. Qed.

Lemma failed_app (us us' : list bool) :
  failed (us ++ us') = (failed us + failed us')%nat.
Proof. apply count_occ_app. Qed.

Lemma accounts_bind {A B} (m : M A) (k : A -> M B) :
  accounts m -> (forall a, accounts (k a)) -> accounts (bind m k).
Proof.
  intros Hm Hk w. unfold bind.
  destruct (Hm w) as (u1 & l1 & F1 & C1 & A1 & R1).
  destruct (m w) as [[a | e | ] w1]; cbn [fst snd] in *.
  - destruct (Hk a w1) as (u2 & l2 & F2 & C2 & A2 & R2).
    exists (u1 ++ u2)%list, (l1 ++ l2)%list.
    rewrite F1, F2, C2, C1, !app_assoc.
    split; [reflexivity | split; [reflexivity | split]].
    + apply Forall_app. now split.
    + rewrite fallback_lines_app, failed_app.
      destruct (fst (k a w1)); [lia | | exact I].
      destruct R2 as [-> R2]. split; [reflexivity | lia].
  - exists u1, l1. auto.
  - exists u1, l1. auto.
Qed.

(** The [catch] blocks of the two functions: the error goes to the
    console and is not thrown again. *)
Lemma accounts_catch (m : M unit) (tag : string) :
  is_fallback_line (ConsoleError tag ExternalFailure) = true ->
  accounts m ->
  accounts (try_catch m (fun error => console_error tag error)).
Proof.
  intros Ht Hm w. unfold try_catch.
  destruct (Hm w) as (u1 & l1 & F1 & C1 & A1 & R1).
  destruct (m w) as [[a | e | ] w1]; cbn [fst snd] in *.
  - exists u1, l1. auto.
  - destruct R1 as [-> R1].
    exists u1, (l1 ++ [ConsoleError tag ExternalFailure])%list.
    cbn. rewrite C1, app_assoc.
    split; [exact F1 | split; [reflexivity | split]].
    + apply Forall_app. split; [exact A1 | ]. repeat constructor. exact Ht.
    + rewrite fallback_lines_app. unfold fallback_lines at 2. cbn [filter].
      rewrite Ht. cbn. lia.
  - exists u1, l1. auto.
Qed.

Create HintDb accounts.

#[export] Hint Resolve accounts_ret accounts_diverge accounts_gets
  accounts_external accounts_console_warn : accounts.

(** Splits a goal [accounts m] along the structure of [m]. *)
Ltac accounts_step :=
  match goal with
  | |- accounts (bind _ _) => apply accounts_bind; [ | intros ? ]
  | |- accounts (try_catch _ _) => apply accounts_catch; [reflexivity | ]
  | |- accounts (if ?c then _ else _) => destruct c
  | |- accounts _ => solve [auto with accounts]
  end.

Ltac accounts_tac := repeat accounts_step.

Lemma accounts_insert_audit_log (e : Event) :
  accounts (Sql.insert_audit_log e).
Proof.
  unfold Sql.insert_audit_log. accounts_tac.
  apply accounts_modify; reflexivity.
Qed.

Lemma accounts_checkSecurityAlerts_ (a : Event -> M unit) (ev : Event) :
  (forall e, accounts (a e)) -> accounts (checkSecurityAlerts_ a ev).
Proof.
  intros Ha. unfold checkSecurityAlerts_, now, Sql.count_login_failed,
    Sql.count_voucher_redeemed.
  accounts_tac.
Qed.

Lemma accounts_auditLog_fuel (n : nat) (ev : Event) :
  accounts (auditLog_fuel n ev).
Proof.
  revert ev; induction n as [|n IH]; intros ev; cbn [auditLog_fuel].
  - apply accounts_diverge.
  - unfold auditLog_, auditLogger_info.
    pose proof accounts_insert_audit_log.
    pose proof (fun e => accounts_checkSecurityAlerts_ _ e IH).
    accounts_tac.
Qed.

(** C9. [auditLog] never raises an error to its caller, and every
    failure goes to the fallback channel.  For every event and every
    world - every plan of failures of the store, of the file logger and
    of the anomaly queries - the call returns normally; the external
    calls that it made are the first entries of the plan, and the console
    gains exactly one [console.error] line, tagged "Audit logging
    failed:" or "Security alert check failed:" and carrying the failure,
    for every one of them that failed (besides the warning of the
    brute-force rule, nothing else is written).  In particular: when the
    [INSERT] fails, the table is left alone and the line is tagged "Audit
    logging failed:"; when the file logger fails, the row is in the table
    and the line is tagged the same; when the query of the failed-login
    rule or of the redemption rule fails, the line is tagged "Security
    alert check failed:". *)
Theorem auditLog_never_raises :
  (forall ev w,
     exists w' used lines,
       auditLog ev w = (Ret tt, w') /\
       faults w = (used ++ faults w')%list /\
       console w' = (console w ++ lines)%list /\
       Forall audit_line lines /\
       fallback_lines lines = failed used) /\
  (forall ev w fs,
     let r := auditLog ev (set_faults (true :: fs) w) in
     fst r = Ret tt /\
     audit_log (snd r) = audit_log w /\
     console (snd r) =
       (console w ++ [ConsoleError "Audit logging failed:" ExternalFailure])%list) /\
  (forall ev w fs,
     let r := auditLog ev (set_faults (false :: true :: fs) w) in
     fst r = Ret tt /\
     audit_log (snd r) = audit_log (logged_event (auditEntry ev) w) /\
     console (snd r) =
       (console w ++ [ConsoleError "Audit logging failed:" ExternalFailure])%list) /\
  (forall ut uid res det c ip ua w fs,
     let ev := mkEvent ut uid "login_failed" res det (Some (String c ip)) ua in
     let r := auditLog ev (set_faults (false :: false :: true :: fs) w) in
     fst r = Ret tt /\
     console (snd r) =
       (console w ++
          [ConsoleError "Security alert check failed:" ExternalFailure])%list) /\
  (forall ut uid res det ip ua w fs,
     uid <> 0 ->
     let ev := mkEvent ut (Some uid) "voucher_redeemed" res det ip ua in
     let r := auditLog ev (set_faults (false :: false :: true :: fs) w) in
     fst r = Ret tt /\
     console (snd r) =
       (console w ++
          [ConsoleError "Security alert check failed:" ExternalFailure])%list).
Proof.
  split; [ | split; [ | split; [ | split ] ] ].
  - intros ev w. destruct (auditLog_returns ev w) as [w' E].
    destruct (accounts_auditLog_fuel 2 ev w) as (used & lines & F & C & A & R).
    change (auditLog_fuel 2 ev) with (auditLog ev) in *.
    rewrite E in *. cbn [fst snd] in *.
    exists w', used, lines. auto.
  - intros ev w fs. cbn. auto.
  - intros ev w fs. cbn. auto.
  - intros ut uid res det c ip ua w fs. cbn. auto.
  - intros ut uid res det ip ua w fs Hu.
    destruct uid as [|p|p]; [now contradiction Hu | | ]; cbn; auto.
Qed.

Lemma auditLog_never_raises_witness :
  let ev := mkEvent "staff" (Some 1) "voucher_redeemed" (Some "vouchers") None
                    None None in
  let r := auditLog ev (set_faults [false; false; true] sample_world) in
  fst r = Ret tt /\
  console (snd r)
    = [ConsoleError "Security alert check failed:" ExternalFailure].
Proof.
  exact (proj2 (proj2 (proj2 (proj2 auditLog_never_raises))) "staff" 1
           (Some "vouchers") None None None sample_world []
           ltac:(discriminate)).
Defined.

(* ===================================================================== *)
(** ** A colliding code *)

Lemma existsb_with_code_false (code : string) (l : list Voucher) :
  existsb (with_code code) l = false -> ~ In code (map v_code l).
Proof.
  induction l as [|v l IH]; cbn; [tauto | ].
  unfold with_code at 1. intros H [E | Hin].
  - subst code. now rewrite String.eqb_refl in H.
  - apply orb_false_iff in H. now apply IH.
Qed.

Lemma NoDup_snoc {A} (l : list A) (a : A) :
  NoDup l -> ~ In a l -> NoDup (l ++ [a]).
Proof.
  intros Hl Ha. apply NoDup_app; [exact Hl | repeat constructor; auto | ].
  intros x Hx [E | []]. now subst.
Qed.

(** The rows that are in the table stay in it, and codes stay distinct,
    whatever [createVoucher] does. *)
Lemma createVoucher_keeps_rows (vd : VoucherData) (w : World) :
  (forall v, In v (vouchers w) -> In v (vouchers (snd (createVoucher vd w)))) /\
  (NoDup (map v_code (vouchers w)) ->
   NoDup (map v_code (vouchers (snd (createVoucher vd w))))).
Proof.
  split.
  - intros v Hv.
    apply (inv_createVoucher (fun w => In v (vouchers w))); try unaffected.
    intros v0 w0 H _. cbn. apply in_or_app; now left.
  - apply (inv_createVoucher (fun w => NoDup (map v_code (vouchers w))));
      try unaffected.
    intros v0 w0 H Hfresh. cbn. rewrite map_app. cbn.
    apply NoDup_snoc; [exact H | now apply existsb_with_code_false].
Qed.

Lemma select_staff_quiet (sid : Z) (w : World) :
  faults w = [] ->
  select_staff sid w = (Ret (find (fun s => s_id s =? sid) (staff w)), w).
Proof. intros H. unfold select_staff. now rewrite query_quiet. Qed.

Lemma select_user_quiet (uid : Z) (w : World) :
  faults w = [] -> select_user uid w = (Ret (customer uid w), w).
Proof. intros H. unfold select_user. now rewrite query_quiet. Qed.


(** ** [createStaffWiFiVoucher] with a working store *)

Lemma createStaffWiFiVoucher_gate (sid : Z) (s : Staff) (w : World) :
  faults w = [] ->
  find (fun s => s_id s =? sid) (staff w) = Some s ->
  daily_gate s w = true ->
  createStaffWiFiVoucher sid w =
    (Throw (JsError "Daily staff voucher already used"),
     set_console
       (console w ++
          [ConsoleError "Create staff WiFi voucher failed:"
             (JsError "Daily staff voucher already used")])%list w).
Proof.
  intros Hq Hs Hg. unfold createStaffWiFiVoucher. apply logged_Throw.
  eapply bind_Ret; [apply select_staff_quiet, Hq | rewrite Hs].
  eapply bind_Ret; [reflexivity | ].
  apply bind_Throw. unfold daily_gate in Hg. now rewrite Hg.
Qed.

Lemma createStaffWiFiVoucher_quiet (sid : Z) (s : Staff) (w : World) :
  faults w = [] ->
  find (fun s => s_id s =? sid) (staff w) = Some s ->
  daily_gate s w = false ->
  fresh_code (next_code "staff_wifi" w) w ->
  exists w',
    createStaffWiFiVoucher sid w =
      (Ret (new_voucher (staff_wifi_data s sid) w), w') /\
    vouchers w' = (vouchers w ++ [new_voucher (staff_wifi_data s sid) w])%list /\
    staff w' =
      map (fun s => if s_id s =? sid
                    then with_daily true (Some (Clock.isoDate (clock w))) s
                    else s) (staff w) /\
    clock w' = clock w /\
    faults w' = [].
Proof.
  intros Hq Hs Hg Hfresh.
  destruct (createVoucher_quiet (staff_wifi_data s sid) w Hq Hfresh)
    as (w1 & Hc & (C1 & C2 & C3 & C4 & C5 & C6 & C7 & C8) & Hq1).
  eexists. split.
  - unfold createStaffWiFiVoucher. apply logged_Ret.
    eapply bind_Ret; [apply select_staff_quiet, Hq | rewrite Hs].
    eapply bind_Ret; [reflexivity | ].
    eapply bind_Ret; [unfold daily_gate in Hg; now rewrite Hg | ].
    eapply bind_Ret; [exact Hc | ].
    eapply bind_Ret; [apply command_quiet, Hq1 | reflexivity].
  - cbn. rewrite C1, C4, C5. auto.
Qed.

Lemma createStaffWiFiVoucher_collision (sid : Z) (s : Staff) (w : World) :
  faults w = [] ->
  find (fun s => s_id s =? sid) (staff w) = Some s ->
  daily_gate s w = false ->
  existsb (with_code (next_code "staff_wifi" w)) (vouchers w) = true ->
  let r := createStaffWiFiVoucher sid w in
  fst r = Throw (SqliteConstraint unique_code_message) /\
  vouchers (snd r) = vouchers w /\
  staff (snd r) = staff w /\
  drawn (snd r) = (drawn w + 6)%nat.
Proof.
  intros Hq Hs Hg Hdup.
  destruct (createVoucher_collision (staff_wifi_data s sid) w Hq Hdup)
    as (w1 & Hc & C1 & C2 & C3 & C4 & C5).
  assert (E : createStaffWiFiVoucher sid w =
              (Throw (SqliteConstraint unique_code_message),
               set_console
                 (console w1 ++
                    [ConsoleError "Create staff WiFi voucher failed:"
                       (SqliteConstraint unique_code_message)])%list w1)).
  { unfold createStaffWiFiVoucher. apply logged_Throw.
    eapply bind_Ret; [apply select_staff_quiet, Hq | rewrite Hs].
    eapply bind_Ret; [reflexivity | ].
    eapply bind_Ret; [unfold daily_gate in Hg; now rewrite Hg | ].
    apply bind_Throw. exact Hc. }
  cbv zeta. rewrite E. cbn. auto.
Qed.

Lemma createPremiumWiFiVoucher_collision (sid amount : Z) (s : Staff) (w : World) :
  faults w = [] ->
  find (fun s => s_id s =? sid) (staff w) = Some s ->
  existsb (with_code (next_code "premium_wifi" w)) (vouchers w) = true ->
  let r := createPremiumWiFiVoucher sid amount w in
  fst r = Throw (SqliteConstraint unique_code_message) /\
  vouchers (snd r) = vouchers w /\
  drawn (snd r) = (drawn w + 6)%nat.
Proof.
  intros Hq Hs Hdup.
  destruct (createVoucher_collision
              (mkVoucherData None (s_site_id s) "premium_wifi"
                 "Premium WiFi Access" "Unlimited high-speed WiFi for 24 hours"
                 amount (Some 48) (Some (mkCreatedBy (Some "staff") (Some sid))))
              w Hq Hdup)
    as (w1 & Hc & C1 & C2 & C3 & C4 & C5).
  assert (E : createPremiumWiFiVoucher sid amount w =
              (Throw (SqliteConstraint unique_code_message),
               set_console
                 (console w1 ++
                    [ConsoleError "Create premium WiFi voucher failed:"
                       (SqliteConstraint unique_code_message)])%list w1)).
  { unfold createPremiumWiFiVoucher. apply logged_Throw.
    eapply bind_Ret; [apply select_staff_quiet, Hq | rewrite Hs].
    exact Hc. }
  cbv zeta. rewrite E. cbn. auto.
Qed.

Lemma createLoyaltyReward_collision (uid visits : Z) (tier : string)
    (reward : string * string * Z) (u : User) (w : World) :
  faults w = [] ->
  rewards (toLowerCase tier) = Some reward ->
  customer uid w = Some u ->
  existsb (with_code (next_code "loyalty_reward" w)) (vouchers w) = true ->
  let r := createLoyaltyReward uid tier visits w in
  fst r = Throw (SqliteConstraint unique_code_message) /\
  vouchers (snd r) = vouchers w /\
  drawn (snd r) = (drawn w + 6)%nat.
Proof.
  intros Hq Hr Hu Hdup. destruct reward as [[title description] value].
  destruct (createVoucher_collision
              (mkVoucherData (Some uid) (u_site_id u) "loyalty_reward"
                 title description value (Some 168)
                 (Some (mkCreatedBy (Some "system") None)))
              w Hq Hdup)
    as (w1 & Hc & C1 & C2 & C3 & C4 & C5).
  assert (E : createLoyaltyReward uid tier visits w =
              (Throw (SqliteConstraint unique_code_message),
               set_console
                 (console w1 ++
                    [ConsoleError "Create loyalty reward failed:"
                       (SqliteConstraint unique_code_message)])%list w1)).
  { unfold createLoyaltyReward. apply logged_Throw. rewrite Hr.
    eapply bind_Ret; [apply select_user_quiet, Hq | rewrite Hu].
    exact Hc. }
  cbv zeta. rewrite E. cbn. auto.
Qed.

(** C7, as the code has it.  With a working store, [createVoucher] fails
    with the constraint error of the store whenever the generated code
    collides with the code of an existing voucher, and leaves the table
    as it was; in every world it keeps the rows that are there and keeps
    codes distinct.  Nothing retries: a call draws one code, and each
    caller ([createStaffWiFiVoucher], [createPremiumWiFiVoucher],
    [createLoyaltyReward]) hands the failure of that one attempt on. *)
Theorem collision_fails_and_is_not_retried :
  (forall vd w,
     faults w = [] ->
     existsb (with_code (next_code (vd_type vd) w)) (vouchers w) = true ->
     fst (createVoucher vd w) = Throw (SqliteConstraint unique_code_message) /\
     vouchers (snd (createVoucher vd w)) = vouchers w) /\
  (forall vd w,
     (forall v, In v (vouchers w) -> In v (vouchers (snd (createVoucher vd w)))) /\
     (NoDup (map v_code (vouchers w)) ->
      NoDup (map v_code (vouchers (snd (createVoucher vd w))))) /\
     drawn (snd (createVoucher vd w)) = (drawn w + 6)%nat) /\
  (forall sid s w,
     faults w = [] ->
     find (fun s => s_id s =? sid) (staff w) = Some s ->
     daily_gate s w = false ->
     existsb (with_code (next_code "staff_wifi" w)) (vouchers w) = true ->
     let r := createStaffWiFiVoucher sid w in
     fst r = Throw (SqliteConstraint unique_code_message) /\
     vouchers (snd r) = vouchers w /\
     drawn (snd r) = (drawn w + 6)%nat) /\
  (forall sid amount s w,
     faults w = [] ->
     find (fun s => s_id s =? sid) (staff w) = Some s ->
     existsb (with_code (next_code "premium_wifi" w)) (vouchers w) = true ->
     let r := createPremiumWiFiVoucher sid amount w in
     fst r = Throw (SqliteConstraint unique_code_message) /\
     vouchers (snd r) = vouchers w /\
     drawn (snd r) = (drawn w + 6)%nat) /\
  (forall uid visits tier reward u w,
     faults w = [] ->
     rewards (toLowerCase tier) = Some reward ->
     customer uid w = Some u ->
     existsb (with_code (next_code "loyalty_reward" w)) (vouchers w) = true ->
     let r := createLoyaltyReward uid tier visits w in
     fst r = Throw (SqliteConstraint unique_code_message) /\
     vouchers (snd r) = vouchers w /\
     drawn (snd r) = (drawn w + 6)%nat).
Proof.
  repeat split.
  - destruct (createVoucher_collision vd w H H0) as (w' & -> & _). reflexivity.
  - destruct (createVoucher_collision vd w H H0) as (w' & -> & Hv & _). exact Hv.
  - apply createVoucher_keeps_rows.
  - apply createVoucher_keeps_rows.
  - apply createVoucher_draws.
  - now apply (createStaffWiFiVoucher_collision sid s w).
  - now apply (createStaffWiFiVoucher_collision sid s w).
  - now apply (createStaffWiFiVoucher_collision sid s w).
  - now apply (createPremiumWiFiVoucher_collision sid amount s w).
  - now apply (createPremiumWiFiVoucher_collision sid amount s w).
  - now apply (createPremiumWiFiVoucher_collision sid amount s w).
  - now apply (createLoyaltyReward_collision uid visits tier reward u w).
  - now apply (createLoyaltyReward_collision uid visits tier reward u w).
  - now apply (createLoyaltyReward_collision uid visits tier reward u w).
Qed.

(** C7, the claim at a concrete input.  The table holds the code that
    Alice's staff voucher draws first; the code that a second draw would
    give is free.  The call fails with the error of the store after that
    one draw: there is no retry and no [CodeSpaceExhausted]. *)
Lemma staff_voucher_collision_is_not_retried :
  let r := createStaffWiFiVoucher 1 world_with_collision in
  fst r = Throw (SqliteConstraint unique_code_message) /\
  drawn (snd r) = 6%nat /\
  fresh_code (next_code "staff_wifi" (snd r)) (snd r) /\
  vouchers (snd r) = vouchers world_with_collision.
Proof. vm_compute. repeat split. Qed.

Lemma collision_fails_and_is_not_retried_witness :
  fst (createStaffWiFiVoucher 1 world_with_collision) =
    Throw (SqliteConstraint unique_code_message).
Proof.
  apply (proj1 (proj2 (proj2 collision_fails_and_is_not_retried))
           1 alice world_with_collision); reflexivity.
Defined.

(* ===================================================================== *)
(** ** A failed issuance does not use up the day's allowance *)

Lemma keeps_staff_select_staff (sid : Z) : keeps staff (select_staff sid).
Proof. apply keeps_of_inv; intros x; apply inv_select_staff; unaffected. Qed.

Lemma update_staff_daily_used_cases (today : string) (sid : Z) (w : World) :
  (exists w1, update_staff_daily_used today sid w = (Ret tt, w1)) \/
  (exists w1, update_staff_daily_used today sid w = (Throw ExternalFailure, w1) /\
              staff w1 = staff w).
Proof.
  unfold update_staff_daily_used, bind, external, modify.
  destruct (faults w) as [|[|] fs]; cbn; eauto.
Qed.

(** Whenever [createStaffWiFiVoucher] does not return a voucher, the
    [staff] table is as it was. *)
Lemma throw_if_cases (c : bool) (e : Error) (w : World) :
  (c = false /\ throw_if c e w = (Ret tt, w)) \/
  (c = true /\ throw_if c e w = (Throw e, w)).
Proof. destruct c; cbn; auto. Qed.

Lemma createStaffWiFiVoucher_failure_keeps_staff (sid : Z) (w : World) :
  (forall v, fst (createStaffWiFiVoucher sid w) <> Ret v) ->
  staff (snd (createStaffWiFiVoucher sid w)) = staff w.
Proof.
  unfold createStaffWiFiVoucher. rewrite logged_fst, logged_keeps by reflexivity.
  pose proof (keeps_staff_select_staff sid w) as Ks.
  step_bind o w1 Es; rewrite Es in Ks; cbn in Ks; auto.
  destruct o as [s|]; [ | auto ].
  step_bind t w2 Et; inversion Et; subst t w2; clear Et.
  destruct (throw_if_cases
              (Sql.text_eq (s_last_voucher_date s) (Some (Clock.isoDate (clock w1)))
               && s_daily_voucher_used s)
              (JsError "Daily staff voucher already used") w1)
    as [[_ Eg] | [_ Eg]];
    step_bind u w2 Eu; rewrite Eg in Eu; inversion Eu; subst; auto.
  pose proof (keeps_staff_createVoucher (staff_wifi_data s sid) w2) as Kc.
  unfold staff_wifi_data in Kc.
  step_bind v w3 Ec; rewrite Ec in Kc; cbn in Kc; try (intros _; cbn; congruence).
  destruct (update_staff_daily_used_cases (Clock.isoDate (clock w2)) sid w3)
    as [[w4 E] | [w4 [E K4]]];
    step_bind x w5 Ex; rewrite E in Ex; inversion Ex; subst; cbn.
  - intros H. now contradiction (H v).
  - intros _. congruence.
Qed.

Lemma logged_Ret_inv {A} (tag : string) (m : M A) (w w1 : World) (a : A) :
  logged tag m w = (Ret a, w1) -> m w = (Ret a, w1).
Proof.
  unfold logged, try_catch, bind, console_error, modify, throw.
  destruct (m w) as [[a0 | e | ] w2]; cbn; congruence.
Qed.

Lemma external_Ret (w w1 : World) :
  external w = (Ret tt, w1) ->
  vouchers w1 = vouchers w /\ next_voucher_id w1 = next_voucher_id w.
Proof.
  unfold external. destruct (faults w) as [|[|] fs]; intros H; inversion H; auto.
Qed.

(** The voucher that [createVoucher] returns is a row of the table. *)
Lemma createVoucher_Ret (vd : VoucherData) (w w' : World) (v : Voucher) :
  createVoucher vd w = (Ret v, w') -> In v (vouchers w').
Proof.
  unfold createVoucher, createVoucher_. intros H. apply logged_Ret_inv in H. revert H.
  step_bind code w1 Eg; try discriminate.
  step_bind t w2 Et; try discriminate.
  step_bind u1 w3 Eq; try discriminate.
  step_bind u2 w4 Eb; try discriminate.
  step_bind id w5 Ei; try discriminate.
  destruct (auditLog_run
              (voucher_created_event vd
                 (with_id_of id
                    (mkVoucher 0 (vd_user_id vd) (vd_site_id vd) code
                       (vd_type vd) (vd_title vd) (vd_description vd)
                       (vd_value vd) "active"
                       (t + match vd_expires_in_hours vd with
                            | Some h => h | None => 72 end * 60 * 60 * 1000)
                       None None))) w5)
    as (w6 & Ea & (F1 & _) & _).
  step_bind u3 w7 Ea'; try discriminate. rewrite Ea in Ea'. inversion Ea'; subst u3 w7.
  intros H. inversion H; subst v w'. rewrite F1.
  unfold insert_voucher in Ei. revert Ei.
  step_bind u4 w8 Ee; try discriminate.
  destruct (existsb _ _); [discriminate | ].
  intros Ei. inversion Ei; subst id w5. cbn.
  apply in_or_app. right. left. reflexivity.
Qed.

Lemma createStaffWiFiVoucher_Ret (sid : Z) (w w' : World) (v : Voucher) :
  createStaffWiFiVoucher sid w = (Ret v, w') -> In v (vouchers w').
Proof.
  unfold createStaffWiFiVoucher. intros H. apply logged_Ret_inv in H. revert H.
  step_bind o w1 Es; try discriminate.
  destruct o as [s|]; [ | discriminate ].
  step_bind t w2 Et; try discriminate.
  step_bind u w3 Eg; try discriminate.
  step_bind v0 w4 Ec; try discriminate.
  apply createVoucher_Ret in Ec.
  unfold update_staff_daily_used.
  step_bind u1 w5 Eu; try discriminate.
  intros H. inversion H; subst v w'.
  revert Eu. step_bind u2 w6 Ee; try discriminate.
  intros Eu. inversion Eu; subst. cbn.
  destruct u2. apply external_Ret in Ee. destruct Ee as [-> _]. exact Ec.
Qed.

(** C10. If the voucher creation inside [createStaffWiFiVoucher] throws,
    the whole call throws the same error and the [staff] table (hence the
    member's [daily_voucher_used] and [last_voucher_date]) is unchanged;
    more generally the table changes only when the call returns the
    voucher, whose row is then in [vouchers]. *)
Theorem failed_issuance_keeps_daily_flag :
  (forall sid w s w1 e w2,
     select_staff sid w = (Ret (Some s), w1) ->
     daily_gate s w1 = false ->
     createVoucher (staff_wifi_data s sid) w1 = (Throw e, w2) ->
     fst (createStaffWiFiVoucher sid w) = Throw e /\
     staff (snd (createStaffWiFiVoucher sid w)) = staff w /\
     find (fun s => s_id s =? sid) (staff (snd (createStaffWiFiVoucher sid w)))
       = find (fun s => s_id s =? sid) (staff w)) /\
  (forall sid w,
     staff (snd (createStaffWiFiVoucher sid w)) <> staff w ->
     exists v, fst (createStaffWiFiVoucher sid w) = Ret v /\
               In v (vouchers (snd (createStaffWiFiVoucher sid w)))).
Proof.
  split.
  - intros sid w s w1 e w2 Hs Hg Hc.
    assert (E : fst (createStaffWiFiVoucher sid w) = Throw e).
    { unfold createStaffWiFiVoucher. rewrite logged_fst.
      erewrite bind_Ret; [ | exact Hs | ].
      2:{ eapply bind_Ret; [reflexivity | ].
          eapply bind_Ret; [unfold daily_gate in Hg; now rewrite Hg | ].
          apply bind_Throw. exact Hc. }
      reflexivity. }
    assert (K : staff (snd (createStaffWiFiVoucher sid w)) = staff w).
    { apply createStaffWiFiVoucher_failure_keeps_staff. intros v. congruence. }
    rewrite K. auto.
  - intros sid w Hne.
    pose proof (createStaffWiFiVoucher_failure_keeps_staff sid w) as K.
    destruct (createStaffWiFiVoucher sid w) as [[v | e | ] w'] eqn:R; cbn in *.
    + exists v. split; [reflexivity | ].
      eapply createStaffWiFiVoucher_Ret; exact R.
    + contradiction Hne. apply K. intros v. discriminate.
    + contradiction Hne. apply K. intros v. discriminate.
Qed.

Lemma failed_issuance_keeps_daily_flag_witness :
  staff (snd (createStaffWiFiVoucher 1 (set_faults [false; true] sample_world)))
    = staff sample_world.
Proof.
  apply (proj1 failed_issuance_keeps_daily_flag 1
           (set_faults [false; true] sample_world) alice
           (set_faults [true] sample_world) ExternalFailure
           (set_console [ConsoleError "QR code generation failed:" ExternalFailure;
                         ConsoleError "Create voucher failed:" ExternalFailure]
              (set_drawn 6 (set_faults [] sample_world))));
    reflexivity.
Defined.

(* ===================================================================== *)
(** ** Loyalty: visits and tiers *)

Lemma newTier_cases (n : Z) :
  (n < 5 /\ newTier n = "Bronze") \/
  (5 <= n < 15 /\ newTier n = "Silver") \/
  (15 <= n < 30 /\ newTier n = "Gold") \/
  (30 <= n /\ newTier n = "Platinum").
Proof.
  unfold newTier.
  destruct (Z.leb_spec 30 n); [auto | ].
  destruct (Z.leb_spec 15 n); [right; right; left; split; [lia | reflexivity] | ].
  destruct (Z.leb_spec 5 n); [right; left; split; [lia | reflexivity] | ].
  left; split; [lia | reflexivity].
Qed.

(** The code agrees with the lookup that the specification describes. *)
Lemma newTier_is_threshold_lookup (n : Z) :
  0 <= n -> threshold_lookup n = Some (newTier n).
Proof.
  intros Hn. unfold threshold_lookup, newTier. cbn.
  destruct (30 <=? n); [reflexivity | ].
  destruct (15 <=? n); [reflexivity | ].
  destruct (5 <=? n); [reflexivity | ].
  destruct (Z.leb_spec 0 n); [reflexivity | lia].
Qed.

(** ... and it is the tier of the greatest threshold that does not exceed
    the count. *)
Lemma newTier_greatest (n : Z) :
  0 <= n ->
  exists th, In (newTier n, th) tier_table /\ th <= n /\
             forall name th', In (name, th') tier_table -> th' <= n -> th' <= th.
Proof.
  intros Hn.
  destruct (newTier_cases n) as [[H ->] | [[H ->] | [[H ->] | [H ->]]]];
    [exists 0 | exists 5 | exists 15 | exists 30];
    (split; [cbn; tauto | split; [lia | ]]);
    intros name th' Hin Hle; cbn in Hin;
    repeat match goal with
           | H : _ \/ _ |- _ => destruct H
           | H : (_, _) = (_, _) |- _ => inversion H; subst; clear H
           | H : False |- _ => contradiction
           end; lia.
Qed.

Lemma rewards_newTier (n : Z) :
  exists reward, rewards (toLowerCase (newTier n)) = Some reward.
Proof.
  destruct (newTier_cases n) as [[_ ->] | [[_ ->] | [[_ ->] | [_ ->]]]];
    cbn; eauto.
Qed.

Lemma customer_after_update (uid c : Z) (t : string) (u : User) (us : list User) :
  find (fun u => u_id u =? uid) us = Some u ->
  find (fun u => u_id u =? uid)
       (map (fun u' => if u_id u' =? uid then with_loyalty c t u' else u') us)
    = Some (with_loyalty c t u).
Proof.
  induction us as [|a us IH]; cbn; [discriminate | ].
  destruct (u_id a =? uid) eqn:E; cbn; rewrite E.
  - intros H; inversion H; reflexivity.
  - exact IH.
Qed.

Lemma keeps_users_createLoyaltyReward uid tier visits :
  keeps users (createLoyaltyReward uid tier visits).
Proof. apply keeps_of_inv; intros x; apply inv_createLoyaltyReward; unaffected. Qed.

(** The row of the customer after [updateUserLoyalty(uid, 'visit')],
    whether or not the reward can be created. *)
Lemma updateUserLoyalty_visit_row (uid : Z) (u : User) (w : World) :
  faults w = [] ->
  customer uid w = Some u ->
  customer uid (snd (updateUserLoyalty uid "visit" w))
    = Some (with_loyalty (u_visit_count u + 1) (newTier (u_visit_count u + 1)) u).
Proof.
  intros Hq Hu. unfold updateUserLoyalty, customer.
  rewrite logged_keeps by reflexivity.
  erewrite bind_Ret; [ | apply select_user_quiet, Hq | rewrite Hu; reflexivity ].
  cbn [String.eqb Ascii.eqb Bool.eqb andb].
  erewrite bind_Ret; [ | unfold update_user_loyalty; apply command_quiet, Hq
                       | reflexivity ].
  set (w1 := set_users _ w).
  assert (H1 : find (fun u0 => u_id u0 =? uid) (users w1)
               = Some (with_loyalty (u_visit_count u + 1)
                                    (newTier (u_visit_count u + 1)) u))
    by (apply customer_after_update; exact Hu).
  rewrite <- H1.
  match goal with
  | |- find _ (users (snd (?m w1))) = _ => assert (K : keeps users m)
  end.
  { apply keeps_of_inv; intros x.
    assert (forall t n, inv (fun w => users w = x) (createLoyaltyReward uid t n))
      by (intros; apply inv_createLoyaltyReward; unaffected).
    inv_tac. }
  now rewrite K.
Qed.

(** What [updateUserLoyalty(uid, 'visit')] returns when the tier is
    unchanged, or when it changes and the reward's code is free. *)
Lemma updateUserLoyalty_visit_result (uid : Z) (u : User) (w : World) :
  faults w = [] ->
  customer uid w = Some u ->
  newTier (u_visit_count u + 1) = u_loyalty_tier u \/
  fresh_code (next_code "loyalty_reward" w) w ->
  fst (updateUserLoyalty uid "visit" w)
    = Ret (Some (mkLoyaltyUpdate
                   (u_visit_count u + 1) (newTier (u_visit_count u + 1))
                   (negb (String.eqb (newTier (u_visit_count u + 1))
                                     (u_loyalty_tier u))))).
Proof.
  intros Hq Hu Hok. unfold updateUserLoyalty. rewrite logged_fst.
  erewrite bind_Ret; [ | apply select_user_quiet, Hq | rewrite Hu; reflexivity ].
  cbn [String.eqb Ascii.eqb Bool.eqb andb].
  erewrite bind_Ret; [ | unfold update_user_loyalty; apply command_quiet, Hq
                       | reflexivity ].
  set (c := u_visit_count u + 1) in *.
  set (w1 := set_users _ w).
  destruct (String.eqb_spec (newTier c) (u_loyalty_tier u)) as [E | E]; cbn [negb andb].
  - reflexivity.
  - destruct Hok as [Hok | Hfresh]; [contradiction | ].
    destruct (rewards_newTier c) as [[[title description] value] Hr].
    assert (Hu1 : customer uid w1 = Some (with_loyalty c (newTier c) u))
      by (apply customer_after_update; exact Hu).
    destruct (createVoucher_quiet
                (mkVoucherData (Some uid) (u_site_id (with_loyalty c (newTier c) u))
                   "loyalty_reward" title description value (Some 168)
                   (Some (mkCreatedBy (Some "system") None))) w1 Hq Hfresh)
      as (w2 & Hc & _).
    assert (Hl : createLoyaltyReward uid (newTier c) c w1
                 = (Ret (new_voucher
                           (mkVoucherData (Some uid)
                              (u_site_id (with_loyalty c (newTier c) u))
                              "loyalty_reward" title description value (Some 168)
                              (Some (mkCreatedBy (Some "system") None))) w1), w2)).
    { unfold createLoyaltyReward. apply logged_Ret. rewrite Hr.
      eapply bind_Ret; [apply select_user_quiet, Hq | rewrite Hu1].
      exact Hc. }
    unfold bind. rewrite Hl. reflexivity.
Qed.

Lemma recordVisits_row (n : nat) (uid : Z) (u : User) (w : World) :
  faults w = [] ->
  customer uid w = Some u ->
  (0 < n)%nat ->
  customer uid (recordVisits n uid w)
    = Some (with_loyalty (u_visit_count u + Z.of_nat n)
                         (newTier (u_visit_count u + Z.of_nat n)) u).
Proof.
  revert u w. induction n as [|n IH]; intros u w Hq Hu Hn; [lia | ].
  cbn [recordVisits]. unfold exec.
  pose proof (updateUserLoyalty_visit_row uid u w Hq Hu) as H1.
  pose proof (calm_updateUserLoyalty uid "visit" w Hq) as Hq1.
  destruct n as [|n].
  - cbn [recordVisits]. rewrite H1. reflexivity.
  - rewrite (IH _ _ Hq1 H1) by lia. cbn [u_visit_count with_loyalty].
    replace (u_visit_count u + 1 + Z.of_nat (S n))
      with (u_visit_count u + Z.of_nat (S (S n))) by lia.
    reflexivity.
Qed.

(** The [users] table after [updateUserLoyalty(uid, 'visit')], whether or
    not the reward can be created. *)
Lemma updateUserLoyalty_visit_users (uid : Z) (u : User) (w : World) :
  faults w = [] ->
  customer uid w = Some u ->
  users (snd (updateUserLoyalty uid "visit" w))
    = map (fun u' => if u_id u' =? uid
                     then with_loyalty (u_visit_count u + 1)
                                       (newTier (u_visit_count u + 1)) u'
                     else u') (users w).
Proof.
  intros Hq Hu. unfold updateUserLoyalty.
  rewrite logged_keeps by reflexivity.
  erewrite bind_Ret; [ | apply select_user_quiet, Hq | rewrite Hu; reflexivity ].
  cbn [String.eqb Ascii.eqb Bool.eqb andb].
  erewrite bind_Ret; [ | unfold update_user_loyalty; apply command_quiet, Hq
                       | reflexivity ].
  set (w1 := set_users _ w).
  change (map _ (users w)) with (users w1).
  match goal with
  | |- users (snd (?m w1)) = _ => assert (K : keeps users m)
  end.
  { apply keeps_of_inv; intros x.
    assert (forall t n, inv (fun w => users w = x) (createLoyaltyReward uid t n))
      by (intros; apply inv_createLoyaltyReward; unaffected).
    inv_tac. }
  now rewrite K.
Qed.

(** A row with another id is not touched by the [UPDATE]. *)
Lemma customer_of_another (uid other c : Z) (t : string) (us : list User) :
  other <> uid ->
  find (fun u => u_id u =? other)
       (map (fun u' => if u_id u' =? uid then with_loyalty c t u' else u') us)
    = find (fun u => u_id u =? other) us.
Proof.
  intros Hne. induction us as [|a us IH]; cbn; [reflexivity | ].
  destruct (u_id a =? uid) eqn:E; cbn [u_id with_loyalty].
  - apply Z.eqb_eq in E.
    destruct (u_id a =? other) eqn:E'; [apply Z.eqb_eq in E'; congruence | ].
    exact IH.
  - destruct (u_id a =? other); [reflexivity | exact IH].
Qed.

(** C4. [updateUserLoyalty(uid, 'visit')] (the specification's
    [recordVisit]), for a count that a JavaScript number holds exactly
    (from 0 up to 2^53 - 1): the row of the customer is stored with the
    count plus one and the tier of the new count, which is the one that
    the threshold table Bronze 0, Silver 5, Gold 15, Platinum 30 selects
    from the top down, the tier of the greatest threshold not exceeding
    the count; the other columns of the row and the rows of the other
    customers are as before; the call returns the new count, the tier
    and [tier_changed], which is true exactly when the tier differs from
    the stored one; and after [n] visits the row holds the count plus [n]
    and the tier of that count, whatever tier was stored before. *)
Theorem recordVisit_recomputes_tier :
  (forall n, 0 <= n ->
     threshold_lookup n = Some (newTier n) /\
     exists th, In (newTier n, th) tier_table /\ th <= n /\
       forall name th', In (name, th') tier_table -> th' <= n -> th' <= th) /\
  (forall uid u w,
     faults w = [] ->
     customer uid w = Some u ->
     Js.exact_count (u_visit_count u) ->
     let c := u_visit_count u + 1 in
     let r := updateUserLoyalty uid "visit" w in
     (exists u',
        customer uid (snd r) = Some u' /\
        u_visit_count u' = u_visit_count u + 1 /\
        u_loyalty_tier u' = newTier (u_visit_count u') /\
        threshold_lookup (u_visit_count u') = Some (u_loyalty_tier u') /\
        u_id u' = u_id u /\ u_site_id u' = u_site_id u /\
        u_email u' = u_email u /\ u_name u' = u_name u) /\
     (forall other, other <> uid -> customer other (snd r) = customer other w) /\
     (newTier c = u_loyalty_tier u \/
      fresh_code (next_code "loyalty_reward" w) w ->
      exists changed,
        fst r = Ret (Some (mkLoyaltyUpdate c (newTier c) changed)) /\
        (changed = true <-> newTier c <> u_loyalty_tier u))) /\
  (forall n uid u w,
     faults w = [] ->
     customer uid w = Some u ->
     (0 < n)%nat ->
     0 <= u_visit_count u ->
     u_visit_count u + Z.of_nat n <= 2 ^ 53 ->
     exists u',
       customer uid (recordVisits n uid w) = Some u' /\
       u_visit_count u' = u_visit_count u + Z.of_nat n /\
       u_loyalty_tier u' = newTier (u_visit_count u') /\
       threshold_lookup (u_visit_count u') = Some (u_loyalty_tier u')).
Proof.
  split; [ | split ].
  - intros n Hn. split; [now apply newTier_is_threshold_lookup | now apply newTier_greatest].
  - intros uid u w Hq Hu [H0 _] c r. split; [ | split ].
    + exists (with_loyalty c (newTier c) u). subst r c.
      rewrite (updateUserLoyalty_visit_row uid u w Hq Hu).
      cbn [u_visit_count u_loyalty_tier u_id u_site_id u_email u_name
           with_loyalty].
      repeat split. apply newTier_is_threshold_lookup. lia.
    + intros other Hne. subst r. unfold customer.
      rewrite (updateUserLoyalty_visit_users uid u w Hq Hu).
      now apply customer_of_another.
    + intros Hok. eexists. split.
      * now apply updateUserLoyalty_visit_result.
      * subst c.
        destruct (String.eqb_spec (newTier (u_visit_count u + 1))
                                  (u_loyalty_tier u)); cbn;
          split; intros H;
          first [discriminate | assumption | reflexivity | contradiction].
  - intros n uid u w Hq Hu Hn H0 _.
    exists (with_loyalty (u_visit_count u + Z.of_nat n)
                         (newTier (u_visit_count u + Z.of_nat n)) u).
    rewrite (recordVisits_row n uid u w Hq Hu Hn).
    cbn [u_visit_count u_loyalty_tier with_loyalty].
    repeat split. apply newTier_is_threshold_lookup. lia.
Qed.

Lemma recordVisit_recomputes_tier_witness :
  exists u',
    customer 7 (snd (updateUserLoyalty 7 "visit" sample_world)) = Some u' /\
    u_visit_count u' = 5 /\ u_loyalty_tier u' = "Silver" /\
    u_name u' = "Carol".
Proof.
  destruct (proj1 (proj1 (proj2 recordVisit_recomputes_tier) 7 carol
                     sample_world eq_refl eq_refl
                     ltac:(split; [discriminate | reflexivity])))
    as (u' & E & Hc & Ht & _ & _ & _ & _ & Hn).
  exists u'. rewrite Hc in Ht. repeat split; assumption.
Defined.

(* ===================================================================== *)
(** ** Redemption *)

Lemma vv_row_join_user (us : list User) (v : Voucher) :
  vv_row (join_user us v) = v.
Proof.
  unfold join_user. destruct (find (user_with_id (v_user_id v)) us); reflexivity.
Qed.

(** [redeemVoucher] is its three stages in sequence. *)
Lemma redeemVoucher_stages (code : string) (s : Staff) (w : World) :
  redeemVoucher code s w =
    logged redeem_tag
      (view <- redeem_validate code ;;
       redeem_update s view ;;
       redeem_settle s view) w.
Proof.
  unfold redeemVoucher, redeem_validate, redeem_update, redeem_settle, logged,
    redeem_tag.
  apply try_catch_ext. rewrite bind_assoc. apply bind_ext; intros found w1.
  destruct found as [view|]; [ | reflexivity ]. cbv zeta.
  repeat (rewrite bind_assoc; apply bind_ext; intros ? ?).
  reflexivity.
Qed.

Lemma verdict_of_active (v : Voucher) (t : Z) :
  v_status v = "active" -> t <= v_expires_at v -> redeem_verdict v t = None.
Proof.
  intros Hs Ht. unfold redeem_verdict. rewrite Hs. cbn.
  apply Z.ltb_ge in Ht. now rewrite Ht.
Qed.

Lemma redeem_validate_quiet (code : string) (w : World) :
  faults w = [] ->
  redeem_validate code w =
    match find (with_code code) (vouchers w) with
    | None => (Throw (JsError "Voucher not found"), w)
    | Some v =>
        match redeem_verdict v (clock w) with
        | Some msg => (Throw (JsError msg), w)
        | None => (Ret (join_user (users w) v), w)
        end
    end.
Proof.
  intros Hq. unfold redeem_validate, select_voucher_by_code.
  erewrite bind_Ret; [reflexivity | apply query_quiet, Hq | ].
  destruct (find _ _) as [v|]; [ | reflexivity ]. cbn [option_map].
  unfold redeem_verdict. rewrite vv_row_join_user.
  unfold bind, now, gets, throw_if.
  destruct (String.eqb _ "redeemed"); [reflexivity | ]. cbn.
  destruct (v_expires_at v <? clock w); [reflexivity | ]. cbn.
  destruct (String.eqb _ "active"); reflexivity.
Qed.

Lemma updateUserLoyalty_redemption_quiet (uid : Z) (w : World) :
  faults w = [] ->
  exists o w',
    updateUserLoyalty uid "redemption" w = (Ret o, w') /\
    users w' = retier uid (users w) /\
    vouchers w' = vouchers w /\ next_voucher_id w' = next_voucher_id w /\
    staff w' = staff w /\ clock w' = clock w /\ faults w' = [] /\
    audit_log w' = audit_log w /\ next_audit_id w' = next_audit_id w /\
    drawn w' = drawn w /\ entropy w' = entropy w /\ tz_offset w' = tz_offset w /\
    console w' = console w.
Proof.
  intros Hq. unfold updateUserLoyalty, retier.
  destruct (find (fun u => u_id u =? uid) (users w)) as [u|] eqn:Hu.
  - do 2 eexists. split.
    + apply logged_Ret.
      eapply bind_Ret; [apply select_user_quiet, Hq | unfold customer; rewrite Hu].
      cbn [String.eqb Ascii.eqb Bool.eqb]. rewrite andb_false_r.
      eapply bind_Ret; [unfold update_user_loyalty; apply command_quiet, Hq | ].
      reflexivity.
    + cbn. repeat split; auto.
  - do 2 eexists. split.
    + apply logged_Ret.
      eapply bind_Ret; [apply select_user_quiet, Hq | unfold customer; rewrite Hu].
      reflexivity.
    + repeat split; auto.
Qed.

Lemma redeem_settle_quiet (s : Staff) (view : VoucherView) (w : World) :
  faults w = [] ->
  exists w',
    redeem_settle s view w
      = (Ret (mkView (mark_redeemed (clock w) (s_id s) (vv_row view))
                     (vv_user_name view) (vv_user_email view)), w') /\
    vouchers w' = vouchers w /\
    users w' = (if counts_for_loyalty (vv_row view)
                then retier (num_of (v_user_id (vv_row view))) (users w)
                else users w) /\
    next_voucher_id w' = next_voucher_id w /\
    staff w' = staff w /\ clock w' = clock w /\ faults w' = [] /\
    drawn w' = drawn w /\ entropy w' = entropy w.
Proof.
  intros Hq. unfold redeem_settle, counts_for_loyalty.
  destruct (Js.truthy_num _ && String.eqb _ _).
  - destruct (updateUserLoyalty_redemption_quiet
                (num_of (v_user_id (vv_row view))) w Hq)
      as (o & w1 & Hl & U1 & U2 & U3 & U4 & U5 & U6 & U7 & U8 & U9 & U10 & U11 & U12).
    destruct (auditLog_run (voucher_redeemed_event (s_id s) (vv_row view)) w1)
      as (w2 & Ha & (F1 & F2 & F3 & F4 & F5 & F6 & F7 & F8) & Hq2).
    exists w2. split.
    + eapply bind_Ret; [eapply bind_Ret; [exact Hl | reflexivity] | ].
      eapply bind_Ret; [exact Ha | ].
      unfold bind, now, gets, ret. now rewrite F5, U5.
    + rewrite F1, F2, F3, F4, F5, F7, F8, U1, U2, U3, U4, U5, U9, U10. auto 10.
  - destruct (auditLog_run (voucher_redeemed_event (s_id s) (vv_row view)) w)
      as (w2 & Ha & (F1 & F2 & F3 & F4 & F5 & F6 & F7 & F8) & Hq2).
    exists w2. split.
    + eapply bind_Ret; [reflexivity | ].
      eapply bind_Ret; [exact Ha | ].
      unfold bind, now, gets, ret. now rewrite F5.
    + rewrite F1, F2, F3, F4, F5, F7, F8. auto 10.
Qed.

(** With a working store, an active voucher that has not expired is
    redeemed. *)
Lemma redeemVoucher_quiet (code : string) (s : Staff) (v : Voucher) (w : World) :
  faults w = [] ->
  find (with_code code) (vouchers w) = Some v ->
  redeem_verdict v (clock w) = None ->
  exists w',
    redeemVoucher code s w
      = (Ret (mkView (mark_redeemed (clock w) (s_id s) v)
                     (vv_user_name (join_user (users w) v))
                     (vv_user_email (join_user (users w) v))), w') /\
    redeemed_world s v w w'.
Proof.
  intros Hq Hv Hok. rewrite redeemVoucher_stages.
  pose proof (vv_row_join_user (users w) v) as Hrow.
  set (w1 := set_vouchers
               (map (fun v' => if with_id (v_id v) v'
                               then mark_redeemed (clock w) (s_id s) v' else v')
                    (vouchers w)) w).
  destruct (redeem_settle_quiet s (join_user (users w) v) w1 Hq)
    as (w2 & Hs & S1 & S2 & S3 & S4 & S5 & S6 & S7 & S8).
  rewrite Hrow in Hs, S2.
  exists w2. split.
  - apply logged_Ret.
    eapply bind_Ret; [rewrite redeem_validate_quiet, Hv, Hok by exact Hq; reflexivity | ].
    eapply bind_Ret; [ | exact Hs ].
    unfold redeem_update, update_voucher_redeemed. rewrite Hrow.
    apply command_quiet, Hq.
  - unfold redeemed_world. rewrite S1, S2, S3, S4, S5, S7, S8. cbn. auto 10.
Qed.

(** ... and any other voucher is rejected with the first check that it
    fails, the tables being left as they were. *)
Lemma redeemVoucher_rejects (code : string) (s : Staff) (w : World) (msg : string) :
  faults w = [] ->
  match find (with_code code) (vouchers w) with
  | None => msg = "Voucher not found"
  | Some v => redeem_verdict v (clock w) = Some msg
  end ->
  redeemVoucher code s w =
    (Throw (JsError msg),
     set_console (console w ++ [ConsoleError redeem_tag (JsError msg)])%list w).
Proof.
  intros Hq Hm. rewrite redeemVoucher_stages. apply logged_Throw.
  apply bind_Throw. rewrite redeem_validate_quiet by exact Hq.
  destruct (find _ _) as [v|]; [now rewrite Hm | now subst].
Qed.

(* ===================================================================== *)
(** ** Redeeming a loyalty reward *)

(** A visit that changes the tier creates the reward of the new tier. *)
Lemma updateUserLoyalty_visit_changed (uid : Z) (u : User) (w : World) :
  faults w = [] ->
  customer uid w = Some u ->
  newTier (u_visit_count u + 1) <> u_loyalty_tier u ->
  fresh_code (next_code "loyalty_reward" w) w ->
  exists v w',
    updateUserLoyalty uid "visit" w
      = (Ret (Some (mkLoyaltyUpdate (u_visit_count u + 1)
                      (newTier (u_visit_count u + 1)) true)), w') /\
    vouchers w' = (vouchers w ++ [v])%list /\
    v_type v = "loyalty_reward" /\ v_user_id v = Some uid /\
    v_status v = "active".
Proof.
  intros Hq Hu Hne Hfresh.
  set (c := u_visit_count u + 1) in *.
  set (w1 := set_users
               (map (fun u' => if u_id u' =? uid
                               then with_loyalty c (newTier c) u' else u')
                    (users w)) w).
  destruct (rewards_newTier c) as [[[title description] value] Hr].
  assert (Hu1 : customer uid w1 = Some (with_loyalty c (newTier c) u))
    by (apply customer_after_update; exact Hu).
  destruct (createVoucher_quiet
              (mkVoucherData (Some uid) (u_site_id (with_loyalty c (newTier c) u))
                 "loyalty_reward" title description value (Some 168)
                 (Some (mkCreatedBy (Some "system") None))) w1 Hq Hfresh)
    as (w2 & Hc & (C1 & _) & _).
  eexists. exists w2. split; [ | split; [exact C1 | cbn; auto] ].
  unfold updateUserLoyalty. apply logged_Ret.
  eapply bind_Ret; [apply select_user_quiet, Hq | rewrite Hu].
  cbn [String.eqb Ascii.eqb Bool.eqb andb]. fold c.
  eapply bind_Ret; [unfold update_user_loyalty; apply command_quiet, Hq | ].
  fold w1.
  destruct (String.eqb_spec (newTier c) (u_loyalty_tier u)) as [E | _];
    [contradiction | ]. cbn [negb andb].
  eapply bind_Ret; [ | reflexivity ].
  eapply bind_Ret; [ | reflexivity ].
  unfold createLoyaltyReward. apply logged_Ret. rewrite Hr.
  eapply bind_Ret; [apply select_user_quiet, Hq | rewrite Hu1].
  exact Hc.
Qed.

(** C5, as the code has it.  Redeeming a loyalty reward runs the loyalty
    update with the action [redemption]: for a customer with four visits
    the count stays four, the tier is the tier of four, Bronze, and no
    voucher is created.  It is a visit ([updateUserLoyalty] with the
    action [visit]) that takes the count from four to five, the tier
    from Bronze to Silver, and creates a loyalty reward. *)
Theorem redemption_is_not_a_visit :
  (forall code s v uid u w,
     faults w = [] ->
     find (with_code code) (vouchers w) = Some v ->
     v_status v = "active" ->
     clock w <= v_expires_at v ->
     v_type v = "loyalty_reward" ->
     v_user_id v = Some uid -> uid <> 0 ->
     customer uid w = Some u ->
     u_visit_count u = 4 ->
     let r := redeemVoucher code s w in
     (exists view, fst r = Ret view) /\
     customer uid (snd r) = Some (with_loyalty 4 "Bronze" u) /\
     List.length (vouchers (snd r)) = List.length (vouchers w)) /\
  (forall uid u w,
     faults w = [] ->
     customer uid w = Some u ->
     u_visit_count u = 4 ->
     u_loyalty_tier u = "Bronze" ->
     fresh_code (next_code "loyalty_reward" w) w ->
     let r := updateUserLoyalty uid "visit" w in
     fst r = Ret (Some (mkLoyaltyUpdate 5 "Silver" true)) /\
     customer uid (snd r) = Some (with_loyalty 5 "Silver" u) /\
     exists v, vouchers (snd r) = (vouchers w ++ [v])%list /\
               v_type v = "loyalty_reward" /\ v_user_id v = Some uid /\
               v_status v = "active").
Proof.
  split.
  - intros code s v uid u w Hq Hv Hact Hexp Ht Ho Hn Hu H4 r.
    destruct (redeemVoucher_quiet code s v w Hq Hv
                (verdict_of_active v (clock w) Hact Hexp))
      as (w' & Hr & R1 & R2 & _).
    subst r. rewrite Hr. cbn [fst snd]. split; [eauto | split].
    + unfold customer. rewrite R2. unfold counts_for_loyalty.
      rewrite Ho, Ht. cbn [Js.truthy_num num_of].
      destruct (Z.eqb_spec uid 0) as [E | _]; [contradiction | ].
      cbn [negb andb]. rewrite String.eqb_refl.
      unfold retier. unfold customer in Hu. rewrite Hu, H4.
      now apply customer_after_update.
    + rewrite R1. apply length_map.
  - intros uid u w Hq Hu H4 Hb Hfresh r.
    assert (Hne : newTier (u_visit_count u + 1) <> u_loyalty_tier u)
      by (rewrite H4, Hb; discriminate).
    destruct (updateUserLoyalty_visit_changed uid u w Hq Hu Hne Hfresh)
      as (v & w' & Hr & V1 & V2 & V3 & V4).
    pose proof (updateUserLoyalty_visit_row uid u w Hq Hu) as Hrow.
    subst r. rewrite Hr in *. cbn [fst snd] in *. rewrite H4 in *.
    split; [reflexivity | split; [exact Hrow | eauto] ].
Qed.

(** C5, the claim at a concrete input.  Carol has four visits and the
    tier Bronze and holds an active loyalty reward.  Alice redeems it:
    the call succeeds, Carol's row is as before (four visits, not five;
    Bronze, not Silver) and the table holds no new voucher. *)
Lemma redeeming_a_reward_leaves_the_count :
  let r := redeemVoucher "LOC0FFEE000001" alice world_with_reward in
  customer 7 world_with_reward = Some carol /\
  (exists view, fst r = Ret view) /\
  customer 7 (snd r) = Some carol /\
  option_map u_visit_count (customer 7 (snd r)) <> Some 5 /\
  option_map u_loyalty_tier (customer 7 (snd r)) <> Some "Silver" /\
  List.length (vouchers (snd r)) = List.length (vouchers world_with_reward).
Proof.
  vm_compute. repeat split; eauto; discriminate.
Qed.

Lemma redemption_is_not_a_visit_witness :
  customer 7 (snd (redeemVoucher "LOC0FFEE000001" alice world_with_reward))
    = Some (with_loyalty 4 "Bronze" carol).
Proof.
  apply (proj1 redemption_is_not_a_visit "LOC0FFEE000001" alice
           (sample_voucher 1 (Some 7) "LOC0FFEE000001" "loyalty_reward"
              "active" (just_after_midnight + 604800000))
           7 carol world_with_reward);
    first [reflexivity | discriminate | vm_compute; discriminate].
Defined.

(* ===================================================================== *)
(** ** Rejected redemptions *)

Lemma post_redeem_rejects (code : string) (s : Staff) (w : World) (msg : string) :
  faults w = [] ->
  match find (with_code code) (vouchers w) with
  | None => msg = "Voucher not found"
  | Some v => redeem_verdict v (clock w) = Some msg
  end ->
  fst (post_redeem (Some s) code w)
    = fst (redeem_error_response (JsError msg) w).
Proof.
  intros Hq Hm. unfold post_redeem, try_catch.
  erewrite bind_Throw by (apply redeemVoucher_rejects; eassumption).
  unfold redeem_error_response, bind, console_error, modify, failure, ret.
  cbn [message].
  repeat match goal with |- context [if ?c then _ else _] => destruct c end;
    reflexivity.
Qed.

(** C6. With a working store a rejected redemption throws one of four
    errors with distinct messages, decided by the checks in the order in
    which they are made: no voucher with the code, "Voucher not found";
    status [redeemed], "Voucher already redeemed"; otherwise expiry
    passed, "Voucher expired" (so also when the status is still
    [active]); otherwise status other than [active] (a cancelled
    voucher), "Voucher not active"; otherwise the redemption goes
    through.  [POST /redeem] answers the four with 404, 409, 410 and
    400. *)
Theorem rejections_follow_the_order_of_checks :
  forall code s w,
    faults w = [] ->
    let r := redeemVoucher code s w in
    let status := status_of (post_redeem (Some s) code w) in
    match find (with_code code) (vouchers w) with
    | None =>
        fst r = Throw (JsError "Voucher not found") /\ status = Some 404
    | Some v =>
        (v_status v = "redeemed" ->
         fst r = Throw (JsError "Voucher already redeemed") /\
         status = Some 409) /\
        (v_status v <> "redeemed" -> v_expires_at v < clock w ->
         fst r = Throw (JsError "Voucher expired") /\ status = Some 410) /\
        (v_status v <> "redeemed" -> clock w <= v_expires_at v ->
         v_status v <> "active" ->
         fst r = Throw (JsError "Voucher not active") /\ status = Some 400) /\
        (v_status v = "active" -> clock w <= v_expires_at v ->
         (exists view, fst r = Ret view) /\ status = Some 200)
    end.
Proof.
  intros code s w Hq r status. subst r status. unfold status_of.
  destruct (find (with_code code) (vouchers w)) as [v|] eqn:Hv.
  - assert (Hrej : forall msg, redeem_verdict v (clock w) = Some msg ->
               fst (redeemVoucher code s w) = Throw (JsError msg) /\
               fst (post_redeem (Some s) code w)
                 = fst (redeem_error_response (JsError msg) w)).
    { intros msg Hm. split.
      - rewrite (redeemVoucher_rejects code s w msg Hq); [reflexivity | ].
        now rewrite Hv.
      - apply post_redeem_rejects; [exact Hq | now rewrite Hv]. }
    unfold redeem_verdict in Hrej.
    split; [ | split; [ | split ] ].
    + intros H. rewrite H in Hrej.
      destruct (Hrej _ eq_refl) as [-> ->]. split; reflexivity.
    + intros H1 H2. apply String.eqb_neq in H1. rewrite H1 in Hrej.
      apply Z.ltb_lt in H2. rewrite H2 in Hrej.
      destruct (Hrej _ eq_refl) as [-> ->]. split; reflexivity.
    + intros H1 H2 H3. apply String.eqb_neq in H1, H3. rewrite H1, H3 in Hrej.
      apply Z.ltb_ge in H2. rewrite H2 in Hrej.
      destruct (Hrej _ eq_refl) as [-> ->]. split; reflexivity.
    + intros H1 H2.
      destruct (redeemVoucher_quiet code s v w Hq Hv) as (w' & Hr & _).
      { unfold redeem_verdict. rewrite H1. apply Z.ltb_ge in H2. now rewrite H2. }
      split; [rewrite Hr; cbn; eauto | ].
      unfold post_redeem, try_catch.
      erewrite bind_Ret; [ | exact Hr | reflexivity ]. reflexivity.
  - split.
    + rewrite (redeemVoucher_rejects code s w "Voucher not found" Hq);
        [reflexivity | now rewrite Hv].
    + rewrite (post_redeem_rejects code s w "Voucher not found" Hq);
        [reflexivity | now rewrite Hv].
Qed.

Lemma rejections_follow_the_order_of_checks_witness :
  fst (redeemVoucher "PRAC71FE000001" alice world_active_and_past)
    = Throw (JsError "Voucher expired") /\
  status_of (post_redeem (Some alice) "PRAC71FE000001" world_active_and_past)
    = Some 410.
Proof.
  apply (proj1 (proj2 (rejections_follow_the_order_of_checks
                         "PRAC71FE000001" alice world_active_and_past eq_refl)));
    [discriminate | reflexivity].
Defined.

(* ===================================================================== *)
(** ** A redeemed voucher stays redeemed *)

Lemma find_map_same {A} (p : A -> bool) (g : A -> A) (l : list A) :
  (forall a, p (g a) = p a) ->
  find p (map g l) = option_map g (find p l).
Proof.
  intros Hg. induction l as [|a l IH]; cbn; [reflexivity | ].
  rewrite Hg. destruct (p a); [reflexivity | exact IH].
Qed.

Lemma find_app_Some {A} (p : A -> bool) (l l' : list A) (a : A) :
  find p l = Some a -> find p (l ++ l') = Some a.
Proof.
  induction l as [|b l IH]; cbn; [discriminate | ].
  destruct (p b); [trivial | exact IH].
Qed.

Lemma ids_ok_map (g : Voucher -> Voucher) (w : World) :
  (forall v, v_id (g v) = v_id v) ->
  ids_ok w -> ids_ok (set_vouchers (map g (vouchers w)) w).
Proof.
  intros Hg [Hnd Hlt]. unfold ids_ok. cbn. split.
  - rewrite map_map. erewrite map_ext; [exact Hnd | exact Hg].
  - apply Forall_map. eapply Forall_impl; [ | exact Hlt ].
    intros v Hv. cbn. now rewrite Hg.
Qed.

(** A new row leaves both properties alone. *)
Lemma redeemed_after_insert (code : string) (v : Voucher) (w : World) :
  ids_ok w /\ redeemed_in code w ->
  (fun w => ids_ok w /\ redeemed_in code w)
    (set_next_voucher_id (next_voucher_id w + 1)
       (set_vouchers
          (vouchers w ++
             [mkVoucher (next_voucher_id w) (v_user_id v) (v_site_id v)
                (v_code v) (v_type v) (v_title v) (v_description v)
                (v_value v) (v_status v) (v_expires_at v) None None])%list w)).
Proof.
  intros [[Hnd Hlt] (v0 & Hf & Hs)]. cbn beta. split.
  - unfold ids_ok. cbn. split.
    + rewrite map_app. cbn. apply NoDup_snoc; [exact Hnd | ].
      intros Hin. apply in_map_iff in Hin. destruct Hin as (x & Ex & Hx).
      rewrite Forall_forall in Hlt. specialize (Hlt x Hx). lia.
    + apply Forall_app. split.
      * eapply Forall_impl; [ | exact Hlt ]. cbn. intros; lia.
      * repeat constructor. cbn. lia.
  - exists v0. split; [ | exact Hs ]. cbn. now apply find_app_Some.
Qed.

(** So does marking a voucher as redeemed. *)
Lemma redeemed_after_redeem (code : string) (by_ id : Z) (w : World) :
  ids_ok w /\ redeemed_in code w ->
  (fun w => ids_ok w /\ redeemed_in code w)
    (set_vouchers
       (map (fun v => if with_id id v then mark_redeemed (clock w) by_ v else v)
            (vouchers w)) w).
Proof.
  intros [Hok (v0 & Hf & Hs)]. cbn beta. split.
  - apply ids_ok_map; [ | exact Hok ]. intros v; destruct (with_id id v); reflexivity.
  - unfold redeemed_in. cbn.
    rewrite find_map_same, Hf
      by (intros a; unfold with_code; destruct (with_id id a); reflexivity).
    cbn. eexists; split; [reflexivity | ].
    destruct (with_id id v0); [reflexivity | exact Hs].
Qed.

(** The status route cannot touch a redeemed voucher: it refuses when
    the row is redeemed, and its [UPDATE] writes nothing in any case. *)
Lemma redeemed_after_patch (code : string) s id st reason :
  inv (fun w => ids_ok w /\ redeemed_in code w)
      (patch_voucher_status s id st reason).
Proof. apply inv_patch_voucher_status; unaffected. Qed.

(** Every step of a history keeps a redeemed voucher redeemed. *)
Lemma redeemed_after_step (code : string) (s : Step) (w : World) :
  ids_ok w /\ redeemed_in code w ->
  ids_ok (step s w) /\ redeemed_in code (step s w).
Proof.
  set (P := fun w => ids_ok w /\ redeemed_in code w).
  intros HP. change (P (step s w)).
  destruct s as [r | t | fs | u]; cbn [step]; try exact HP.
  assert (Hr : match r with PostStaffWifiOverride _ _ _ => False | _ => True end
               \/ exists m e x, r = PostStaffWifiOverride m e x)
    by (destruct r; eauto).
  destruct Hr as [Hr | (m & e & x & ->)].
  - apply inv_serve_ordinary; try assumption; try unaffected.
    + intros v w0 H _; now apply (redeemed_after_insert code v w0).
    + intros b i w0 H; now apply (redeemed_after_redeem code b i w0).
    + intros sid. apply inv_createStaffWiFiVoucher; try unaffected.
      intros v w0 H _; now apply (redeemed_after_insert code v w0).
    + intros; apply redeemed_after_patch.
  - cbn [serve]. apply inv_exec; [ | exact HP ].
    apply inv_post_staff_wifi_override; try unaffected.
    intros v w0 H _; now apply (redeemed_after_insert code v w0).
Qed.

Lemma redeemed_after_run (code : string) (h : list Step) (w : World) :
  ids_ok w /\ redeemed_in code w ->
  ids_ok (run h w) /\ redeemed_in code (run h w).
Proof.
  revert w. induction h as [|s h IH]; intros w HP; [exact HP | ].
  cbn. apply IH. now apply redeemed_after_step.
Qed.

Lemma select_voucher_by_code_Ret (code : string) (w w1 : World)
    (found : option VoucherView) :
  select_voucher_by_code code w = (Ret found, w1) ->
  found = option_map (join_user (users w)) (find (with_code code) (vouchers w)) /\
  vouchers w1 = vouchers w /\ next_voucher_id w1 = next_voucher_id w /\
  clock w1 = clock w.
Proof.
  unfold select_voucher_by_code, bind, external, gets.
  destruct (faults w) as [|[|] fs]; intros H; inversion H; auto.
Qed.

Lemma throw_if_Ret (c : bool) (e : Error) (w w1 : World) (u : unit) :
  throw_if c e w = (Ret u, w1) -> c = false /\ w1 = w.
Proof. destruct c; cbn; intros H; inversion H; auto. Qed.

(** A voucher that passes the checks is the row that the lookup finds,
    and its status is [active]. *)
Lemma redeem_validate_Ret (code : string) (w wa : World) (view : VoucherView) :
  redeem_validate code w = (Ret view, wa) ->
  find (with_code code) (vouchers w) = Some (vv_row view) /\
  v_status (vv_row view) = "active" /\
  vouchers wa = vouchers w /\ next_voucher_id wa = next_voucher_id w /\
  clock wa = clock w.
Proof.
  unfold redeem_validate.
  step_bind found w1 Es; try discriminate.
  apply select_voucher_by_code_Ret in Es. destruct Es as (-> & E1 & E2 & E3).
  destruct (find (with_code code) (vouchers w)) as [v|]; [ | discriminate ].
  cbn [option_map]. rewrite vv_row_join_user.
  step_bind u1 w2 T1; try discriminate. apply throw_if_Ret in T1. destruct T1 as [_ ->].
  step_bind t w3 Tn; try discriminate. inversion Tn; subst t w3.
  step_bind u2 w4 T2; try discriminate. apply throw_if_Ret in T2. destruct T2 as [_ ->].
  step_bind u3 w5 T3; try discriminate. apply throw_if_Ret in T3. destruct T3 as [T3 ->].
  intros H. inversion H; subst. rewrite vv_row_join_user.
  apply negb_false_iff, String.eqb_eq in T3. auto.
Qed.

Lemma update_voucher_redeemed_Ret (by_ id : Z) (w wb : World) (u : unit) :
  update_voucher_redeemed by_ id w = (Ret u, wb) ->
  vouchers wb =
    map (fun v => if with_id id v then mark_redeemed (clock w) by_ v else v)
        (vouchers w) /\
  next_voucher_id wb = next_voucher_id w.
Proof.
  unfold update_voucher_redeemed, bind, external, modify.
  destruct (faults w) as [|[|] fs]; intros H; inversion H; auto.
Qed.

(** A redeemed voucher does not pass the checks again. *)
Lemma redeem_validate_redeemed (code : string) (w : World) (view : VoucherView) :
  redeemed_in code w -> fst (redeem_validate code w) <> Ret view.
Proof.
  intros (v & Hf & Hs) H.
  destruct (redeem_validate code w) as [r wa] eqn:E. cbn in H. subst r.
  apply redeem_validate_Ret in E. destruct E as (E1 & E2 & _).
  rewrite Hf in E1. inversion E1; subst. rewrite Hs in E2. discriminate.
Qed.

(** The world right after a redemption has gone through. *)
Lemma redeemVoucher_Ret (code : string) (s : Staff) (w w1 : World)
    (view : VoucherView) :
  ids_ok w ->
  redeemVoucher code s w = (Ret view, w1) ->
  ids_ok w1 /\ redeemed_in code w1.
Proof.
  intros Hok H. rewrite redeemVoucher_stages in H. apply logged_Ret_inv in H.
  revert H.
  step_bind view0 wa Ev; try discriminate.
  step_bind u wb Eu; try discriminate.
  intros Hs.
  apply redeem_validate_Ret in Ev. destruct Ev as (Hf & Ha & V1 & V2 & V3).
  apply update_voucher_redeemed_Ret in Eu. destruct Eu as (U1 & U2).
  assert (HPb : ids_ok wb /\ redeemed_in code wb).
  { split.
    - destruct Hok as [Hnd Hlt]. unfold ids_ok. rewrite U1, U2, V1, V2. split.
      + rewrite map_map. erewrite map_ext; [exact Hnd | ].
        intros v; destruct (with_id _ v); reflexivity.
      + apply Forall_map. eapply Forall_impl; [ | exact Hlt ].
        intros v Hv; cbn. destruct (with_id _ v); exact Hv.
    - unfold redeemed_in. rewrite U1, V1.
      rewrite find_map_same, Hf
        by (intros a; unfold with_code;
            destruct (with_id (v_id (vv_row view0)) a); reflexivity).
      cbn. unfold with_id. rewrite Z.eqb_refl. eauto. }
  pose proof (inv_redeem_settle (fun w => ids_ok w /\ redeemed_in code w)) as K.
  specialize (K ltac:(unaffected) ltac:(unaffected) ltac:(unaffected)
                ltac:(unaffected)).
  assert (K' : inv (fun w => ids_ok w /\ redeemed_in code w)
                   (redeem_settle s view0)).
  { apply K; try unaffected.
    intros v w0 H _; now apply (redeemed_after_insert code v w0). }
  specialize (K' wb HPb). now rewrite Hs in K'.
Qed.

(** C1. Once a call of [redeemVoucher] with a code has succeeded, no
    later call with that code succeeds, whichever requests were served in
    between: it throws, and with a working store what it throws is
    "Voucher already redeemed". *)
Theorem redeem_succeeds_at_most_once :
  forall code s1 w view w1,
    ids_ok w ->
    redeemVoucher code s1 w = (Ret view, w1) ->
    forall history s2,
      let r := redeemVoucher code s2 (run history w1) in
      (forall view', fst r <> Ret view') /\
      (faults (run history w1) = [] ->
       fst r = Throw (JsError "Voucher already redeemed")).
Proof.
  intros code s1 w view w1 Hok H1 history s2 r.
  pose proof (redeemVoucher_Ret code s1 w w1 view Hok H1) as HP1.
  apply (redeemed_after_run code history) in HP1.
  destruct HP1 as [_ Hred]. subst r. split.
  - intros view'. rewrite redeemVoucher_stages, logged_fst.
    pose proof (fun v => redeem_validate_redeemed code (run history w1) v Hred) as Hv.
    step_bind v0 wa Ev; rewrite Ev in Hv; cbn in Hv |- *; try discriminate.
    now contradiction (Hv v0).
  - intros Hq. destruct Hred as (v & Hf & Hs).
    rewrite (redeemVoucher_rejects code s2 _ "Voucher already redeemed" Hq);
      [reflexivity | ].
    rewrite Hf. unfold redeem_verdict. now rewrite Hs.
Qed.

Lemma ids_ok_world_with (v : Voucher) : ids_ok (world_with v).
Proof.
  split; cbn.
  - repeat constructor. cbn. tauto.
  - repeat constructor. lia.
Qed.

Lemma redeem_succeeds_at_most_once_witness :
  fst (redeemVoucher "LOC0FFEE000001" bob
         (run sample_history
              (snd (redeemVoucher "LOC0FFEE000001" alice world_with_reward))))
    = Throw (JsError "Voucher already redeemed").
Proof.
  apply (proj2 (redeem_succeeds_at_most_once
                  "LOC0FFEE000001" alice world_with_reward
                  (mkView
                     (mark_redeemed just_after_midnight 1
                        (sample_voucher 1 (Some 7) "LOC0FFEE000001"
                           "loyalty_reward" "active"
                           (just_after_midnight + 604800000)))
                     (Some "Carol") (Some "carol@mail.example"))
                  (snd (redeemVoucher "LOC0FFEE000001" alice world_with_reward))
                  (ids_ok_world_with _)
                  ltac:(vm_compute; reflexivity)
                  sample_history bob)).
  vm_compute. reflexivity.
Defined.

(* ===================================================================== *)
(** ** One staff voucher per member and day *)

Lemma select_staff_Ret (sid : Z) (w w1 : World) (o : option Staff) :
  select_staff sid w = (Ret o, w1) ->
  o = find (fun s => s_id s =? sid) (staff w) /\
  staff w1 = staff w /\ clock w1 = clock w.
Proof.
  unfold select_staff, bind, external, gets.
  destruct (faults w) as [|[|] fs]; intros H; inversion H; auto.
Qed.

Lemma update_staff_daily_used_Ret (today : string) (sid : Z) (w w1 : World)
    (u : unit) :
  update_staff_daily_used today sid w = (Ret u, w1) ->
  staff w1 = map (fun s => if s_id s =? sid
                           then with_daily true (Some today) s else s)
                 (staff w) /\
  clock w1 = clock w.
Proof.
  unfold update_staff_daily_used, bind, external, modify.
  destruct (faults w) as [|[|] fs]; intros H; inversion H; auto.
Qed.

Lemma text_eq_refl (s : string) : Sql.text_eq (Some s) (Some s) = true.
Proof. cbn. apply String.eqb_refl. Qed.

(** Writing "used today" to any row keeps "[sid] has used today's". *)
Lemma daily_used_after_write (sid sid' : Z) (d : string) (ss : list Staff) :
  (exists s, find (fun s => s_id s =? sid) ss = Some s /\
             s_daily_voucher_used s = true /\ s_last_voucher_date s = Some d) ->
  exists s,
    find (fun s => s_id s =? sid)
         (map (fun s => if s_id s =? sid' then with_daily true (Some d) s else s) ss)
      = Some s /\
    s_daily_voucher_used s = true /\ s_last_voucher_date s = Some d.
Proof.
  intros (s & Hf & Hu & Hd).
  rewrite find_map_same, Hf by (intros a; destruct (s_id a =? sid'); reflexivity).
  cbn. eexists; split; [reflexivity | ].
  destruct (s_id s =? sid'); cbn; auto.
Qed.

(** After a successful issuance the member's row says so. *)
Lemma createStaffWiFiVoucher_sets_flag (sid : Z) (w w1 : World) (v : Voucher) :
  createStaffWiFiVoucher sid w = (Ret v, w1) ->
  daily_used_on sid (Clock.isoDate (clock w)) w1 /\ clock w1 = clock w.
Proof.
  unfold createStaffWiFiVoucher. intros H. apply logged_Ret_inv in H. revert H.
  step_bind o wa Es; try discriminate.
  apply select_staff_Ret in Es. destruct Es as (-> & S1 & S2).
  destruct (find (fun s => s_id s =? sid) (staff w)) as [s|] eqn:Hs;
    [ | discriminate ].
  step_bind t wb Et; try discriminate. inversion Et; subst t wb.
  step_bind u wc Eg; try discriminate. apply throw_if_Ret in Eg.
  destruct Eg as [_ ->].
  step_bind v0 wd Ec; try discriminate.
  pose proof (keeps_staff_createVoucher
                (staff_wifi_data s sid) wa) as K1.
  pose proof (keeps_clock_createVoucher
                (staff_wifi_data s sid) wa) as K2.
  unfold staff_wifi_data in K1, K2. rewrite Ec in K1, K2. cbn in K1, K2.
  step_bind u1 we Eu; try discriminate.
  apply update_staff_daily_used_Ret in Eu. destruct Eu as (U1 & U2).
  intros H. inversion H; subst v0 w1. split; [ | congruence ].
  unfold daily_used_on. rewrite U1, K1, S1, S2.
  rewrite find_map_same, Hs
    by (intros a; destruct (s_id a =? sid) eqn:E; cbn; rewrite ?E; reflexivity).
  cbn [option_map].
  apply find_some in Hs. destruct Hs as [_ Hs]. rewrite Hs.
  eexists; split; [reflexivity | cbn; auto].
Qed.

Lemma used_today_after_staff_wifi (sid sid' : Z) (d : string) :
  inv (used_today sid d) (createStaffWiFiVoucher sid').
Proof.
  set (Q := used_today sid d).
  assert (Qe : inv Q external) by unaffected.
  assert (Qv : forall vd, inv Q (createVoucher vd))
    by (intros vd; apply inv_createVoucher; unaffected).
  unfold createStaffWiFiVoucher. apply inv_logged; [unaffected | ].
  apply inv_bind; [apply inv_query; unaffected | intros [s|]; [ | apply inv_throw ]].
  intros w HQ. step_bind t w1 Et; inversion Et; subst t w1; clear Et.
  assert (Hd : Clock.isoDate (clock w) = d) by apply HQ. rewrite Hd.
  revert w HQ Hd.
  match goal with
  | |- forall w, Q w -> _ -> Q (snd (?m w)) =>
      assert (Hm : inv Q m); [ | intros w HQ _; now apply Hm ]
  end.
  unfold update_staff_daily_used. inv_tac.
  apply inv_modify. intros w [HQ Hd]. split; [ | exact Hd ].
  unfold daily_used_on. cbn. now apply daily_used_after_write.
Qed.

Lemma used_today_after_step (sid : Z) (d : string) (s : Step) (w : World) :
  ordinary_on d s = true ->
  used_today sid d w -> used_today sid d (step s w).
Proof.
  intros Ho HQ. destruct s as [r | t | fs | u]; cbn [step]; try exact HQ.
  - apply inv_serve_ordinary; try assumption; try unaffected.
    + intros sid'. apply used_today_after_staff_wifi.
    + intros. apply inv_patch_voucher_status; unaffected.
    + destruct r; cbn in Ho; try discriminate; exact I.
  - cbn in Ho. apply String.eqb_eq in Ho. destruct HQ as [HQ _]. split; assumption.
Qed.

Lemma used_today_after_run (sid : Z) (d : string) (h : list Step) (w : World) :
  Forall (fun s => ordinary_on d s = true) h ->
  used_today sid d w -> used_today sid d (run h w).
Proof.
  intros Hh. revert w. induction Hh as [|s h Hs Hh IH]; intros w HQ; [exact HQ | ].
  cbn. apply IH. now apply used_today_after_step.
Qed.

(** A call that returns a voucher found the gate open. *)
Lemma createStaffWiFiVoucher_Ret_gate (sid : Z) (w w1 : World) (v : Voucher) :
  createStaffWiFiVoucher sid w = (Ret v, w1) ->
  exists s, find (fun s => s_id s =? sid) (staff w) = Some s /\
            daily_gate s w = false.
Proof.
  unfold createStaffWiFiVoucher. intros H. apply logged_Ret_inv in H. revert H.
  step_bind o wa Es; try discriminate.
  apply select_staff_Ret in Es. destruct Es as (-> & S1 & S2).
  destruct (find (fun s => s_id s =? sid) (staff w)) as [s|] eqn:Hs;
    [ | discriminate ].
  step_bind t wb Et; try discriminate. inversion Et; subst t wb.
  step_bind u wc Eg; try discriminate. apply throw_if_Ret in Eg.
  destruct Eg as [Eg _]. intros _.
  exists s. split; [reflexivity | ]. unfold daily_gate. now rewrite <- S2.
Qed.

Lemma createStaffWiFiVoucher_blocked (sid : Z) (d : string) (w : World)
    (v : Voucher) :
  used_today sid d w -> fst (createStaffWiFiVoucher sid w) <> Ret v.
Proof.
  intros [(s & Hs & Hu & Hd) Hc] H.
  destruct (createStaffWiFiVoucher sid w) as [r w1] eqn:E. cbn in H. subst r.
  apply createStaffWiFiVoucher_Ret_gate in E. destruct E as (s' & Hs' & Hg).
  rewrite Hs in Hs'. inversion Hs'; subst s'.
  unfold daily_gate in Hg. rewrite Hd, Hu, Hc, text_eq_refl in Hg. discriminate.
Qed.

Lemma find_by_own_id (target : Staff) (ss : list Staff) :
  In target ss ->
  exists s, find (fun s => s_id s =? s_id target) ss = Some s.
Proof.
  intros Hin. destruct (find _ ss) as [s|] eqn:E; [eauto | ].
  apply (find_none _ _ E) in Hin. cbn in Hin. now rewrite Z.eqb_refl in Hin.
Qed.


(* ===================================================================== *)
(** ** Two redemptions of one code in flight *)

(** Run without interruption, the three stages are the call. *)
Lemma stages_are_the_call (code : string) (s : Staff) (w : World) :
  let (st1, w1) := advance code s Received w in
  let (st2, w2) := advance code s st1 w1 in
  advance code s st2 w2
    = (Settled (fst (redeemVoucher code s w)), snd (redeemVoucher code s w)).
Proof.
  rewrite redeemVoucher_stages.
  unfold advance, logged, try_catch, bind.
  destruct (redeem_validate code w) as [[view | e | ] wa]; cbn; [ | reflexivity.. ].
  destruct (redeem_update s view wa) as [[[] | e | ] wb]; cbn; [ | reflexivity.. ].
  destruct (redeem_settle s view wb) as [[r | e | ] wc]; reflexivity.
Qed.

Lemma advance_validate_ok (code : string) (s : Staff) (v : Voucher) (w : World) :
  faults w = [] ->
  find (with_code code) (vouchers w) = Some v ->
  redeem_verdict v (clock w) = None ->
  advance code s Received w = (Validated (join_user (users w) v), w).
Proof.
  intros Hq Hv Hok. unfold advance.
  erewrite logged_Ret; [reflexivity | ].
  now rewrite redeem_validate_quiet, Hv, Hok.
Qed.

Lemma advance_validate_rejected (code : string) (s : Staff) (v : Voucher)
    (msg : string) (w : World) :
  faults w = [] ->
  find (with_code code) (vouchers w) = Some v ->
  redeem_verdict v (clock w) = Some msg ->
  fst (advance code s Received w) = Settled (Throw (JsError msg)).
Proof.
  intros Hq Hv Hm. unfold advance.
  erewrite logged_Throw; [reflexivity | ].
  now rewrite redeem_validate_quiet, Hv, Hm.
Qed.

(** The [UPDATE] does not ask for the status. *)
Lemma advance_update (code : string) (s : Staff) (view : VoucherView) (w : World) :
  faults w = [] ->
  advance code s (Validated view) w
    = (Updated view,
       set_vouchers
         (map (fun v => if with_id (v_id (vv_row view)) v
                        then mark_redeemed (clock w) (s_id s) v else v)
              (vouchers w)) w).
Proof.
  intros Hq. unfold advance.
  erewrite logged_Ret; [reflexivity | ].
  unfold redeem_update, update_voucher_redeemed, bind.
  now rewrite external_quiet.
Qed.

Lemma advance_settle (code : string) (s : Staff) (view : VoucherView) (w : World) :
  faults w = [] ->
  exists w',
    advance code s (Updated view) w
      = (Settled (Ret (mkView (mark_redeemed (clock w) (s_id s) (vv_row view))
                              (vv_user_name view) (vv_user_email view))), w') /\
    vouchers w' = vouchers w /\ clock w' = clock w /\ faults w' = [].
Proof.
  intros Hq.
  destruct (redeem_settle_quiet s view w Hq)
    as (w' & Hs & S1 & _ & _ & _ & S5 & S6 & _).
  exists w'. split; [ | auto ].
  unfold advance. erewrite logged_Ret; [reflexivity | exact Hs].
Qed.

Lemma find_code_after_mark (code : string) (v : Voucher) (t by_ : Z)
    (l : list Voucher) :
  find (with_code code) l = Some v ->
  find (with_code code)
       (map (fun v' => if with_id (v_id v) v' then mark_redeemed t by_ v' else v') l)
    = Some (mark_redeemed t by_ v).
Proof.
  intros Hf.
  rewrite find_map_same, Hf
    by (intros a; unfold with_code; destruct (with_id (v_id v) a); reflexivity).
  cbn. unfold with_id. now rewrite Z.eqb_refl.
Qed.

Lemma race_tick_true code s1 s2 (l : list bool) c1 c2 w st w' :
  advance code s1 c1 w = (st, w') ->
  fold_left (race_step code s1 s2) (true :: l) (mkRace c1 c2 w)
    = fold_left (race_step code s1 s2) l (mkRace st c2 w').
Proof. intros H. cbn. unfold race_step at 2. cbn. now rewrite H. Qed.

Lemma race_tick_false code s1 s2 (l : list bool) c1 c2 w st w' :
  advance code s2 c2 w = (st, w') ->
  fold_left (race_step code s1 s2) (false :: l) (mkRace c1 c2 w)
    = fold_left (race_step code s1 s2) l (mkRace c1 st w').
Proof. intros H. cbn. unfold race_step at 2. cbn. now rewrite H. Qed.

(** One call after the other: the first commits, the second is told
    that the voucher is already redeemed. *)
Lemma race_serial (code : string) (s1 s2 : Staff) (v : Voucher) (w : World) :
  faults w = [] ->
  find (with_code code) (vouchers w) = Some v ->
  redeem_verdict v (clock w) = None ->
  exists view w',
    race code s1 s2 [true; true; true; false; false; false] w
      = mkRace (Settled (Ret view))
               (Settled (Throw (JsError "Voucher already redeemed"))) w'.
Proof.
  intros Hq Hv Hok. unfold race.
  erewrite race_tick_true by (apply advance_validate_ok; eassumption).
  erewrite race_tick_true by (apply advance_update; assumption).
  rewrite vv_row_join_user. set (w1 := set_vouchers _ w).
  destruct (advance_settle code s1 (join_user (users w) v) w1 Hq)
    as (w2 & E2 & V2 & C2 & Hq2).
  rewrite (race_tick_true _ _ _ _ _ _ _ _ _ E2).
  assert (Hv2 : find (with_code code) (vouchers w2)
                = Some (mark_redeemed (clock w) (s_id s1) v))
    by (rewrite V2; now apply find_code_after_mark).
  pose proof (advance_validate_rejected code s2 _ "Voucher already redeemed"
                w2 Hq2 Hv2 eq_refl) as Hrej.
  destruct (advance code s2 Received w2) as [st w3] eqn:E3. cbn in Hrej. subst st.
  rewrite (race_tick_false _ _ _ _ _ _ _ _ _ E3).
  erewrite race_tick_false by reflexivity.
  erewrite race_tick_false by reflexivity.
  cbn. eauto.
Qed.

(** Both calls read before either writes: both commit, and the row
    names the staff member whose write came last. *)
Lemma race_interleaved (code : string) (s1 s2 : Staff) (v : Voucher) (w : World) :
  faults w = [] ->
  find (with_code code) (vouchers w) = Some v ->
  redeem_verdict v (clock w) = None ->
  exists view1 view2 w',
    race code s1 s2 [true; false; true; false; true; false] w
      = mkRace (Settled (Ret view1)) (Settled (Ret view2)) w' /\
    option_map v_redeemed_by (find (with_code code) (vouchers w'))
      = Some (Some (s_id s2)).
Proof.
  intros Hq Hv Hok. unfold race.
  erewrite race_tick_true by (apply advance_validate_ok; eassumption).
  erewrite race_tick_false by (apply advance_validate_ok; eassumption).
  erewrite race_tick_true by (apply advance_update; assumption).
  rewrite vv_row_join_user. set (w1 := set_vouchers _ w).
  erewrite race_tick_false by (apply advance_update; assumption).
  rewrite vv_row_join_user. set (w2 := set_vouchers _ w1).
  assert (Hv2 : find (with_code code) (vouchers w2)
                = Some (mark_redeemed (clock w) (s_id s2)
                          (mark_redeemed (clock w) (s_id s1) v))).
  { unfold w2. cbn [vouchers set_vouchers].
    apply (find_code_after_mark code (mark_redeemed (clock w) (s_id s1) v)).
    unfold w1. cbn [vouchers set_vouchers]. now apply find_code_after_mark. }
  destruct (advance_settle code s1 (join_user (users w) v) w2 Hq)
    as (w3 & E3 & V3 & C3 & Hq3).
  rewrite (race_tick_true _ _ _ _ _ _ _ _ _ E3).
  destruct (advance_settle code s2 (join_user (users w) v) w3 Hq3)
    as (w4 & E4 & V4 & C4 & Hq4).
  rewrite (race_tick_false _ _ _ _ _ _ _ _ _ E4).
  cbn [fold_left]. do 3 eexists. split; [reflexivity | ].
  rewrite V4, V3, Hv2. reflexivity.
Qed.

Lemma race_serial_reversed (code : string) (s1 s2 : Staff) (v : Voucher)
    (w : World) :
  faults w = [] ->
  find (with_code code) (vouchers w) = Some v ->
  redeem_verdict v (clock w) = None ->
  exists view w',
    race code s1 s2 [false; false; false; true; true; true] w
      = mkRace (Settled (Throw (JsError "Voucher already redeemed")))
               (Settled (Ret view)) w'.
Proof.
  intros Hq Hv Hok. unfold race.
  erewrite race_tick_false by (apply advance_validate_ok; eassumption).
  erewrite race_tick_false by (apply advance_update; assumption).
  rewrite vv_row_join_user. set (w1 := set_vouchers _ w).
  destruct (advance_settle code s2 (join_user (users w) v) w1 Hq)
    as (w2 & E2 & V2 & C2 & Hq2).
  rewrite (race_tick_false _ _ _ _ _ _ _ _ _ E2).
  assert (Hv2 : find (with_code code) (vouchers w2)
                = Some (mark_redeemed (clock w) (s_id s2) v))
    by (rewrite V2; now apply find_code_after_mark).
  pose proof (advance_validate_rejected code s1 _ "Voucher already redeemed"
                w2 Hq2 Hv2 eq_refl) as Hrej.
  destruct (advance code s1 Received w2) as [st w3] eqn:E3. cbn in Hrej. subst st.
  rewrite (race_tick_true _ _ _ _ _ _ _ _ _ E3).
  erewrite race_tick_true by reflexivity.
  erewrite race_tick_true by reflexivity.
  cbn. eauto.
Qed.

(** C2, as the code has it.  Two calls of [redeemVoucher] with the code
    of an active voucher that has not expired, the store working.  When
    one call runs to its end before the other starts, the first commits
    and the second is told that the voucher is already redeemed.  The
    status is read and checked in one statement and written in another,
    and the [UPDATE] selects the row by id alone: when both calls have
    read before either writes, both commit, and the row names the staff
    member whose write came last. *)
Theorem concurrent_redemptions :
  forall code s1 s2 v w,
    faults w = [] ->
    find (with_code code) (vouchers w) = Some v ->
    v_status v = "active" ->
    clock w <= v_expires_at v ->
    (exists view w',
       race code s1 s2 [true; true; true; false; false; false] w
         = mkRace (Settled (Ret view))
                  (Settled (Throw (JsError "Voucher already redeemed"))) w') /\
    (exists view w',
       race code s1 s2 [false; false; false; true; true; true] w
         = mkRace (Settled (Throw (JsError "Voucher already redeemed")))
                  (Settled (Ret view)) w') /\
    (exists view1 view2 w',
       race code s1 s2 [true; false; true; false; true; false] w
         = mkRace (Settled (Ret view1)) (Settled (Ret view2)) w' /\
       option_map v_redeemed_by (find (with_code code) (vouchers w'))
         = Some (Some (s_id s2))).
Proof.
  intros code s1 s2 v w Hq Hv Hs Ht.
  pose proof (verdict_of_active v (clock w) Hs Ht) as Hok.
  split; [ | split ].
  - now apply (race_serial code s1 s2 v w).
  - now apply (race_serial_reversed code s1 s2 v w).
  - now apply (race_interleaved code s1 s2 v w).
Qed.

(** C2, the claim at a concrete input.  Alice and Bob redeem Carol's
    reward at the same time; each call reads the voucher before the other
    writes it.  Both calls commit. *)
Lemma both_redemptions_commit :
  let r := race "LOC0FFEE000001" alice bob
                [true; false; true; false; true; false] world_with_reward in
  committed (call1 r) = true /\ committed (call2 r) = true /\
  rejected_with "Voucher already redeemed" (call1 r) = false /\
  rejected_with "Voucher already redeemed" (call2 r) = false.
Proof. vm_compute. repeat split. Qed.

Lemma concurrent_redemptions_witness :
  exists view w',
    race "LOC0FFEE000001" alice bob [true; true; true; false; false; false]
         world_with_reward
      = mkRace (Settled (Ret view))
               (Settled (Throw (JsError "Voucher already redeemed"))) w'.
Proof.
  apply (proj1 (concurrent_redemptions "LOC0FFEE000001" alice bob
                  (sample_voucher 1 (Some 7) "LOC0FFEE000001" "loyalty_reward"
                     "active" (just_after_midnight + 604800000))
                  world_with_reward eq_refl eq_refl eq_refl
                  ltac:(vm_compute; discriminate))).
Defined.

(* ===================================================================== *)
(** ** The brute-force alert *)

Lemma auditLog_alert_quiet (ev : Event) (w : World) :
  faults w = [] ->
  String.eqb (action ev) "login_failed" = false ->
  String.eqb (action ev) "voucher_redeemed" = false ->
  auditLog_fuel 1 ev w = (Ret tt, logged_event (auditEntry ev) w).
Proof.
  intros Hq H1 H2. cbn [auditLog_fuel]. unfold auditLog_. apply try_catch_Ret.
  eapply bind_Ret; [unfold Sql.insert_audit_log; apply command_quiet, Hq | ].
  eapply bind_Ret; [apply external_quiet, Hq | ].
  now apply checkSecurityAlerts_quiet.
Qed.

(** What [auditLog] does with a failed login that has an origin. *)
Lemma auditLog_login_failed_quiet (ev : Event) (w : World) :
  faults w = [] ->
  action ev = "login_failed" ->
  Js.truthy_str (ip_address ev) = true ->
  let w1 := logged_event (auditEntry ev) w in
  let n := failed_logins_seen (ip_address ev) w1 in
  auditLog ev w =
    (Ret tt,
     if 10 <=? n then
       set_console
         (console w ++
            [ConsoleWarn
               ("SECURITY ALERT: Multiple failed login attempts from "
                  ++ match ip_address ev with
                     | Some s => s | None => EmptyString end)])%list
         (logged_event (auditEntry (brute_force_alert (ip_address ev) n)) w1)
     else w1).
Proof.
  intros Hq Ha Hip w1 n. unfold auditLog. cbn [auditLog_fuel].
  unfold auditLog_ at 1. apply try_catch_Ret.
  assert (Hq1 : faults w1 = []) by exact Hq.
  eapply bind_Ret; [unfold Sql.insert_audit_log; apply command_quiet, Hq | ].
  eapply bind_Ret; [apply external_quiet, Hq | ].
  fold w1. unfold checkSecurityAlerts_. apply try_catch_Ret.
  rewrite Ha, Hip. cbn [String.eqb Ascii.eqb Bool.eqb andb].
  eapply bind_Ret; [reflexivity | ].
  change (clock w1) with (clock w).
  assert (Hc : Sql.count_login_failed (ip_address ev)
                 (Clock.toISOString (clock w - 60 * 60 * 1000)) w1
               = (Ret n, w1))
    by (unfold Sql.count_login_failed; now rewrite query_quiet).
  destruct (10 <=? n) eqn:E.
  - eapply bind_Ret; [ | reflexivity ].
    eapply bind_Ret; [exact Hc | ]. rewrite E.
    eapply bind_Ret;
      [ fold (auditLog_fuel 1); apply auditLog_alert_quiet;
        [exact Hq1 | reflexivity | reflexivity]
      | reflexivity ].
  - eapply bind_Ret; [ | reflexivity ].
    eapply bind_Ret; [exact Hc | ]. rewrite E. reflexivity.
Qed.

Lemma brute_force_alerts_logged (e : Event) (w : World) :
  brute_force_alerts (logged_event e w) =
    brute_force_alerts w +
    (if String.eqb (action e) "security_alert"
        && match detail "alert_type" (details e) with
           | Some (JStr t) => String.eqb t "brute_force_attempt"
           | _ => false
           end
     then 1 else 0).
Proof.
  unfold brute_force_alerts, logged_event. cbn [audit_log set_audit_log set_next_audit_id].
  rewrite filter_app, length_app, Nat2Z.inj_add. f_equal.
  cbn [filter]. unfold is_brute_force_alert at 1. cbn [a_action a_details].
  destruct (_ && _); reflexivity.
Qed.

Lemma failed_logins_seen_logged (ip : option string) (e : Event) (w : World) :
  failed_logins_seen ip w <= failed_logins_seen ip (logged_event e w).
Proof.
  unfold failed_logins_seen, logged_event.
  cbn [audit_log clock set_audit_log set_next_audit_id].
  rewrite filter_app, length_app. lia.
Qed.

(** C8, as the code has it.  With a working store, recording a failed
    login that has an origin adds one [security_alert] of type
    [brute_force_attempt] when the count that the failed-login query
    returns (after the event's own row is in the table) is 10 or more,
    and none when it is less.  The rule is evaluated on every such event
    and keeps no memory of earlier alerts: an event recorded when the
    query already counted 10 or more raises the alert again. *)
Theorem alert_on_every_failure_from_the_tenth :
  forall ev w,
    faults w = [] ->
    action ev = "login_failed" ->
    Js.truthy_str (ip_address ev) = true ->
    let n := failed_logins_seen (ip_address ev) (logged_event (auditEntry ev) w) in
    exists w',
      auditLog ev w = (Ret tt, w') /\
      brute_force_alerts w' = brute_force_alerts w + (if 10 <=? n then 1 else 0) /\
      (10 <= failed_logins_seen (ip_address ev) w ->
       brute_force_alerts w' = brute_force_alerts w + 1).
Proof.
  intros ev w Hq Ha Hip n.
  pose proof (auditLog_login_failed_quiet ev w Hq Ha Hip) as H. cbv zeta in H.
  fold n in H. eexists. split; [exact H | ].
  assert (Hcount :
            brute_force_alerts
              (if 10 <=? n
               then set_console
                      (console w ++
                         [ConsoleWarn
                            ("SECURITY ALERT: Multiple failed login attempts from "
                               ++ match ip_address ev with
                                  | Some s => s | None => EmptyString end)])%list
                      (logged_event
                         (auditEntry (brute_force_alert (ip_address ev) n))
                         (logged_event (auditEntry ev) w))
               else logged_event (auditEntry ev) w)
            = brute_force_alerts w + (if 10 <=? n then 1 else 0)).
  { destruct (10 <=? n).
    - change (brute_force_alerts (set_console ?l ?x)) with (brute_force_alerts x).
      rewrite !brute_force_alerts_logged. cbn [action auditEntry]. rewrite Ha.
      cbn. lia.
    - rewrite brute_force_alerts_logged. cbn [action auditEntry]. rewrite Ha.
      cbn. lia. }
  split; [exact Hcount | ].
  intros H10. rewrite Hcount.
  pose proof (failed_logins_seen_logged (ip_address ev) (auditEntry ev) w) as Hm.
  fold n in Hm. destruct (Z.leb_spec 10 n); [reflexivity | lia].
Qed.

(** C8, the claim at a concrete input.  Failed logins from 203.0.113.5,
    one a minute from ten past midnight: the tenth raises the alert, the
    eleventh raises it again and so does the twelfth. *)
Lemma the_eleventh_failure_raises_the_alert_again :
  brute_force_alerts (run (failed_logins just_after_midnight 9) sample_world) = 0 /\
  brute_force_alerts (run (failed_logins just_after_midnight 10) sample_world) = 1 /\
  brute_force_alerts (run (failed_logins just_after_midnight 11) sample_world) = 2 /\
  brute_force_alerts (run (failed_logins just_after_midnight 12) sample_world) = 3.
Proof. vm_compute. repeat split. Qed.

Lemma alert_on_every_failure_from_the_tenth_witness :
  exists w',
    auditLog (login_failed_event "203.0.113.5" "mallory@mail.example")
             (run (failed_logins just_after_midnight 10) sample_world)
      = (Ret tt, w') /\
    brute_force_alerts w'
      = brute_force_alerts (run (failed_logins just_after_midnight 10) sample_world)
        + 1.
Proof.
  destruct (alert_on_every_failure_from_the_tenth
              (login_failed_event "203.0.113.5" "mallory@mail.example")
              (run (failed_logins just_after_midnight 10) sample_world)
              ltac:(vm_compute; reflexivity) eq_refl eq_refl)
    as (w' & H1 & _ & H3).
  exists w'. split; [exact H1 | ].
  apply H3. vm_compute. discriminate.
Defined.

(** The query compares the text of [CURRENT_TIMESTAMP] with the text of
    [toISOString()]: the same failures at noon are not counted. *)
Lemma failures_at_noon_are_not_counted :
  brute_force_alerts (run (failed_logins noon 12) sample_world) = 0 /\
  failed_logins_seen (Some "203.0.113.5")
                     (run (failed_logins noon 12) sample_world) = 0.
Proof. vm_compute. split; reflexivity. Qed.

(* ===================================================================== *)
(** ** Dates and their texts *)

Lemma rising_spec (n : nat) (z prev : Z) (acc : bool) :
  Calendar.rising n z prev acc = true ->
  acc = true /\
  forall i, z <= i < z + Z.of_nat n ->
    (let '(y, m, d) := Clock.civil_from_days i in
     1 <= m <= 12 /\ 1 <= d <= 31) /\
    (if i =? z then prev else Calendar.date_key (i - 1)) < Calendar.date_key i.
Proof.
  revert z prev acc; induction n as [|n IH]; intros z prev acc H.
  - cbn in H. split; [exact H | intros i Hi; lia].
  - cbn [Calendar.rising] in H.
    destruct (Clock.civil_from_days z) as [[y m] d] eqn:E.
    apply IH in H. destruct H as [Ha Hi].
    apply andb_true_iff in Ha. destruct Ha as [Ha Hz].
    split; [exact Ha | intros i Hr].
    destruct (Z.eqb_spec i z) as [-> | Hne].
    + unfold Calendar.date_key. rewrite E.
      repeat (apply andb_true_iff in Hz; destruct Hz as [Hz ?]). lia.
    + specialize (Hi i ltac:(lia)). destruct Hi as [Hi1 Hi2].
      split; [exact Hi1 | ].
      destruct (Z.eqb_spec i (z + 1)) as [-> | Hne'].
      * replace (z + 1 - 1) with z by ring.
        unfold Calendar.date_key at 1. now rewrite E.
      * exact Hi2.
Qed.

(** The days of the 400-year cycle that starts on 0000-03-01, and the
    first day of the next cycle. *)
Lemma cycle_checked :
  Calendar.rising (Z.to_nat 146098) (-719468) 0 true = true.
Proof. vm_compute. reflexivity. Qed.

(** Shifting a day number by whole cycles shifts the year by 400 years
    each and keeps month and day. *)
Lemma civil_from_days_cycle (z k : Z) :
  Clock.civil_from_days (z + 146097 * k) =
    let '(y, m, d) := Clock.civil_from_days z in (y + 400 * k, m, d).
Proof.
  unfold Clock.civil_from_days. cbv zeta.
  replace (z + 146097 * k + 719468) with (z + 719468 + k * 146097) by ring.
  rewrite Z.div_add by lia.
  replace (z + 719468 + k * 146097 - ((z + 719468) / 146097 + k) * 146097)
    with (z + 719468 - (z + 719468) / 146097 * 146097) by ring.
  set (doe := z + 719468 - (z + 719468) / 146097 * 146097).
  set (yoe := (doe - doe / 1460 + doe / 36524 - doe / 146096) / 365).
  f_equal. f_equal. ring.
Qed.

Lemma date_key_cycle (z k : Z) :
  Calendar.date_key (z + 146097 * k) = Calendar.date_key z + 4000000 * k.
Proof.
  unfold Calendar.date_key. rewrite civil_from_days_cycle.
  destruct (Clock.civil_from_days z) as [[y m] d]. ring.
Qed.

(** What the check of the cycle says of each of its days. *)
Lemma cycle_days_ok (i : Z) :
  -719468 <= i < -719468 + 146097 -> Calendar.day_ok i = true.
Proof.
  intros Hi. destruct (rising_spec _ _ _ _ cycle_checked) as [_ H].
  rewrite Z2Nat.id in H by lia.
  pose proof (H i ltac:(lia)) as [H1 _].
  pose proof (H (i + 1) ltac:(lia)) as [_ H2].
  destruct (Z.eqb_spec (i + 1) (-719468)) as [E | _]; [lia | ].
  replace (i + 1 - 1) with i in H2 by ring.
  unfold Calendar.day_ok. destruct (Clock.civil_from_days i) as [[y m] d].
  apply Z.ltb_lt in H2. rewrite H2.
  destruct (Z.leb_spec 1 m); destruct (Z.leb_spec m 12);
    destruct (Z.leb_spec 1 d); destruct (Z.leb_spec d 31); cbn; auto; lia.
Qed.

Lemma day_ok_cycle (z0 k : Z) :
  Calendar.day_ok z0 = true -> Calendar.day_ok (z0 + 146097 * k) = true.
Proof.
  unfold Calendar.day_ok.
  replace (z0 + 146097 * k + 1) with (z0 + 1 + 146097 * k) by ring.
  rewrite !date_key_cycle, civil_from_days_cycle.
  destruct (Clock.civil_from_days z0) as [[y m] d].
  intros H0. apply andb_true_iff in H0. destruct H0 as [H0 Hk].
  apply andb_true_iff. split; [exact H0 | ].
  apply Z.ltb_lt in Hk. apply Z.ltb_lt. lia.
Qed.

Lemma day_ok_all (z : Z) : Calendar.day_ok z = true.
Proof.
  pose proof (Z.mod_pos_bound (z + 719468) 146097 ltac:(lia)) as Hm.
  pose proof (Z.div_mod (z + 719468) 146097 ltac:(lia)) as Hd.
  replace z
    with (z - 146097 * ((z + 719468) / 146097)
          + 146097 * ((z + 719468) / 146097)) by ring.
  apply day_ok_cycle, cycle_days_ok. lia.
Qed.

Lemma civil_ranges (z y m d : Z) :
  Clock.civil_from_days z = (y, m, d) -> 1 <= m <= 12 /\ 1 <= d <= 31.
Proof.
  intros E. pose proof (day_ok_all z) as H. unfold Calendar.day_ok in H.
  rewrite E in H.
  repeat (apply andb_true_iff in H; destruct H as [H ?]).
  lia.
Qed.

Lemma date_key_succ (z : Z) : Calendar.date_key z < Calendar.date_key (z + 1).
Proof.
  pose proof (day_ok_all z) as H. unfold Calendar.day_ok in H.
  destruct (Clock.civil_from_days z) as [[y m] d].
  apply andb_true_iff in H. destruct H as [_ H]. now apply Z.ltb_lt.
Qed.

Lemma date_key_le (a b : Z) :
  a <= b -> Calendar.date_key a <= Calendar.date_key b.
Proof.
  intros H. replace b with (a + (b - a)) by ring.
  assert (Hn : 0 <= b - a) by lia. revert Hn.
  generalize (b - a). clear H b. intros n Hn.
  pattern n. apply natlike_ind; [ | | exact Hn ].
  - rewrite Z.add_0_r. lia.
  - intros x Hx IH. pose proof (date_key_succ (a + x)).
    replace (a + Z.succ x) with (a + x + 1) by lia. lia.
Qed.

Lemma date_key_lt (a b : Z) :
  a < b -> Calendar.date_key a < Calendar.date_key b.
Proof.
  intros H. pose proof (date_key_le (a + 1) b ltac:(lia)).
  pose proof (date_key_succ a). lia.
Qed.

Lemma date_key_compare (a b : Z) :
  (Calendar.date_key a ?= Calendar.date_key b) = (a ?= b).
Proof.
  destruct (Z.compare_spec a b) as [-> | H | H].
  - apply Z.compare_refl.
  - apply Z.compare_lt_iff. now apply date_key_lt.
  - apply Z.compare_gt_iff. now apply date_key_lt.
Qed.

(** From 1970 to 9999 the year has four digits. *)
Lemma civil_year_range (z y m d : Z) :
  0 <= z <= 2932896 ->
  Clock.civil_from_days z = (y, m, d) -> 1970 <= y <= 9999.
Proof.
  intros Hz E. pose proof (civil_ranges _ _ _ _ E) as Hr.
  pose proof (date_key_le 0 z ltac:(lia)) as H1.
  pose proof (date_key_le z 2932896 ltac:(lia)) as H2.
  unfold Calendar.date_key at 2 in H1. unfold Calendar.date_key at 1 in H2.
  rewrite E in H1, H2.
  change (Calendar.date_key 0) with 19700101 in H1.
  change (Calendar.date_key 2932896) with 99991231 in H2.
  lia.
Qed.

Lemma utc_day_range (t : Z) :
  Calendar.four_digit_year t -> 0 <= Calendar.utc_day t <= 2932896.
Proof.
  unfold Calendar.four_digit_year, Calendar.utc_day, Clock.ms_per_day.
  intros H. split.
  - apply Z.div_pos; lia.
  - assert (t / 86400000 < 2932897) by (apply Z.div_lt_upper_bound; lia). lia.
Qed.

(** *** Comparing texts *)

Lemma length_append (s1 s2 : string) :
  String.length (s1 ++ s2) = (String.length s1 + String.length s2)%nat.
Proof. induction s1 as [|c s1 IH]; cbn; [reflexivity | now rewrite IH]. Qed.

(** Two texts whose heads have the same length compare as the heads do,
    and as the tails when the heads are equal. *)
Lemma compare_append (p1 p2 s1 s2 : string) :
  String.length p1 = String.length p2 ->
  String.compare (p1 ++ s1) (p2 ++ s2) =
    match String.compare p1 p2 with
    | Eq => String.compare s1 s2
    | o => o
    end.
Proof.
  revert p2; induction p1 as [|c p1 IH]; intros [|c2 p2] H; cbn in *;
    try discriminate; [reflexivity | ].
  destruct (Ascii.compare c c2); auto.
Qed.

Lemma pad_length (w : nat) (n : Z) : String.length (Clock.pad w n) = w.
Proof.
  revert n; induction w as [|w IH]; intros n; cbn; [reflexivity | ].
  rewrite length_append, IH. cbn. lia.
Qed.

Lemma digit_compare (a b : Z) :
  Ascii.compare (Clock.digit a) (Clock.digit b) = (a mod 10 ?= b mod 10).
Proof.
  pose proof (Z.mod_pos_bound a 10 ltac:(lia)) as Ha.
  pose proof (Z.mod_pos_bound b 10 ltac:(lia)) as Hb.
  unfold Clock.digit, Ascii.compare.
  rewrite !N_ascii_embedding by lia.
  destruct (Z.compare_spec (a mod 10) (b mod 10)) as [E | E | E].
  - rewrite E. apply N.compare_refl.
  - apply N.compare_lt_iff. lia.
  - apply N.compare_gt_iff. lia.
Qed.

(** Numbers padded to the same width compare as texts the way they
    compare as numbers. *)
Lemma pad_compare (w : nat) (a b : Z) :
  0 <= a < 10 ^ Z.of_nat w -> 0 <= b < 10 ^ Z.of_nat w ->
  String.compare (Clock.pad w a) (Clock.pad w b) = (a ?= b).
Proof.
  revert a b; induction w as [|w IH]; intros a b Ha Hb.
  - cbn in *. assert (a = 0) by lia. assert (b = 0) by lia. now subst.
  - rewrite Nat2Z.inj_succ, Z.pow_succ_r in Ha, Hb by lia.
    cbn [Clock.pad]. rewrite compare_append by now rewrite !pad_length.
    rewrite IH.
    2: { split; [apply Z.div_pos; lia | apply Z.div_lt_upper_bound; lia]. }
    2: { split; [apply Z.div_pos; lia | apply Z.div_lt_upper_bound; lia]. }
    cbn [String.compare]. rewrite digit_compare.
    pose proof (Z.div_mod a 10 ltac:(lia)).
    pose proof (Z.div_mod b 10 ltac:(lia)).
    pose proof (Z.mod_pos_bound a 10 ltac:(lia)).
    pose proof (Z.mod_pos_bound b 10 ltac:(lia)).
    destruct (Z.compare_spec (a / 10) (b / 10));
      destruct (Z.compare_spec (a mod 10) (b mod 10));
      symmetry;
      first [ apply Z.compare_eq_iff; lia
            | apply Z.compare_lt_iff; lia
            | apply Z.compare_gt_iff; lia ].
Qed.

(** The date part of both renderings, for a year of four digits. *)
Lemma date_text_compare (year1 year2 : Z -> string) (t1 t2 : Z) :
  Calendar.four_digit_year t1 -> Calendar.four_digit_year t2 ->
  (forall y, 0 <= y <= 9999 -> year1 y = Clock.pad 4 y) ->
  (forall y, 0 <= y <= 9999 -> year2 y = Clock.pad 4 y) ->
  String.length (Clock.date_text year1 t1) = 10%nat /\
  String.length (Clock.date_text year2 t2) = 10%nat /\
  String.compare (Clock.date_text year1 t1) (Clock.date_text year2 t2)
    = (Calendar.utc_day t1 ?= Calendar.utc_day t2).
Proof.
  intros H1 H2 Y1 Y2.
  rewrite <- date_key_compare.
  unfold Clock.date_text, Calendar.date_key.
  fold (Calendar.utc_day t1). fold (Calendar.utc_day t2).
  apply utc_day_range in H1, H2.
  destruct (Clock.civil_from_days (Calendar.utc_day t1)) as [[y1 m1] d1] eqn:E1.
  destruct (Clock.civil_from_days (Calendar.utc_day t2)) as [[y2 m2] d2] eqn:E2.
  pose proof (civil_ranges _ _ _ _ E1) as R1.
  pose proof (civil_ranges _ _ _ _ E2) as R2.
  pose proof (civil_year_range _ _ _ _ H1 E1) as Q1.
  pose proof (civil_year_range _ _ _ _ H2 E2) as Q2.
  rewrite Y1, Y2 by lia.
  split; [ | split ].
  - rewrite !length_append, !pad_length. reflexivity.
  - rewrite !length_append, !pad_length. reflexivity.
  - rewrite compare_append by now rewrite !pad_length.
    rewrite pad_compare by (change (10 ^ Z.of_nat 4) with 10000; lia).
    change ("-" ++ Clock.pad 2 m1 ++ "-" ++ Clock.pad 2 d1)
      with (String "-" (Clock.pad 2 m1 ++ String "-" (Clock.pad 2 d1))).
    change ("-" ++ Clock.pad 2 m2 ++ "-" ++ Clock.pad 2 d2)
      with (String "-" (Clock.pad 2 m2 ++ String "-" (Clock.pad 2 d2))).
    cbn [String.compare].
    change (Ascii.compare "-" "-") with Eq. cbv iota.
    rewrite compare_append by now rewrite !pad_length.
    rewrite pad_compare by (change (10 ^ Z.of_nat 2) with 100; lia).
    cbn [String.compare].
    change (Ascii.compare "-" "-") with Eq. cbv iota.
    rewrite pad_compare by (change (10 ^ Z.of_nat 2) with 100; lia).
    destruct (Z.compare_spec y1 y2); destruct (Z.compare_spec m1 m2);
      destruct (Z.compare_spec d1 d2);
      symmetry;
      first [ apply Z.compare_eq_iff; lia
            | apply Z.compare_lt_iff; lia
            | apply Z.compare_gt_iff; lia ].
Qed.

Lemma iso_year_four_digits (y : Z) :
  0 <= y <= 9999 -> Clock.iso_year y = Clock.pad 4 y.
Proof.
  intros H. unfold Clock.iso_year.
  destruct (Z.leb_spec 0 y); destruct (Z.leb_spec y 9999); cbn; auto; lia.
Qed.

(** The text of [CURRENT_TIMESTAMP] against the text of [toISOString()]:
    the dates decide, and on the same date the blank comes before the
    [T]. *)
Lemma sqlite_datetime_vs_toISOString (a c : Z) :
  Calendar.four_digit_year a -> Calendar.four_digit_year c ->
  String.compare (Clock.sqlite_datetime a) (Clock.toISOString c)
    = if Calendar.utc_day a <=? Calendar.utc_day c then Lt else Gt.
Proof.
  intros Ha Hc.
  destruct (date_text_compare (Clock.pad 4) Clock.iso_year a c Ha Hc
              (fun _ _ => eq_refl) iso_year_four_digits) as (L1 & L2 & C).
  unfold Clock.sqlite_datetime, Clock.toISOString.
  rewrite compare_append by congruence. rewrite C.
  destruct (Z.compare_spec (Calendar.utc_day a) (Calendar.utc_day c)) as [E | E | E].
  - rewrite E, Z.leb_refl. reflexivity.
  - destruct (Z.leb_spec (Calendar.utc_day a) (Calendar.utc_day c)); [reflexivity | lia].
  - destruct (Z.leb_spec (Calendar.utc_day a) (Calendar.utc_day c)); [lia | reflexivity].
Qed.

(** [created_at > ?] holds for the rows of a later UTC date than that of
    the parameter, and for no other. *)
Lemma created_after_is_a_later_date (r : AuditRow) (c : Z) :
  Calendar.four_digit_year (a_created_at r) -> Calendar.four_digit_year c ->
  Sql.created_after r (Clock.toISOString c)
    = (Calendar.utc_day c <? Calendar.utc_day (a_created_at r)).
Proof.
  intros Ha Hc. unfold Sql.created_after, String.ltb.
  rewrite String.compare_antisym, sqlite_datetime_vs_toISOString by assumption.
  destruct (Z.leb_spec (Calendar.utc_day (a_created_at r)) (Calendar.utc_day c));
    destruct (Z.ltb_spec (Calendar.utc_day c) (Calendar.utc_day (a_created_at r)));
    cbn; auto; lia.
Qed.

(** [created_at < ?] holds for the rows of the date of the parameter and
    of the dates before it. *)
Lemma created_before_is_no_later_date (r : AuditRow) (c : Z) :
  Calendar.four_digit_year (a_created_at r) -> Calendar.four_digit_year c ->
  created_before r (Clock.toISOString c)
    = (Calendar.utc_day (a_created_at r) <=? Calendar.utc_day c).
Proof.
  intros Ha Hc. unfold created_before, String.ltb.
  rewrite sqlite_datetime_vs_toISOString by assumption.
  now destruct (Calendar.utc_day (a_created_at r) <=? Calendar.utc_day c).
Qed.

(* ===================================================================== *)
(** ** The alert rules and the clean-up go by dates *)

Lemma utc_day_an_hour_ago (t : Z) :
  60 * 60 * 1000 <= t mod Clock.ms_per_day ->
  Calendar.utc_day (t - 60 * 60 * 1000) = Calendar.utc_day t.
Proof.
  unfold Calendar.utc_day, Clock.ms_per_day. intros H.
  pose proof (Z.mod_pos_bound t 86400000 ltac:(lia)).
  pose proof (Z.div_mod t 86400000 ltac:(lia)).
  symmetry. apply Z.div_unique with (r := t mod 86400000 - 60 * 60 * 1000); lia.
Qed.

Lemma utc_day_le (a b : Z) : a <= b -> Calendar.utc_day a <= Calendar.utc_day b.
Proof. intros H. apply Z.div_le_mono; [reflexivity | exact H]. Qed.

Lemma four_digit_year_between (a b : Z) :
  0 <= a <= b -> Calendar.four_digit_year b -> Calendar.four_digit_year a.
Proof. unfold Calendar.four_digit_year. lia. Qed.

Lemma filter_none {A} (p : A -> bool) (l : list A) :
  Forall (fun a => p a = false) l -> filter p l = [].
Proof.
  induction 1 as [|a l Ha _ IH]; cbn; [reflexivity | now rewrite Ha].
Qed.

(** A row that is not dated after the clock is not dated after the clock
    of an hour ago either, once the day is an hour old. *)
Lemma not_created_after_an_hour_ago (r : AuditRow) (t : Z) :
  Calendar.four_digit_year t ->
  60 * 60 * 1000 <= t mod Clock.ms_per_day ->
  0 <= a_created_at r <= t ->
  Sql.created_after r (Clock.toISOString (t - 60 * 60 * 1000)) = false.
Proof.
  intros Ht Hh Hr.
  assert (H1 : 60 * 60 * 1000 <= t).
  { pose proof (Z.mod_le t Clock.ms_per_day ltac:(unfold Calendar.four_digit_year in Ht; lia)
                  ltac:(unfold Clock.ms_per_day; lia)). lia. }
  rewrite created_after_is_a_later_date.
  - rewrite utc_day_an_hour_ago by exact Hh.
    apply Z.ltb_ge. apply utc_day_le. lia.
  - now apply (four_digit_year_between _ t).
  - apply (four_digit_year_between _ t); [lia | exact Ht].
Qed.

Lemma failed_logins_seen_none (ip : option string) (w : World) :
  Calendar.four_digit_year (clock w) ->
  60 * 60 * 1000 <= clock w mod Clock.ms_per_day ->
  audit_log_in_the_past w ->
  failed_logins_seen ip w = 0.
Proof.
  intros Ht Hh Hp. unfold failed_logins_seen.
  rewrite filter_none; [reflexivity | ].
  eapply Forall_impl; [ | exact Hp ]. cbv beta. intros r Hr.
  unfold Sql.login_failed_from.
  rewrite not_created_after_an_hour_ago by assumption.
  apply andb_false_r.
Qed.

Lemma logged_event_in_the_past (e : Event) (w : World) :
  0 <= clock w -> audit_log_in_the_past w ->
  audit_log_in_the_past (logged_event e w).
Proof.
  unfold audit_log_in_the_past, logged_event.
  cbn [audit_log clock set_audit_log set_next_audit_id].
  intros Hc H. apply Forall_app. split; [exact H | ].
  repeat constructor; cbn; lia.
Qed.

(** What [auditLog] does with a redemption that has a user. *)
Lemma auditLog_voucher_redeemed_quiet (ev : Event) (w : World) :
  faults w = [] ->
  action ev = "voucher_redeemed" ->
  Js.truthy_num (user_id ev) = true ->
  let w1 := logged_event (auditEntry ev) w in
  let n := redemptions_seen (user_id ev) w1 in
  auditLog ev w =
    (Ret tt,
     if 5 <=? n
     then logged_event (auditEntry (voucher_abuse_alert (user_id ev) n)) w1
     else w1).
Proof.
  intros Hq Ha Hu w1 n. unfold auditLog. cbn [auditLog_fuel].
  unfold auditLog_ at 1. apply try_catch_Ret.
  assert (Hq1 : faults w1 = []) by exact Hq.
  eapply bind_Ret; [unfold Sql.insert_audit_log; apply command_quiet, Hq | ].
  eapply bind_Ret; [apply external_quiet, Hq | ].
  fold w1. unfold checkSecurityAlerts_. apply try_catch_Ret.
  rewrite Ha, Hu. cbn [String.eqb Ascii.eqb Bool.eqb andb].
  eapply bind_Ret; [reflexivity | ].
  eapply bind_Ret; [reflexivity | ].
  eapply bind_Ret; [reflexivity | ].
  change (clock w1) with (clock w). change (tz_offset w1) with (tz_offset w).
  assert (Hc : Sql.count_voucher_redeemed (user_id ev)
                 (Clock.toISOString (todayStart (tz_offset w) (clock w))) w1
               = (Ret n, w1))
    by (unfold Sql.count_voucher_redeemed; now rewrite query_quiet).
  eapply bind_Ret; [exact Hc | ].
  destruct (5 <=? n) eqn:E; [ | reflexivity ].
  fold (auditLog_fuel 1). apply auditLog_alert_quiet;
    [exact Hq1 | reflexivity | reflexivity].
Qed.

Lemma todayStart_utc (t : Z) :
  0 <= t ->
  Calendar.utc_day (todayStart 0 t) = Calendar.utc_day t /\
  0 <= todayStart 0 t <= t.
Proof.
  unfold todayStart, Calendar.utc_day, Clock.ms_per_day.
  rewrite Z.add_0_r, Z.sub_0_r. intros H0.
  pose proof (Z.mod_pos_bound t 86400000 ltac:(lia)).
  pose proof (Z.div_mod t 86400000 ltac:(lia)).
  assert (0 <= t / 86400000) by (apply Z.div_pos; lia).
  split; [ | lia ].
  now rewrite Z.div_mul by lia.
Qed.

Lemma redemptions_seen_none (uid : option Z) (w : World) :
  tz_offset w = 0 ->
  Calendar.four_digit_year (clock w) ->
  audit_log_in_the_past w ->
  redemptions_seen uid w = 0.
Proof.
  intros Hz Ht Hp. unfold redemptions_seen. rewrite Hz.
  assert (H0 : 0 <= clock w) by (unfold Calendar.four_digit_year in Ht; lia).
  destruct (todayStart_utc (clock w) H0) as [Hd Hs].
  rewrite filter_none; [reflexivity | ].
  eapply Forall_impl; [ | exact Hp ]. cbv beta. intros r Hr.
  unfold Sql.redeemed_by_user.
  rewrite created_after_is_a_later_date.
  - rewrite Hd.
    replace (Calendar.utc_day (clock w) <? Calendar.utc_day (a_created_at r))
      with false; [apply andb_false_r | ].
    symmetry. apply Z.ltb_ge. apply utc_day_le. lia.
  - now apply (four_digit_year_between _ (clock w)).
  - now apply (four_digit_year_between _ (clock w)).
Qed.

(** An event that triggers no rule is recorded by one row. *)
Lemma auditLog_quiet (ev : Event) (w : World) :
  faults w = [] ->
  String.eqb (action ev) "login_failed" = false ->
  String.eqb (action ev) "voucher_redeemed" = false ->
  auditLog ev w = (Ret tt, logged_event (auditEntry ev) w).
Proof.
  intros Hq H1 H2. unfold auditLog.
  rewrite (auditLog_fuel_alert 1 ev w H1 H2).
  now apply auditLog_alert_quiet.
Qed.

Lemma audit_log_logged_event (ev : Event) (w : World) :
  audit_log (logged_event (auditEntry ev) w)
    = (audit_log w ++ [audit_row ev w])%list.
Proof. reflexivity. Qed.

(** X1. The failed-login rule of [checkSecurityAlerts] compares the text
    of [created_at] with the text of [toISOString()], so it goes by UTC
    dates: a row counts when its date is later than the date of the
    instant one hour before now.  Hence, with a working store, once the
    UTC day is an hour old and no row is dated in the future, the query
    counts nothing, the failed login is recorded by its own row only and
    no brute-force alert is raised, however many failures the table
    holds. *)
Theorem no_brute_force_alert_after_the_first_hour :
  (forall r c,
     Calendar.four_digit_year (a_created_at r) -> Calendar.four_digit_year c ->
     Sql.created_after r (Clock.toISOString c)
       = (Calendar.utc_day c <? Calendar.utc_day (a_created_at r))) /\
  (forall ev w,
     faults w = [] ->
     action ev = "login_failed" ->
     Js.truthy_str (ip_address ev) = true ->
     Calendar.four_digit_year (clock w) ->
     60 * 60 * 1000 <= clock w mod Clock.ms_per_day ->
     audit_log_in_the_past w ->
     failed_logins_seen (ip_address ev) (logged_event (auditEntry ev) w) = 0 /\
     auditLog ev w = (Ret tt, logged_event (auditEntry ev) w) /\
     audit_log (snd (auditLog ev w)) = (audit_log w ++ [audit_row ev w])%list /\
     brute_force_alerts (snd (auditLog ev w)) = brute_force_alerts w).
Proof.
  split; [exact created_after_is_a_later_date | ].
  intros ev w Hq Ha Hip Ht Hh Hp.
  assert (H0 : 0 <= clock w) by (unfold Calendar.four_digit_year in Ht; lia).
  assert (Hn : failed_logins_seen (ip_address ev) (logged_event (auditEntry ev) w)
               = 0).
  { apply failed_logins_seen_none; [exact Ht | exact Hh | ].
    now apply logged_event_in_the_past. }
  pose proof (auditLog_login_failed_quiet ev w Hq Ha Hip) as H.
  cbv zeta in H. rewrite Hn in H. cbn [Z.leb Z.compare] in H.
  split; [exact Hn | split; [exact H | rewrite H; cbn [snd]; split ]].
  - reflexivity.
  - rewrite brute_force_alerts_logged. cbn [action auditEntry]. rewrite Ha.
    cbn. lia.
Qed.

(** Evaluates the table and the clock of a concrete world in a goal
    [audit_log_in_the_past w] and checks the rows one by one. *)
Ltac rows_in_the_past :=
  match goal with
  | |- audit_log_in_the_past ?w =>
      unfold audit_log_in_the_past;
      let l := eval vm_compute in (audit_log w) in
      change (audit_log w) with l;
      let c := eval vm_compute in (clock w) in
      change (clock w) with c;
      repeat (apply Forall_cons; [cbn; lia | ]); apply Forall_nil
  end.

Lemma no_brute_force_alert_after_the_first_hour_witness :
  brute_force_alerts
    (snd (auditLog (login_failed_event "203.0.113.5" "mallory@mail.example")
                   (run (failed_logins noon 12) sample_world)))
    = brute_force_alerts (run (failed_logins noon 12) sample_world).
Proof.
  apply (proj2 no_brute_force_alert_after_the_first_hour
           (login_failed_event "203.0.113.5" "mallory@mail.example")
           (run (failed_logins noon 12) sample_world)
           ltac:(vm_compute; reflexivity) eq_refl eq_refl
           ltac:(vm_compute; split; [discriminate | reflexivity])
           ltac:(vm_compute; discriminate)
           ltac:(rows_in_the_past)).
Defined.

(** X2. The redemption rule of [checkSecurityAlerts] goes by UTC dates in
    the same way: a row counts when its date is later than the date of
    the local midnight.  Where local time is UTC that date is today's, so
    with a working store and no row dated in the future the query counts
    nothing and a redemption never raises the voucher-abuse alert: it is
    recorded by its own row only. *)
Theorem no_voucher_abuse_alert_on_utc_time :
  (forall uid off t r,
     Calendar.four_digit_year (a_created_at r) ->
     Calendar.four_digit_year (todayStart off t) ->
     Sql.redeemed_by_user uid (Clock.toISOString (todayStart off t)) r
       = String.eqb (a_action r) "voucher_redeemed"
         && Sql.int_eq (a_user_id r) uid
         && (Calendar.utc_day (todayStart off t)
               <? Calendar.utc_day (a_created_at r))) /\
  (forall ev w,
     faults w = [] ->
     action ev = "voucher_redeemed" ->
     Js.truthy_num (user_id ev) = true ->
     tz_offset w = 0 ->
     Calendar.four_digit_year (clock w) ->
     audit_log_in_the_past w ->
     redemptions_seen (user_id ev) (logged_event (auditEntry ev) w) = 0 /\
     auditLog ev w = (Ret tt, logged_event (auditEntry ev) w) /\
     audit_log (snd (auditLog ev w)) = (audit_log w ++ [audit_row ev w])%list).
Proof.
  split.
  - intros uid off t r Hr Ht. unfold Sql.redeemed_by_user.
    now rewrite created_after_is_a_later_date.
  - intros ev w Hq Ha Hu Hz Ht Hp.
    assert (H0 : 0 <= clock w) by (unfold Calendar.four_digit_year in Ht; lia).
    assert (Hn : redemptions_seen (user_id ev) (logged_event (auditEntry ev) w)
                 = 0).
    { apply redemptions_seen_none; [exact Hz | exact Ht | ].
      now apply logged_event_in_the_past. }
    pose proof (auditLog_voucher_redeemed_quiet ev w Hq Ha Hu) as H.
    cbv zeta in H. rewrite Hn in H. cbn [Z.leb Z.compare] in H.
    split; [exact Hn | split; [exact H | now rewrite H ]].
Qed.

Lemma no_voucher_abuse_alert_on_utc_time_witness :
  audit_log (snd (auditLog sample_redemption (run five_redemptions sample_world)))
    = (audit_log (run five_redemptions sample_world)
         ++ [audit_row sample_redemption (run five_redemptions sample_world)])%list.
Proof.
  apply (proj2 no_voucher_abuse_alert_on_utc_time
           sample_redemption (run five_redemptions sample_world)
           ltac:(vm_compute; reflexivity) eq_refl eq_refl eq_refl
           ltac:(vm_compute; split; [discriminate | reflexivity])
           ltac:(rows_in_the_past)).
Defined.

(** *** [cleanOldAuditLogs] *)

Lemma halts_delete_audit_log_before (cutoff : string) :
  halts (delete_audit_log_before cutoff).
Proof.
  unfold delete_audit_log_before. apply halts_bind; [apply halts_external | ].
  intros _ w. cbn. discriminate.
Qed.

Lemma halts_cleanOldAuditLogs_body (w : World) :
  fst ((t <- now ;;
        changes <- delete_audit_log_before
                     (Clock.toISOString (t - 365 * 24 * 60 * 60 * 1000)) ;;
        console_log ("Cleaned " ++ NilZero.string_of_int (Z.to_int changes)
                       ++ " old audit log entries") ;;
        auditLog (audit_cleanup_event changes
                    (Clock.toISOString (t - 365 * 24 * 60 * 60 * 1000)))) w)
    <> Diverge.
Proof.
  pose proof halts_delete_audit_log_before. unfold now, console_log.
  revert w. change (halts
    (t <- gets clock ;;
     changes <- delete_audit_log_before
                  (Clock.toISOString (t - 365 * 24 * 60 * 60 * 1000)) ;;
     ret tt ;;
     auditLog (audit_cleanup_event changes
                 (Clock.toISOString (t - 365 * 24 * 60 * 60 * 1000))))).
  halts_tac.
Qed.

Lemma cleanOldAuditLogs_returns (w : World) :
  exists w', cleanOldAuditLogs w = (Ret tt, w').
Proof.
  unfold cleanOldAuditLogs. cbv zeta. apply try_catch_returns.
  - apply halts_cleanOldAuditLogs_body.
  - intros e w1. apply console_error_returns.
Qed.

Lemma cleanOldAuditLogs_quiet (w : World) :
  faults w = [] ->
  let cutoff := Clock.toISOString (clock w - 365 * 24 * 60 * 60 * 1000) in
  let kept := filter (fun r => negb (created_before r cutoff)) (audit_log w) in
  let deleted := Z.of_nat (List.length (audit_log w) - List.length kept) in
  cleanOldAuditLogs w =
    (Ret tt,
     logged_event (auditEntry (audit_cleanup_event deleted cutoff))
                  (set_audit_log kept w)).
Proof.
  intros Hq cutoff kept deleted. unfold cleanOldAuditLogs. cbv zeta.
  apply try_catch_Ret.
  eapply bind_Ret; [reflexivity | ].
  eapply bind_Ret.
  { unfold delete_audit_log_before.
    eapply bind_Ret; [apply external_quiet, Hq | reflexivity]. }
  eapply bind_Ret; [reflexivity | ].
  apply auditLog_quiet; [exact Hq | reflexivity | reflexivity].
Qed.

(** X3. [cleanOldAuditLogs] compares the text of [created_at] with the
    text of [toISOString()] too, so it deletes by UTC date: with a
    working store the rows that stay are those dated after the date of
    the instant 365 days back, and a row of that date goes even when it
    was recorded after that instant.  One [audit_cleanup] row is added,
    which holds the number of rows that went. *)
Theorem cleanup_goes_by_date :
  forall w,
    faults w = [] ->
    Calendar.four_digit_year (clock w - 365 * 24 * 60 * 60 * 1000) ->
    Forall (fun r => Calendar.four_digit_year (a_created_at r)) (audit_log w) ->
    let cutoff := clock w - 365 * 24 * 60 * 60 * 1000 in
    let kept :=
      filter (fun r => Calendar.utc_day cutoff <? Calendar.utc_day (a_created_at r))
             (audit_log w) in
    let deleted := Z.of_nat (List.length (audit_log w) - List.length kept) in
    exists w',
      cleanOldAuditLogs w = (Ret tt, w') /\
      audit_log w' =
        (kept ++ [audit_row (audit_cleanup_event deleted (Clock.toISOString cutoff))
                            w])%list /\
      (forall r, In r (audit_log w) ->
                 Calendar.utc_day (a_created_at r) = Calendar.utc_day cutoff ->
                 ~ In r kept).
Proof.
  intros w Hq Ht Hr cutoff kept deleted.
  assert (Hk : filter (fun r => negb (created_before r (Clock.toISOString cutoff)))
                      (audit_log w) = kept).
  { apply filter_ext_in. intros r Hin.
    rewrite Forall_forall in Hr.
    rewrite created_before_is_no_later_date by (auto; exact Ht).
    fold cutoff.
    destruct (Z.leb_spec (Calendar.utc_day (a_created_at r)) (Calendar.utc_day cutoff));
      destruct (Z.ltb_spec (Calendar.utc_day cutoff) (Calendar.utc_day (a_created_at r)));
      cbn; auto; lia. }
  eexists. split; [ | split ].
  - rewrite cleanOldAuditLogs_quiet by exact Hq. cbv zeta. fold cutoff.
    rewrite Hk. fold deleted. reflexivity.
  - reflexivity.
  - intros r _ Hd Hin. apply filter_In in Hin. destruct Hin as [_ Hin].
    apply Z.ltb_lt in Hin. lia.
Qed.

Lemma cleanup_goes_by_date_witness :
  exists w',
    cleanOldAuditLogs world_with_old_rows = (Ret tt, w') /\
    map a_id (audit_log w') = [3; 4].
Proof.
  destruct (cleanup_goes_by_date world_with_old_rows
              eq_refl
              ltac:(vm_compute; split; [discriminate | reflexivity])
              ltac:(repeat (apply Forall_cons;
                              [vm_compute; split; [discriminate | reflexivity] | ]);
                    apply Forall_nil))
    as (w' & H1 & H2 & _).
  exists w'. split; [exact H1 | ]. rewrite H2. vm_compute. reflexivity.
Defined.

(** X4. [cleanOldAuditLogs] never raises: whatever fails, it returns.
    When the [DELETE] itself fails, the table is as before and the error
    is on the console. *)
Theorem cleanOldAuditLogs_never_raises :
  (forall w, exists w', cleanOldAuditLogs w = (Ret tt, w')) /\
  (forall w fs,
     let r := cleanOldAuditLogs (set_faults (true :: fs) w) in
     fst r = Ret tt /\
     audit_log (snd r) = audit_log w /\
     console (snd r) =
       (console w ++ [ConsoleError "Clean old audit logs failed:" ExternalFailure])%list).
Proof.
  split; [exact cleanOldAuditLogs_returns | ].
  intros w fs. cbv zeta. repeat split.
Qed.

(* ===================================================================== *)
(** ** [createVoucher], whatever fails *)

(** An encoder call returns or fails; either way the tables and the clock
    are as before. *)
Lemma encoder_cases (tag : string) (w : World) :
  exists r w',
    logged tag external w = (r, w') /\
    (r = Ret tt \/ r = Throw ExternalFailure) /\
    vouchers w' = vouchers w /\ next_voucher_id w' = next_voucher_id w /\
    clock w' = clock w.
Proof.
  unfold logged, try_catch, external, bind, console_error, modify, throw.
  destruct (faults w) as [|[|] fs]; cbn; eauto 10.
Qed.

Lemma insert_voucher_cases (v : Voucher) (w : World) :
  match insert_voucher v w with
  | (Ret id, w') =>
      id = next_voucher_id w /\
      existsb (with_code (v_code v)) (vouchers w) = false /\
      vouchers w' =
        (vouchers w ++
           [mkVoucher (next_voucher_id w) (v_user_id v) (v_site_id v)
              (v_code v) (v_type v) (v_title v) (v_description v)
              (v_value v) (v_status v) (v_expires_at v) None None])%list /\
      next_voucher_id w' = next_voucher_id w + 1
  | (Throw _, w') =>
      vouchers w' = vouchers w /\ next_voucher_id w' = next_voucher_id w
  | (Diverge, _) => False
  end.
Proof.
  unfold insert_voucher, bind, external.
  destruct (faults w) as [|[|] fs]; cbn;
    try (destruct (existsb _ _) eqn:E; cbn); auto.
Qed.

Lemma halts_createVoucher (vd : VoucherData) : halts (createVoucher vd).
Proof.
  pose proof halts_auditLog.
  unfold createVoucher, createVoucher_, generateVoucherCode, generateQRCode, generateBarcode,
    insert_voucher, now.
  halts_tac. intros w. cbn. destruct (existsb _ _); cbn; discriminate.
Qed.

Lemma halts_createVoucher_untitled (vd : VoucherData) :
  halts (createVoucher_untitled vd).
Proof.
  pose proof halts_auditLog.
  unfold createVoucher_untitled, createVoucher_, generateVoucherCode,
    generateQRCode, generateBarcode, insert_voucher_without_title, now.
  halts_tac.
Qed.

(** The three ways in which [createVoucher] can end. *)
Lemma createVoucher_cases (vd : VoucherData) (w : World) :
  match createVoucher vd w with
  | (Ret v, w') =>
      v = new_voucher vd w /\
      fresh_code (v_code v) w /\
      vouchers w' = (vouchers w ++ [v])%list /\
      next_voucher_id w' = next_voucher_id w + 1
  | (Throw e, w') =>
      vouchers w' = vouchers w /\ next_voucher_id w' = next_voucher_id w /\
      exists ls, console w' = (ls ++ [ConsoleError "Create voucher failed:" e])%list
  | (Diverge, _) => False
  end.
Proof.
  unfold createVoucher, createVoucher_.
  set (body := bind _ _).
  assert (Hb : match body w with
               | (Ret v, w') =>
                   v = new_voucher vd w /\
                   fresh_code (v_code v) w /\
                   vouchers w' = (vouchers w ++ [v])%list /\
                   next_voucher_id w' = next_voucher_id w + 1
               | (Throw e, w') =>
                   vouchers w' = vouchers w /\
                   next_voucher_id w' = next_voucher_id w
               | (Diverge, _) => False
               end).
  { unfold body.
    step_bind code w1 Eg; rewrite generateVoucherCode_run in Eg;
      inversion Eg; subst code w1; clear Eg.
    step_bind t w2 Et; inversion Et; subst t w2; clear Et.
    unfold generateQRCode, generateBarcode.
    destruct (encoder_cases "QR code generation failed:"
                (set_drawn (drawn w + 6) w))
      as (r2 & w2 & E2 & Hr2 & V2 & N2 & C2).
    step_bind u2 w2' Eq; rewrite E2 in Eq; inversion Eq; subst; clear Eq;
      [ | cbn in *; split; congruence | destruct Hr2; discriminate ].
    destruct (encoder_cases "Barcode generation failed:" w2')
      as (r3 & w3 & E3 & Hr3 & V3 & N3 & C3).
    step_bind u3 w3' Eb; rewrite E3 in Eb; inversion Eb; subst; clear Eb;
      [ | cbn in *; split; congruence | destruct Hr3; discriminate ].
    match goal with
    | |- context [insert_voucher ?v] =>
        pose proof (insert_voucher_cases v w3') as Hi
    end.
    step_bind id w4 Ei; rewrite Ei in Hi;
      [ | destruct Hi; cbn in *; split; congruence | contradiction ].
    destruct Hi as (-> & Hfresh & V4 & N4).
    match goal with
    | |- context [auditLog ?ev] =>
        destruct (auditLog_run ev w4) as (w5 & E5 & (F1 & F2 & _) & _)
    end.
    step_bind u5 w5' Ea; rewrite E5 in Ea; inversion Ea; subst; clear Ea.
    cbn [ret]. cbn in V4, N4, Hfresh, V2, N2, C2.
    rewrite F1, F2, V4, N4. rewrite ?V3, ?N3, ?V2, ?N2.
    rewrite V3, V2 in Hfresh.
    unfold new_voucher, with_id_of, fresh_code. cbn. repeat split.
    exact Hfresh. }
  unfold logged, try_catch. destruct (body w) as [[v | e | ] w'].
  - exact Hb.
  - cbn. destruct Hb as [V N]. repeat split; auto. eauto.
  - exact Hb.
Qed.

(** X5. [createVoucher] inserts its row or leaves the table alone,
    whatever fails on the way.  When it returns, the voucher it returns is
    the one row that was added: it has the next id, status [active], the
    generated code, which no row carried before, and it expires
    [expires_in_hours] (72 if not given) after the clock.  When it throws,
    the table and the next id are as before and the error is on the
    console.  It does one or the other. *)
Theorem createVoucher_all_or_nothing :
  forall vd w,
    match createVoucher vd w with
    | (Ret v, w') =>
        vouchers w' = (vouchers w ++ [v])%list /\
        next_voucher_id w' = next_voucher_id w + 1 /\
        v_id v = next_voucher_id w /\
        v_status v = "active" /\
        v_redeemed_at v = None /\ v_redeemed_by v = None /\
        v_code v = next_code (vd_type vd) w /\
        fresh_code (v_code v) w /\
        v_expires_at v =
          clock w + match vd_expires_in_hours vd with
                    | Some h => h | None => 72 end * 60 * 60 * 1000 /\
        v_user_id v = vd_user_id vd /\ v_site_id v = vd_site_id vd /\
        v_type v = vd_type vd /\ v_value v = vd_value vd
    | (Throw e, w') =>
        vouchers w' = vouchers w /\
        next_voucher_id w' = next_voucher_id w /\
        exists ls,
          console w' = (ls ++ [ConsoleError "Create voucher failed:" e])%list
    | (Diverge, _) => False
    end.
Proof.
  intros vd w. pose proof (createVoucher_cases vd w) as H.
  destruct (createVoucher vd w) as [[v | e | ] w']; [ | exact H | exact H ].
  destruct H as (-> & Hf & V & N). repeat split; auto.
Qed.

(** ** Looking a voucher up *)

Lemma find_snoc_fresh {A} (p : A -> bool) (l : list A) (a : A) :
  existsb p l = false -> p a = true -> find p (l ++ [a]) = Some a.
Proof.
  induction l as [|b l IH]; cbn; intros H Ha.
  - now rewrite Ha.
  - apply orb_false_iff in H. destruct H as [Hb Hl]. rewrite Hb. auto.
Qed.

Lemma find_none_fresh {A} (p : A -> bool) (l : list A) :
  existsb p l = false -> find p l = None.
Proof.
  induction l as [|b l IH]; cbn; intros H; [reflexivity | ].
  apply orb_false_iff in H. destruct H as [Hb Hl]. rewrite Hb. auto.
Qed.

Lemma getVoucherByCode_quiet (code : string) (w : World) :
  faults w = [] ->
  getVoucherByCode code w =
    (Ret (option_map (join_user (users w)) (find (with_code code) (vouchers w))),
     w).
Proof.
  intros Hq. unfold getVoucherByCode, select_voucher_by_code.
  apply logged_Ret. now rewrite query_quiet.
Qed.

(** X6. A voucher that [createVoucher] has returned is found by its code:
    with a working store [getVoucherByCode] returns the row that was
    returned, with the owner's name and email joined to it.  A code that
    no row carries gives [undefined], and neither lookup changes the
    world. *)
Theorem created_voucher_is_found_by_its_code :
  (forall vd w v w1,
     faults w = [] ->
     createVoucher vd w = (Ret v, w1) ->
     getVoucherByCode (v_code v) w1
       = (Ret (Some (join_user (users w1) v)), w1)) /\
  (forall code w,
     faults w = [] ->
     fresh_code code w ->
     getVoucherByCode code w = (Ret None, w)).
Proof.
  split.
  - intros vd w v w1 Hq E.
    pose proof (createVoucher_cases vd w) as H. rewrite E in H.
    destruct H as (_ & Hf & V & _).
    pose proof (calm_createVoucher vd w Hq) as Hq1. rewrite E in Hq1.
    rewrite getVoucherByCode_quiet by exact Hq1. rewrite V.
    rewrite find_snoc_fresh; [reflexivity | exact Hf | ].
    unfold with_code. apply String.eqb_refl.
  - intros code w Hq Hf. rewrite getVoucherByCode_quiet by exact Hq.
    unfold fresh_code in Hf. now rewrite find_none_fresh.
Qed.

Lemma created_voucher_is_found_by_its_code_witness :
  getVoucherByCode (v_code (new_voucher sample_premium sample_world))
                   (snd (createVoucher sample_premium sample_world))
    = (Ret (Some (join_user
                    (users (snd (createVoucher sample_premium sample_world)))
                    (new_voucher sample_premium sample_world))),
       snd (createVoucher sample_premium sample_world)).
Proof.
  apply (proj1 created_voucher_is_found_by_its_code
           sample_premium sample_world
           (new_voucher sample_premium sample_world)
           (snd (createVoucher sample_premium sample_world))
           eq_refl).
  vm_compute. reflexivity.
Defined.

(* ===================================================================== *)
(** ** [GET /lookup/:code] and [POST /redeem] *)

Lemma get_lookup_quiet (staff : Staff) (code : string) (w : World) :
  faults w = [] ->
  get_lookup (Some staff) code w =
    (Ret match find (with_code code) (vouchers w) with
         | None => mkResponse 404 (Some "Voucher not found") None
         | Some v =>
             mkResponse 200 None
               (Some (mkLookup (join_user (users w) v)
                               (v_expires_at v <? clock w)
                               (String.eqb (v_status v) "redeemed")))
         end, w).
Proof.
  intros Hq. unfold get_lookup. apply try_catch_Ret.
  eapply bind_Ret; [now apply getVoucherByCode_quiet | ].
  destruct (find (with_code code) (vouchers w)) as [v|]; cbn [option_map];
    [ | reflexivity ].
  eapply bind_Ret; [reflexivity | ]. now rewrite vv_row_join_user.
Qed.

Lemma post_redeem_ok (code : string) (s : Staff) (v : Voucher) (w : World) :
  faults w = [] ->
  find (with_code code) (vouchers w) = Some v ->
  redeem_verdict v (clock w) = None ->
  exists w',
    post_redeem (Some s) code w
      = (Ret (mkResponse 200 None
                (Some (mkView (mark_redeemed (clock w) (s_id s) v)
                              (vv_user_name (join_user (users w) v))
                              (vv_user_email (join_user (users w) v))))),
         w') /\
    redeemed_world s v w w'.
Proof.
  intros Hq Hf Hv.
  destruct (redeemVoucher_quiet code s v w Hq Hf Hv) as (w' & E & Hw).
  exists w'. split; [ | exact Hw ].
  unfold post_redeem. apply try_catch_Ret.
  eapply bind_Ret; [exact E | reflexivity].
Qed.

Lemma post_redeem_refused (code : string) (s : Staff) (v : Voucher)
    (msg : string) (w : World) :
  faults w = [] ->
  find (with_code code) (vouchers w) = Some v ->
  redeem_verdict v (clock w) = Some msg ->
  status_of (post_redeem (Some s) code w) <> Some 200.
Proof.
  intros Hq Hf Hv. unfold status_of.
  rewrite (post_redeem_rejects code s w msg Hq) by now rewrite Hf.
  unfold redeem_verdict in Hv.
  destruct (String.eqb (v_status v) "redeemed");
    [ | destruct (v_expires_at v <? clock w);
        [ | destruct (negb (String.eqb (v_status v) "active")) ] ];
    inversion Hv; subst msg; cbn; discriminate.
Qed.




(** X8. A redemption that went through shows in the lookup: with a
    working store, after [POST /redeem] has answered 200 for a code,
    [GET /lookup/:code] answers with the row marked [redeemed], redeemed
    by the staff member of the request at the instant of the request, and
    [is_redeemed] set. *)
Theorem redeemed_voucher_shows_in_lookup :
  forall s1 s2 code w,
    faults w = [] ->
    status_of (post_redeem (Some s1) code w) = Some 200 ->
    exists v lk,
      find (with_code code) (vouchers w) = Some v /\
      fst (get_lookup (Some s2) code (snd (post_redeem (Some s1) code w)))
        = Ret (mkResponse 200 None (Some lk)) /\
      vv_row (lk_voucher lk) = mark_redeemed (clock w) (s_id s1) v /\
      is_redeemed lk = true.
Proof.
  intros s1 s2 code w Hq H200.
  destruct (find (with_code code) (vouchers w)) as [v|] eqn:Hf.
  2: { exfalso. revert H200. unfold status_of.
       rewrite (post_redeem_rejects code s1 w "Voucher not found" Hq)
         by now rewrite Hf.
       discriminate. }
  destruct (redeem_verdict v (clock w)) as [msg|] eqn:Hv.
  { exfalso. now apply (post_redeem_refused code s1 v msg w Hq Hf Hv). }
  destruct (post_redeem_ok code s1 v w Hq Hf Hv) as (w' & E & Hw).
  rewrite E. cbn [snd].
  destruct Hw as (V & U & _ & _ & C & F & _).
  rewrite (get_lookup_quiet s2 code w' F). rewrite V.
  rewrite (find_code_after_mark code v (clock w) (s_id s1) _ Hf).
  exists v. eexists. split; [reflexivity | split; [reflexivity | ]].
  cbn [lk_voucher is_redeemed]. rewrite vv_row_join_user. split; reflexivity.
Qed.

Lemma redeemed_voucher_shows_in_lookup_witness :
  exists v lk,
    find (with_code "LOC0FFEE000001") (vouchers world_with_reward) = Some v /\
    fst (get_lookup (Some bob) "LOC0FFEE000001"
           (snd (post_redeem (Some alice) "LOC0FFEE000001" world_with_reward)))
      = Ret (mkResponse 200 None (Some lk)) /\
    vv_row (lk_voucher lk) = mark_redeemed (clock world_with_reward) 1 v /\
    is_redeemed lk = true.
Proof.
  apply (redeemed_voucher_shows_in_lookup alice bob "LOC0FFEE000001"
           world_with_reward eq_refl).
  vm_compute. reflexivity.
Defined.

(* ===================================================================== *)
(** ** Every handler answers *)

Lemma halts_insert_voucher (v : Voucher) : halts (insert_voucher v).
Proof.
  unfold insert_voucher. apply halts_bind; [apply halts_external | ].
  intros _ w. cbn. destruct (existsb _ _); cbn; discriminate.
Qed.

#[export] Hint Resolve halts_insert_voucher halts_createVoucher
  halts_createVoucher_untitled : halts.

Lemma halts_createLoyaltyReward uid tier visits :
  halts (createLoyaltyReward uid tier visits).
Proof.
  unfold createLoyaltyReward, select_user.
  destruct (rewards _) as [[[title description] value]|]; halts_tac.
Qed.

#[export] Hint Resolve halts_createLoyaltyReward : halts.

Lemma halts_updateUserLoyalty uid act : halts (updateUserLoyalty uid act).
Proof.
  unfold updateUserLoyalty, select_user, update_user_loyalty. halts_tac.
Qed.

#[export] Hint Resolve halts_updateUserLoyalty : halts.

Lemma halts_redeemVoucher code s : halts (redeemVoucher code s).
Proof.
  unfold redeemVoucher, select_voucher_by_code, update_voucher_redeemed, now.
  halts_tac.
Qed.

Lemma halts_createPremiumWiFiVoucher sid amount :
  halts (createPremiumWiFiVoucher sid amount).
Proof. unfold createPremiumWiFiVoucher, select_staff. halts_tac. Qed.

Lemma halts_createStaffWiFiVoucher sid : halts (createStaffWiFiVoucher sid).
Proof.
  unfold createStaffWiFiVoucher, select_staff, update_staff_daily_used, now.
  halts_tac.
Qed.

#[export] Hint Resolve halts_redeemVoucher halts_createPremiumWiFiVoucher
  halts_createStaffWiFiVoucher : halts.

Lemma halts_failure {A} (status : Z) (error : string) :
  halts (@failure A status error).
Proof. unfold failure. auto with halts. Qed.

#[export] Hint Resolve halts_failure : halts.

(** A [try]/[catch] whose handler answers gives an answer when its body
    ends. *)
Lemma try_catch_answers {A} (m : M A) (h : Error -> M A) (w : World) :
  fst (m w) <> Diverge ->
  (forall e w1, exists a w', h e w1 = (Ret a, w')) ->
  exists a w', try_catch m h w = (Ret a, w').
Proof.
  intros Hm Hh. unfold try_catch. destruct (m w) as [[a | e | ] w1]; cbn in *.
  - eauto.
  - apply Hh.
  - contradiction.
Qed.

Lemma failure_after_error {A} (tag : string) (status : Z) (msg : string)
    (e : Error) (w1 : World) :
  exists (a : Response A) w',
    (console_error tag e ;; failure status msg) w1 = (Ret a, w').
Proof. eexists. eexists. reflexivity. Qed.

(** X9. Every handler of the voucher routes answers: whatever the store,
    the encoders or the logger do, the handler ends with a response and
    lets no error out (the server ends its process on a rejection that
    nobody handles).  When the first call to the store fails, the answer
    is 500. *)
Theorem handlers_always_answer :
  (forall s code w, exists r w', post_redeem s code w = (Ret r, w')) /\
  (forall s amount receipt w,
     exists r w', post_premium_wifi s amount receipt w = (Ret r, w')) /\
  (forall s w, exists r w', post_staff_wifi s w = (Ret r, w')) /\
  (forall s email reason w,
     exists r w', post_staff_wifi_override s email reason w = (Ret r, w')) /\
  (forall s id st reason w,
     exists r w', patch_voucher_status s id st reason w = (Ret r, w')) /\
  (forall s code w, exists r w', get_lookup s code w = (Ret r, w')) /\
  (forall order c uid st w,
     exists r w', get_user_vouchers order c uid st w = (Ret r, w')) /\
  (forall s code amount receipt email reason id st why w fs,
     let w1 := set_faults (true :: fs) w in
     status_of (post_redeem (Some s) code w1) = Some 500 /\
     status_of (post_premium_wifi (Some s) amount receipt w1) = Some 500 /\
     status_of (post_staff_wifi (Some s) w1) = Some 500 /\
     status_of (post_staff_wifi_override s email reason w1) = Some 500 /\
     status_of (patch_voucher_status s id st why w1) = Some 500 /\
     status_of (get_lookup (Some s) code w1) = Some 500).
Proof.
  repeat match goal with |- _ /\ _ => split end.
  - intros s code w. unfold post_redeem. apply try_catch_answers.
    + revert w. change (halts (match s with
                               | None => failure 403 "Staff access required"
                               | Some staff =>
                                   redeemedVoucher <- redeemVoucher code staff ;;
                                   ret (mkResponse 200 None (Some redeemedVoucher))
                               end)).
      halts_tac.
    + intros e w1. unfold redeem_error_response, bind, console_error, modify,
        failure, ret.
      repeat match goal with |- context [if ?c then _ else _] => destruct c end;
        eauto.
  - intros s amount receipt w. unfold post_premium_wifi.
    apply try_catch_answers; [ | intros; apply failure_after_error ].
    revert w.
    match goal with |- forall w, fst (?m w) <> Diverge => change (halts m) end.
    halts_tac.
  - intros s w. unfold post_staff_wifi. apply try_catch_answers.
    + revert w.
      match goal with |- forall w, fst (?m w) <> Diverge => change (halts m) end.
      halts_tac.
    + intros e w1. unfold bind, console_error, modify, failure, ret.
      destruct (Js.includes _ _); eauto.
  - intros s email reason w. unfold post_staff_wifi_override.
    apply try_catch_answers; [ | intros; apply failure_after_error ].
    revert w.
    match goal with |- forall w, fst (?m w) <> Diverge => change (halts m) end.
    unfold select_staff_by_email, reset_staff_daily_used. halts_tac.
  - intros s id st reason w. unfold patch_voucher_status.
    apply try_catch_answers; [ | intros; apply failure_after_error ].
    revert w.
    match goal with |- forall w, fst (?m w) <> Diverge => change (halts m) end.
    unfold select_voucher_by_id, update_voucher_status. halts_tac.
  - intros s code w. unfold get_lookup.
    apply try_catch_answers; [ | intros; apply failure_after_error ].
    revert w.
    match goal with |- forall w, fst (?m w) <> Diverge => change (halts m) end.
    unfold getVoucherByCode, select_voucher_by_code, now. halts_tac.
  - intros order c uid st w. unfold get_user_vouchers.
    apply try_catch_answers; [ | intros; apply failure_after_error ].
    revert w.
    match goal with |- forall w, fst (?m w) <> Diverge => change (halts m) end.
    unfold getUserVouchers, select_vouchers_of_user. halts_tac.
  - intros s code amount receipt email reason id st why w fs. cbv zeta.
    repeat split.
Qed.

(* ===================================================================== *)
(** ** Issuing WiFi vouchers *)

(** With a working store and a code that no voucher carries, the world
    after [createVoucher] is the world with the row inserted and the
    creation recorded. *)
Lemma createVoucher_exact (vd : VoucherData) (w : World) :
  faults w = [] ->
  fresh_code (next_code (vd_type vd) w) w ->
  createVoucher vd w =
    (Ret (new_voucher vd w),
     logged_event
       (auditEntry (voucher_created_event vd (new_voucher vd w)))
       (inserted (new_voucher vd w) w)).
Proof.
  intros Hq Hfresh. unfold createVoucher, createVoucher_.
  set (w1 := set_drawn (drawn w + 6) w).
  assert (Hq1 : faults w1 = []) by exact Hq.
  apply logged_Ret.
  eapply bind_Ret; [apply generateVoucherCode_run | ].
  eapply bind_Ret; [reflexivity | ].
  unfold generateQRCode, generateBarcode.
  eapply bind_Ret; [apply (encoders_quiet w1 Hq1) | ].
  eapply bind_Ret; [apply (encoders_quiet w1 Hq1) | ].
  eapply bind_Ret with (a := next_voucher_id w)
                       (w1 := inserted (new_voucher vd w) w).
  - unfold insert_voucher. eapply bind_Ret; [apply external_quiet, Hq1 | ].
    cbn. unfold fresh_code in Hfresh. rewrite Hfresh. reflexivity.
  - eapply bind_Ret; [ | reflexivity ].
    apply (auditLog_quiet
             (voucher_created_event vd (new_voucher vd w))
             (inserted (new_voucher vd w) w)); [exact Hq | | ]; reflexivity.
Qed.




Lemma text_eq_other (a b : string) :
  a <> b -> Sql.text_eq (Some a) (Some b) = false.
Proof. intros H. cbn. now apply String.eqb_neq. Qed.

(** X11. The daily allowance lapses with the date: after
    [createStaffWiFiVoucher] has issued a voucher to a staff member, a
    call at an instant of another UTC date goes through again (the store
    working and the generated code being free), with no override and
    although [daily_voucher_used] still says 1. *)
Theorem staff_allowance_lapses_with_the_date :
  forall sid w v w1 t,
    faults w = [] ->
    createStaffWiFiVoucher sid w = (Ret v, w1) ->
    Clock.isoDate t <> Clock.isoDate (clock w) ->
    fresh_code (next_code "staff_wifi" w1) w1 ->
    daily_used_on sid (Clock.isoDate (clock w)) (set_clock t w1) /\
    exists v', fst (createStaffWiFiVoucher sid (set_clock t w1)) = Ret v'.
Proof.
  intros sid w v w1 t Hq E Hd Hfresh.
  pose proof (calm_createStaffWiFiVoucher sid w Hq) as Hq1. rewrite E in Hq1.
  cbn [snd] in Hq1.
  apply createStaffWiFiVoucher_sets_flag in E. destruct E as [Hu Hc].
  split; [exact Hu | ].
  destruct Hu as (s & Hs & Hused & Hdate).
  destruct (createStaffWiFiVoucher_quiet sid s (set_clock t w1)) as (w2 & R & _).
  - exact Hq1.
  - exact Hs.
  - unfold daily_gate. rewrite Hdate. cbn [clock set_clock].
    rewrite text_eq_other by congruence. reflexivity.
  - exact Hfresh.
  - rewrite R. cbn. eauto.
Qed.

Lemma staff_allowance_lapses_with_the_date_witness :
  exists v',
    fst (createStaffWiFiVoucher 1
           (set_clock (just_after_midnight + 86400000)
                      (snd (createStaffWiFiVoucher 1 sample_world))))
      = Ret v'.
Proof.
  apply (staff_allowance_lapses_with_the_date 1 sample_world
           (new_voucher (staff_wifi_data alice 1) sample_world)
           (snd (createStaffWiFiVoucher 1 sample_world))
           (just_after_midnight + 86400000)
           eq_refl
           ltac:(vm_compute; reflexivity)
           ltac:(vm_compute; discriminate)
           ltac:(vm_compute; reflexivity)).
Defined.

(** X12. [createStaffWiFiVoucher] writes the flag after the voucher and
    takes nothing back: when the voucher was created and the [UPDATE] of
    the flag fails, the call throws that error, the voucher stays in the
    table and the [staff] table is as before, so that the member's
    allowance of the day is still there. *)
Theorem issued_voucher_survives_a_failed_flag_update :
  forall sid w s w1 v w2 e w3,
    select_staff sid w = (Ret (Some s), w1) ->
    daily_gate s w1 = false ->
    createVoucher (staff_wifi_data s sid) w1 = (Ret v, w2) ->
    update_staff_daily_used (Clock.isoDate (clock w1)) sid w2 = (Throw e, w3) ->
    let r := createStaffWiFiVoucher sid w in
    fst r = Throw e /\
    In v (vouchers (snd r)) /\
    staff (snd r) = staff w.
Proof.
  intros sid w s w1 v w2 e w3 Hs Hg Hc Hu r.
  assert (E : createStaffWiFiVoucher sid w =
              (Throw e,
               set_console
                 (console w3
                    ++ [ConsoleError "Create staff WiFi voucher failed:" e])%list
                 w3)).
  { unfold createStaffWiFiVoucher. apply logged_Throw.
    eapply bind_Ret; [exact Hs | ].
    eapply bind_Ret; [reflexivity | ].
    eapply bind_Ret; [unfold daily_gate in Hg; now rewrite Hg | ].
    eapply bind_Ret; [exact Hc | ].
    apply bind_Throw. exact Hu. }
  subst r. rewrite E. cbn [fst snd]. split; [reflexivity | split].
  - apply createVoucher_Ret in Hc. cbn [vouchers set_console].
    unfold update_staff_daily_used, bind, external, modify in Hu.
    destruct (faults w2) as [|[|] fs]; inversion Hu; subst. exact Hc.
  - pose proof (createStaffWiFiVoucher_failure_keeps_staff sid w) as K.
    rewrite E in K. cbn [fst snd] in K. apply K. intros v0. discriminate.
Qed.

Lemma issued_voucher_survives_a_failed_flag_update_witness :
  let r := createStaffWiFiVoucher 1 world_failing_at_the_flag in
  fst r = Throw ExternalFailure /\
  In (new_voucher (staff_wifi_data alice 1) sample_world) (vouchers (snd r)) /\
  staff (snd r) = staff world_failing_at_the_flag.
Proof.
  apply (issued_voucher_survives_a_failed_flag_update 1
           world_failing_at_the_flag alice
           (set_faults [false; false; false; false; false; true] sample_world)
           (new_voucher (staff_wifi_data alice 1) sample_world)
           (snd (createVoucher (staff_wifi_data alice 1)
                   (set_faults [false; false; false; false; false; true]
                               sample_world)))
           ExternalFailure
           (set_faults []
              (snd (createVoucher (staff_wifi_data alice 1)
                      (set_faults [false; false; false; false; false; true]
                                  sample_world)))));
    vm_compute; reflexivity.
Defined.

(* ===================================================================== *)
(** ** The manager override *)


Lemma post_staff_wifi_refused (member : Staff) (w : World) :
  faults w = [] ->
  daily_used_on (s_id member) (Clock.isoDate (clock w)) w ->
  status_of (post_staff_wifi (Some member) w) = Some 409.
Proof.
  intros Hq (s & Hs & Hu & Hl).
  unfold status_of, post_staff_wifi, try_catch.
  erewrite bind_Throw.
  2:{ apply (createStaffWiFiVoucher_gate (s_id member) s w Hq Hs).
      unfold daily_gate. rewrite Hl, Hu, text_eq_refl. reflexivity. }
  reflexivity.
Qed.



(** X14. The override resets the flag before it issues the voucher and
    takes nothing back: when the issuing fails after the reset, the
    route answers 500 and the member's [daily_voucher_used] stays 0,
    whatever it was before. *)
Theorem failed_override_leaves_the_flag_cleared :
  forall manager staffEmail reason w target w1 w2 e w3,
    select_staff_by_email staffEmail w = (Ret (Some target), w1) ->
    reset_staff_daily_used (s_id target) w1 = (Ret tt, w2) ->
    createStaffWiFiVoucher (s_id target) w2 = (Throw e, w3) ->
    let r := post_staff_wifi_override manager staffEmail reason w in
    status_of r = Some 500 /\
    staff (snd r) =
      map (fun s => if s_id s =? s_id target
                    then with_daily false (s_last_voucher_date s) s else s)
          (staff w) /\
    forall s, find (fun s => s_id s =? s_id target) (staff (snd r)) = Some s ->
              s_daily_voucher_used s = false.
Proof.
  intros manager staffEmail reason w target w1 w2 e w3 Hs Hr Hc r.
  assert (E : post_staff_wifi_override manager staffEmail reason w =
              (Ret (mkResponse 500
                      (Some "Failed to override staff WiFi voucher") None),
               set_console
                 (console w3 ++ [ConsoleError "Staff WiFi override error:" e])%list
                 w3)).
  { unfold post_staff_wifi_override, try_catch.
    erewrite bind_Ret; [ | exact Hs | ].
    2:{ eapply bind_Ret; [exact Hr | ]. apply bind_Throw. exact Hc. }
    reflexivity. }
  assert (K1 : staff w1 = staff w).
  { unfold select_staff_by_email, bind, external, gets in Hs.
    destruct (faults w) as [|[|] fs]; inversion Hs; reflexivity. }
  assert (K2 : staff w2 =
               map (fun s => if s_id s =? s_id target
                             then with_daily false (s_last_voucher_date s) s
                             else s) (staff w1)).
  { unfold reset_staff_daily_used, bind, external, modify in Hr.
    destruct (faults w1) as [|[|] fs]; inversion Hr; reflexivity. }
  assert (K3 : staff w3 = staff w2).
  { pose proof (createStaffWiFiVoucher_failure_keeps_staff (s_id target) w2) as K.
    rewrite Hc in K. cbn [fst snd] in K. apply K. intros v. discriminate. }
  subst r. rewrite E. cbn [fst snd staff set_console].
  rewrite K3, K2, K1. split; [reflexivity | split; [reflexivity | ]].
  intros s Hf. apply find_some in Hf. destruct Hf as [Hin Hid].
  apply in_map_iff in Hin. destruct Hin as (s0 & Hs0 & _).
  destruct (s_id s0 =? s_id target) eqn:E0.
  - now subst s.
  - subst s. congruence.
Qed.

Lemma failed_override_leaves_the_flag_cleared_witness :
  let r := post_staff_wifi_override bob "alice@cafe.example" "lost her phone"
             world_failing_in_the_override in
  status_of r = Some 500 /\
  option_map s_daily_voucher_used (find (fun s => s_id s =? 1) (staff (snd r)))
    = Some false.
Proof.
  cbv zeta.
  destruct (failed_override_leaves_the_flag_cleared bob "alice@cafe.example"
              "lost her phone" world_failing_in_the_override
              (with_daily true (Some "2023-11-15") alice)
              (set_faults [false; false; true] world_after_alices_voucher)
              (snd (reset_staff_daily_used 1
                      (set_faults [false; false; true] world_after_alices_voucher)))
              ExternalFailure
              (snd (createStaffWiFiVoucher 1
                      (snd (reset_staff_daily_used 1
                              (set_faults [false; false; true]
                                          world_after_alices_voucher)))))
              ltac:(vm_compute; reflexivity) ltac:(vm_compute; reflexivity)
              ltac:(vm_compute; reflexivity))
    as (H1 & H2 & H3).
  split; [exact H1 | ].
  rewrite H2. vm_compute. reflexivity.
Defined.

(* ===================================================================== *)
(** ** Rows that are not there *)

(** X15. What the functions do when the row they read is missing (the
    store working).  [createStaffWiFiVoucher] and
    [createPremiumWiFiVoucher] for an id that no staff row has, and
    [createLoyaltyReward] for an id that no user row has, fail with the
    [TypeError] of reading a property of [undefined], before a code is
    drawn or a row is written: the world gains the console line only.
    [updateUserLoyalty] for an id that no user row has returns
    [undefined] and changes nothing. *)
Theorem missing_rows :
  (forall sid w,
     faults w = [] ->
     find (fun s => s_id s =? sid) (staff w) = None ->
     createStaffWiFiVoucher sid w =
       (Throw (undefined_property "last_voucher_date"),
        set_console
          (console w ++
             [ConsoleError "Create staff WiFi voucher failed:"
                (undefined_property "last_voucher_date")])%list w)) /\
  (forall sid amount w,
     faults w = [] ->
     find (fun s => s_id s =? sid) (staff w) = None ->
     createPremiumWiFiVoucher sid amount w =
       (Throw (undefined_property "site_id"),
        set_console
          (console w ++
             [ConsoleError "Create premium WiFi voucher failed:"
                (undefined_property "site_id")])%list w)) /\
  (forall uid tier visits reward w,
     faults w = [] ->
     rewards (toLowerCase tier) = Some reward ->
     customer uid w = None ->
     createLoyaltyReward uid tier visits w =
       (Throw (undefined_property "site_id"),
        set_console
          (console w ++
             [ConsoleError "Create loyalty reward failed:"
                (undefined_property "site_id")])%list w)) /\
  (forall uid action_ w,
     faults w = [] ->
     customer uid w = None ->
     updateUserLoyalty uid action_ w = (Ret None, w)).
Proof.
  repeat match goal with |- _ /\ _ => split end.
  - intros sid w Hq Hn. unfold createStaffWiFiVoucher. apply logged_Throw.
    eapply bind_Ret; [now apply select_staff_quiet | now rewrite Hn].
  - intros sid amount w Hq Hn. unfold createPremiumWiFiVoucher.
    apply logged_Throw.
    eapply bind_Ret; [now apply select_staff_quiet | now rewrite Hn].
  - intros uid tier visits [[title description] value] w Hq Hr Hn.
    unfold createLoyaltyReward. rewrite Hr. apply logged_Throw.
    eapply bind_Ret; [now apply select_user_quiet | now rewrite Hn].
  - intros uid action_ w Hq Hn. unfold updateUserLoyalty. apply logged_Ret.
    eapply bind_Ret; [now apply select_user_quiet | now rewrite Hn].
Qed.

Lemma missing_rows_witness :
  fst (createStaffWiFiVoucher 99 sample_world)
    = Throw (TypeError
               "Cannot read properties of undefined (reading 'last_voucher_date')") /\
  updateUserLoyalty 99 "visit" sample_world = (Ret None, sample_world).
Proof.
  split.
  - rewrite (proj1 missing_rows 99 sample_world eq_refl eq_refl). reflexivity.
  - exact (proj2 (proj2 (proj2 missing_rows)) 99 "visit" sample_world
             eq_refl eq_refl).
Defined.

(* ===================================================================== *)
(** ** Visits and their rewards *)

Lemma select_user_Ret (uid : Z) (w w1 : World) (o : option User) :
  select_user uid w = (Ret o, w1) ->
  o = customer uid w /\ users w1 = users w /\ vouchers w1 = vouchers w.
Proof.
  unfold select_user, customer, bind, external, gets.
  destruct (faults w) as [|[|] fs]; intros H; inversion H; auto.
Qed.

Lemma update_user_loyalty_Ret (c : Z) (t : string) (uid : Z) (w w1 : World)
    (u : unit) :
  update_user_loyalty c t uid w = (Ret u, w1) ->
  users w1 =
    map (fun u' => if u_id u' =? uid then with_loyalty c t u' else u') (users w).
Proof.
  unfold update_user_loyalty, bind, external, modify.
  destruct (faults w) as [|[|] fs]; intros H; inversion H; reflexivity.
Qed.

(** X16. [updateUserLoyalty] writes the count before it creates the
    reward and takes nothing back: when the visit changes the tier and
    the creation of the reward fails, the call throws that error, and the
    row has the new count and tier all the same. *)
Theorem visit_is_counted_when_the_reward_fails :
  forall uid w u w1 w2 e w3,
    select_user uid w = (Ret (Some u), w1) ->
    let c := u_visit_count u + 1 in
    newTier c <> u_loyalty_tier u ->
    update_user_loyalty c (newTier c) uid w1 = (Ret tt, w2) ->
    createLoyaltyReward uid (newTier c) c w2 = (Throw e, w3) ->
    let r := updateUserLoyalty uid "visit" w in
    fst r = Throw e /\
    users (snd r) =
      map (fun u' => if u_id u' =? uid then with_loyalty c (newTier c) u' else u')
          (users w).
Proof.
  intros uid w u w1 w2 e w3 Hs c Hne Hu Hc r.
  assert (E : updateUserLoyalty uid "visit" w =
              (Throw e,
               set_console
                 (console w3 ++ [ConsoleError "Update user loyalty failed:" e])%list
                 w3)).
  { unfold updateUserLoyalty. apply logged_Throw.
    eapply bind_Ret; [exact Hs | ].
    cbn [String.eqb Ascii.eqb Bool.eqb andb]. fold c.
    eapply bind_Ret; [exact Hu | ].
    destruct (String.eqb_spec (newTier c) (u_loyalty_tier u)) as [E | _];
      [contradiction | ]. cbn [negb andb].
    apply bind_Throw. apply bind_Throw. exact Hc. }
  subst r. rewrite E. cbn [fst snd users set_console]. split; [reflexivity | ].
  pose proof (keeps_users_createLoyaltyReward uid (newTier c) c w2) as K.
  rewrite Hc in K. cbn [snd] in K. rewrite K.
  apply update_user_loyalty_Ret in Hu. apply select_user_Ret in Hs.
  destruct Hs as (_ & Hs & _). now rewrite Hu, Hs.
Qed.

Lemma visit_is_counted_when_the_reward_fails_witness :
  let r := updateUserLoyalty 7 "visit" world_with_taken_reward_code in
  fst r = Throw (SqliteConstraint unique_code_message) /\
  users (snd r) = [with_loyalty 5 "Silver" carol].
Proof.
  apply (visit_is_counted_when_the_reward_fails 7 world_with_taken_reward_code
           carol world_with_taken_reward_code
           (set_users [with_loyalty 5 "Silver" carol] world_with_taken_reward_code)
           (SqliteConstraint unique_code_message)
           (snd (createLoyaltyReward 7 "Silver" 5
                   (set_users [with_loyalty 5 "Silver" carol]
                              world_with_taken_reward_code)))
           eq_refl ltac:(vm_compute; discriminate) eq_refl
           ltac:(vm_compute; reflexivity)).
Defined.

Lemma createLoyaltyReward_exact (uid visits : Z) (tier : string)
    (reward : string * string * Z) (u : User) (w : World) :
  faults w = [] ->
  rewards (toLowerCase tier) = Some reward ->
  customer uid w = Some u ->
  fresh_code (next_code "loyalty_reward" w) w ->
  createLoyaltyReward uid tier visits w =
    (Ret (new_voucher (loyalty_reward_data uid u reward) w),
     logged_event
       (auditEntry
          (voucher_created_event (loyalty_reward_data uid u reward)
             (new_voucher (loyalty_reward_data uid u reward) w)))
       (inserted (new_voucher (loyalty_reward_data uid u reward) w) w)).
Proof.
  intros Hq Hr Hu Hfresh. unfold createLoyaltyReward. rewrite Hr.
  destruct reward as [[title description] value]. apply logged_Ret.
  eapply bind_Ret; [now apply select_user_quiet | ]. rewrite Hu.
  now apply (createVoucher_exact
               (loyalty_reward_data uid u (title, description, value)) w).
Qed.

(** X17. A visit that changes the tier yields the reward of the new tier:
    with a working store and a free code, [updateUserLoyalty(uid,
    'visit')] adds one voucher of type [loyalty_reward] for the customer,
    at the customer's site, with the title, description and value that
    the reward table has for the new tier, valid for 168 hours.  The
    function asks whether the tier differs, not whether it is higher: a
    visit that moves the stored tier down is rewarded the same way. *)
Theorem tier_change_yields_the_reward_of_the_new_tier :
  forall uid u w,
    faults w = [] ->
    customer uid w = Some u ->
    newTier (u_visit_count u + 1) <> u_loyalty_tier u ->
    fresh_code (next_code "loyalty_reward" w) w ->
    exists title description value v,
      rewards (toLowerCase (newTier (u_visit_count u + 1)))
        = Some (title, description, value) /\
      vouchers (snd (updateUserLoyalty uid "visit" w)) = (vouchers w ++ [v])%list /\
      v_type v = "loyalty_reward" /\ v_status v = "active" /\
      v_user_id v = Some uid /\ v_site_id v = u_site_id u /\
      v_title v = title /\ v_description v = description /\ v_value v = value /\
      v_expires_at v = clock w + 168 * 60 * 60 * 1000.
Proof.
  intros uid u w Hq Hu Hne Hfresh.
  set (c := u_visit_count u + 1) in *.
  set (w1 := set_users
               (map (fun u' => if u_id u' =? uid
                               then with_loyalty c (newTier c) u' else u')
                    (users w)) w).
  destruct (rewards_newTier c) as [[[title description] value] Hr].
  assert (Hu1 : customer uid w1 = Some (with_loyalty c (newTier c) u))
    by (apply customer_after_update; exact Hu).
  pose proof (createLoyaltyReward_exact uid c (newTier c) _ _ w1 Hq Hr Hu1 Hfresh)
    as Hc.
  exists title, description, value.
  exists (new_voucher
            (loyalty_reward_data uid (with_loyalty c (newTier c) u)
               (title, description, value)) w1).
  split; [exact Hr | ].
  assert (E : updateUserLoyalty uid "visit" w =
              (Ret (Some (mkLoyaltyUpdate c (newTier c) true)),
               snd (createLoyaltyReward uid (newTier c) c w1))).
  { unfold updateUserLoyalty. apply logged_Ret.
    eapply bind_Ret; [apply select_user_quiet, Hq | rewrite Hu].
    cbn [String.eqb Ascii.eqb Bool.eqb andb]. fold c.
    eapply bind_Ret; [unfold update_user_loyalty; apply command_quiet, Hq | ].
    fold w1.
    destruct (String.eqb_spec (newTier c) (u_loyalty_tier u)) as [E | _];
      [contradiction | ]. cbn [negb andb].
    eapply bind_Ret; [ | reflexivity ].
    eapply bind_Ret; [ | reflexivity ].
    rewrite Hc. reflexivity. }
  rewrite E, Hc. cbn. repeat split.
Qed.

Lemma tier_change_yields_the_reward_of_the_new_tier_witness :
  exists v,
    vouchers (snd (updateUserLoyalty 7 "visit" sample_world)) = [v] /\
    v_title v = "Silver Member Reward" /\ v_value v = 800 /\
    v_expires_at v = just_after_midnight + 604800000.
Proof.
  destruct (tier_change_yields_the_reward_of_the_new_tier 7 carol sample_world
              eq_refl eq_refl ltac:(vm_compute; discriminate) eq_refl)
    as (title & description & value & v & Hr & Hv & _ & _ & _ & _ & Ht & _ & Hx & He).
  exists v. vm_compute in Hr. injection Hr as <- <- <-.
  split; [exact Hv | split; [exact Ht | split; [exact Hx | exact He]]].
Defined.

Lemma lower_of_upper (s : string) :
  toLowerCase (Js.toUpperCase s) = toLowerCase s.
Proof.
  induction s as [|c s IH]; cbn; [reflexivity | ]. rewrite IH. f_equal.
  destruct c as [[|] [|] [|] [|] [|] [|] [|] [|]]; reflexivity.
Qed.

Lemma lower_ascii_idem (c : ascii) : lower_ascii (lower_ascii c) = lower_ascii c.
Proof. destruct c as [[|] [|] [|] [|] [|] [|] [|] [|]]; reflexivity. Qed.

Lemma toLowerCase_idem (s : string) : toLowerCase (toLowerCase s) = toLowerCase s.
Proof.
  induction s as [|c s IH]; cbn; [reflexivity | ].
  now rewrite IH, lower_ascii_idem.
Qed.

(** A text in lower case is none of the inherited names that have a
    capital in them. *)
Lemma inherited_lower (s : string) :
  inherited (toLowerCase s) = true ->
  toLowerCase s = "constructor" \/ toLowerCase s = "__proto__".
Proof.
  pose proof (toLowerCase_idem s) as Hi. revert Hi.
  generalize (toLowerCase s). intros key Hi.
  unfold inherited, inherited_keys. cbn [existsb].
  repeat match goal with
         | |- context [String.eqb key ?b] =>
             destruct (String.eqb_spec key b) as [-> | ?]
         end; cbn; intros H; auto; try discriminate.
Qed.

(** Without a title the [INSERT] is rejected, after the code has been
    drawn and the images made. *)
Lemma createVoucher_untitled_quiet (vd : VoucherData) (w : World) :
  faults w = [] ->
  createVoucher_untitled vd w =
    (Throw (SqliteConstraint null_title_message),
     set_console
       (console w ++
          [ConsoleError "Create voucher failed:"
             (SqliteConstraint null_title_message)])%list
       (set_drawn (drawn w + 6) w)).
Proof.
  intros Hq. unfold createVoucher_untitled, createVoucher_.
  set (w1 := set_drawn (drawn w + 6) w).
  assert (Hq1 : faults w1 = []) by exact Hq.
  change (console w) with (console w1).
  apply logged_Throw.
  eapply bind_Ret; [apply generateVoucherCode_run | ].
  eapply bind_Ret; [reflexivity | ].
  unfold generateQRCode, generateBarcode.
  eapply bind_Ret; [apply (encoders_quiet w1 Hq1) | ].
  eapply bind_Ret; [apply (encoders_quiet w1 Hq1) | ].
  apply bind_Throw with (w1 := w1).
  unfold insert_voucher_without_title.
  eapply bind_Ret; [apply external_quiet, Hq1 | reflexivity].
Qed.

(** The call that finds its reward on the prototype, with a working
    store and a user row. *)
Lemma createLoyaltyReward_inherited (uid : Z) (tier : string) (visits : Z)
    (u : User) (w : World) :
  rewards (toLowerCase tier) = None ->
  inherited (toLowerCase tier) = true ->
  faults w = [] ->
  customer uid w = Some u ->
  createLoyaltyReward uid tier visits w =
    (Throw (SqliteConstraint null_title_message),
     set_console
       (console w ++
          [ConsoleError "Create voucher failed:"
             (SqliteConstraint null_title_message);
           ConsoleError "Create loyalty reward failed:"
             (SqliteConstraint null_title_message)])%list
       (set_drawn (drawn w + 6) w)).
Proof.
  intros Hr Hi Hq Hu. unfold createLoyaltyReward. rewrite Hr, Hi.
  erewrite logged_Throw.
  2:{ eapply bind_Ret; [apply select_user_quiet, Hq | ].
      rewrite Hu. apply createVoucher_untitled_quiet, Hq. }
  cbn [console set_console]. rewrite <- app_assoc. reflexivity.
Qed.

(** X18. [createLoyaltyReward] looks the tier up in its [rewards] object
    before it calls the store.  A tier whose name in lower case is none
    of [bronze], [silver], [gold], [platinum], [constructor], [__proto__]
    is refused with "Invalid loyalty tier", and the world gains the
    console line only, whatever the store would have done.  The names
    [constructor] and [__proto__] are not refused: the lookup finds them
    on the prototype, the call goes on to the store, draws a code, and
    fails at the [INSERT], which has no title to write; no voucher is
    created.  For ASCII names the case of the letters makes no
    difference. *)
Theorem unknown_tier_is_refused_unless_inherited :
  (forall uid tier visits w,
     ~ In (toLowerCase tier)
          ["bronze"; "silver"; "gold"; "platinum"; "constructor"; "__proto__"] ->
     createLoyaltyReward uid tier visits w =
       (Throw (JsError "Invalid loyalty tier"),
        set_console
          (console w ++
             [ConsoleError "Create loyalty reward failed:"
                (JsError "Invalid loyalty tier")])%list w)) /\
  (forall uid tier visits u w,
     In (toLowerCase tier) ["constructor"; "__proto__"] ->
     faults w = [] ->
     customer uid w = Some u ->
     createLoyaltyReward uid tier visits w =
       (Throw (SqliteConstraint null_title_message),
        set_console
          (console w ++
             [ConsoleError "Create voucher failed:"
                (SqliteConstraint null_title_message);
              ConsoleError "Create loyalty reward failed:"
                (SqliteConstraint null_title_message)])%list
          (set_drawn (drawn w + 6) w))) /\
  (forall uid tier visits w,
     Js.is_ascii tier = true ->
     createLoyaltyReward uid (Js.toUpperCase tier) visits w
       = createLoyaltyReward uid tier visits w).
Proof.
  split; [ | split ].
  - intros uid tier visits w Hn. unfold createLoyaltyReward.
    assert (Hr : rewards (toLowerCase tier) = None).
    { revert Hn. generalize (toLowerCase tier). intros key Hn.
      unfold rewards.
      repeat match goal with
             | |- context [String.eqb key ?b] =>
                 destruct (String.eqb_spec key b) as [-> | ?]
             end; try reflexivity; exfalso; apply Hn; cbn; auto 10. }
    assert (Hi : inherited (toLowerCase tier) = false).
    { destruct (inherited (toLowerCase tier)) eqn:E; [ | reflexivity ].
      exfalso. apply Hn. apply inherited_lower in E.
      destruct E as [E | E]; rewrite E; cbn; auto 10. }
    rewrite Hr, Hi. reflexivity.
  - intros uid tier visits u w Hin Hq Hu.
    apply createLoyaltyReward_inherited with (u := u); try assumption.
    + destruct Hin as [<- | [<- | []]]; reflexivity.
    + destruct Hin as [<- | [<- | []]]; reflexivity.
  - intros uid tier visits w _. unfold createLoyaltyReward.
    now rewrite lower_of_upper.
Qed.

Lemma unknown_tier_is_refused_unless_inherited_witness :
  createLoyaltyReward 7 "Diamond" 40 (set_faults [true] sample_world) =
    (Throw (JsError "Invalid loyalty tier"),
     set_console
       [ConsoleError "Create loyalty reward failed:"
          (JsError "Invalid loyalty tier")]
       (set_faults [true] sample_world)) /\
  fst (createLoyaltyReward 7 "Constructor" 40 sample_world) =
    Throw (SqliteConstraint null_title_message) /\
  createLoyaltyReward 7 "GOLD" 40 sample_world
    = createLoyaltyReward 7 "gold" 40 sample_world.
Proof.
  destruct unknown_tier_is_refused_unless_inherited as (H1 & H2 & H3).
  split; [ | split ].
  - apply (H1 7 "Diamond" 40 (set_faults [true] sample_world)).
    cbn. intros H. repeat (destruct H as [H | H]; [discriminate | ]). exact H.
  - rewrite (H2 7 "Constructor" 40 carol sample_world);
      [reflexivity | cbn; auto | reflexivity | reflexivity].
  - apply (H3 7 "gold" 40 sample_world). reflexivity.
Defined.

(* ===================================================================== *)
(** ** What a redemption leaves alone *)

(** The loyalty update of a redemption calls neither [createVoucher] nor
    [auditLog]: it withstands whatever an external call, a console line
    and a write to [users] withstand. *)
Lemma inv_updateUserLoyalty_redemption (P : World -> Prop) (uid : Z) :
  inv P external ->
  (forall ls w, P w -> P (set_console ls w)) ->
  (forall us w, P w -> P (set_users us w)) ->
  inv P (updateUserLoyalty uid "redemption").
Proof.
  intros Pe Pc Pu. unfold updateUserLoyalty, select_user, update_user_loyalty.
  cbn [String.eqb Ascii.eqb Bool.eqb].
  apply inv_logged; [exact Pc | ].
  apply inv_bind; [apply inv_bind; [exact Pe | intros; apply inv_gets] | ].
  intros [user|]; [ | apply inv_ret ].
  rewrite andb_false_r.
  apply inv_bind;
    [apply inv_bind; [exact Pe | intros; apply inv_modify; intros; now apply Pu]
    | intros _].
  apply inv_bind; [apply inv_ret | intros; apply inv_ret].
Qed.

Lemma as_issued_mark_redeemed (t by_ : Z) (v : Voucher) :
  as_issued (mark_redeemed t by_ v) = as_issued v.
Proof. reflexivity. Qed.

Lemma map_as_issued_update (p : Voucher -> bool) (g : Voucher -> Voucher)
    (l : list Voucher) :
  (forall v, as_issued (g v) = as_issued v) ->
  map as_issued (map (fun v => if p v then g v else v) l) = map as_issued l.
Proof.
  intros Hg. rewrite map_map. apply map_ext. intros v.
  destruct (p v); auto.
Qed.

(** X19. A redemption issues nothing and takes nothing away: whatever
    fails on the way, after [redeemVoucher] the table holds the same rows
    in the same order and each has the id, owner, site, code, type,
    title, description, value and expiry that it had; only the status and
    the two redemption columns can differ. *)
Theorem redemption_rewrites_no_voucher :
  forall code s w,
    map as_issued (vouchers (snd (redeemVoucher code s w)))
      = map as_issued (vouchers w).
Proof.
  intros code s w.
  set (P := fun w0 => map as_issued (vouchers w0) = map as_issued (vouchers w)).
  change (P (snd (redeemVoucher code s w))).
  assert (Pe : inv P external) by unaffected.
  assert (Pc : forall ls w0, P w0 -> P (set_console ls w0)) by (intros; assumption).
  assert (Pl : forall uid, inv P (updateUserLoyalty uid "redemption"))
    by (intros; apply inv_updateUserLoyalty_redemption; auto).
  assert (Pa : forall e, inv P (auditLog e))
    by (intros e; apply inv_auditLog; unaffected).
  assert (Pu : forall by_ id, inv P (update_voucher_redeemed by_ id)).
  { intros by_ id. unfold update_voucher_redeemed.
    apply inv_bind; [exact Pe | intros _]. apply inv_modify.
    intros w0 H0. unfold P in *. cbn [vouchers set_vouchers].
    rewrite map_as_issued_update; [exact H0 | reflexivity]. }
  apply (inv_exec P (redeemVoucher code s)); [ | reflexivity ].
  unfold redeemVoucher, select_voucher_by_code, now. inv_tac.
Qed.

(** When the last stage of a redemption throws, it is the loyalty update
    that threw: the voucher and audit tables are as that stage found
    them. *)
Lemma redeem_settle_Throw (s : Staff) (view : VoucherView) (w w' : World)
    (e : Error) :
  redeem_settle s view w = (Throw e, w') ->
  vouchers w' = vouchers w /\ audit_log w' = audit_log w.
Proof.
  unfold redeem_settle.
  step_bind u w1 E1.
  - destruct (auditLog_returns
                (voucher_redeemed_event (s_id s) (vv_row view)) w1) as [w2 Ea].
    step_bind u2 w3 E2; rewrite Ea in E2; inversion E2; subst.
    step_bind t w4 E3; inversion E3; subst. discriminate.
  - intros H. inversion H; subst e0 w1. clear H.
    destruct (Js.truthy_num (v_user_id (vv_row view))
              && String.eqb (v_type (vv_row view)) "loyalty_reward");
      [ | discriminate ].
    revert E1. step_bind o w2 E2; try discriminate.
    intros H. inversion H; subst. clear H.
    split.
    + pose proof (inv_updateUserLoyalty_redemption
                    (fun w0 => vouchers w0 = vouchers w)
                    (num_of (v_user_id (vv_row view))) ltac:(unaffected)
                    ltac:(intros; assumption) ltac:(intros; assumption)
                    w eq_refl) as K.
      now rewrite E2 in K.
    + pose proof (inv_updateUserLoyalty_redemption
                    (fun w0 => audit_log w0 = audit_log w)
                    (num_of (v_user_id (vv_row view))) ltac:(unaffected)
                    ltac:(intros; assumption) ltac:(intros; assumption)
                    w eq_refl) as K.
      now rewrite E2 in K.
  - discriminate.
Qed.

Lemma redeem_validate_keeps_audit (code : string) (w : World) :
  audit_log (snd (redeem_validate code w)) = audit_log w.
Proof.
  apply (keeps_of_inv audit_log). intros x.
  unfold redeem_validate, select_voucher_by_code, now.
  assert (inv (fun w => audit_log w = x) external) by unaffected.
  inv_tac.
Qed.

(** X20. [redeemVoucher] marks the voucher before it updates the loyalty
    and records the redemption, and takes nothing back: when the store
    fails in the loyalty update, [POST /redeem] answers 500, yet the
    voucher is marked [redeemed] as by a redemption that went through -
    and the audit table has no row of it. *)
Theorem redemption_stands_when_the_loyalty_update_fails :
  forall code s w view w1 w2 w3,
    redeem_validate code w = (Ret view, w1) ->
    redeem_update s view w1 = (Ret tt, w2) ->
    redeem_settle s view w2 = (Throw ExternalFailure, w3) ->
    let r := post_redeem (Some s) code w in
    status_of r = Some 500 /\
    vouchers (snd r) =
      map (fun v => if with_id (v_id (vv_row view)) v
                    then mark_redeemed (clock w) (s_id s) v else v)
          (vouchers w) /\
    audit_log (snd r) = audit_log w.
Proof.
  intros code s w view w1 w2 w3 Hv Hu Hs r.
  assert (E : redeemVoucher code s w =
              (Throw ExternalFailure,
               set_console
                 (console w3 ++ [ConsoleError redeem_tag ExternalFailure])%list w3)).
  { rewrite redeemVoucher_stages. apply logged_Throw.
    eapply bind_Ret; [exact Hv | ].
    eapply bind_Ret; [exact Hu | exact Hs]. }
  assert (R : r =
              (Ret (mkResponse 500 (Some "Failed to redeem voucher") None),
               set_console
                 (console w3
                    ++ [ConsoleError redeem_tag ExternalFailure;
                        ConsoleError "Voucher redemption error:" ExternalFailure])%list
                 w3)).
  { subst r. unfold post_redeem, try_catch.
    erewrite bind_Throw by exact E. cbn. rewrite <- app_assoc. reflexivity. }
  rewrite R. cbn [fst snd status_of vouchers audit_log set_console].
  pose proof (redeem_validate_keeps_audit code w) as A1. rewrite Hv in A1.
  apply redeem_validate_Ret in Hv. destruct Hv as (_ & _ & V1 & _ & C1).
  unfold redeem_update in Hu.
  assert (A2 : audit_log w2 = audit_log w1).
  { unfold update_voucher_redeemed, bind, external, modify in Hu.
    destruct (faults w1) as [|[|] fs]; inversion Hu; reflexivity. }
  apply update_voucher_redeemed_Ret in Hu. destruct Hu as [V2 _].
  apply redeem_settle_Throw in Hs. destruct Hs as [V3 A3].
  split; [reflexivity | split].
  - rewrite V3, V2, V1, C1. reflexivity.
  - cbn [snd] in A1. congruence.
Qed.

Lemma redemption_stands_when_the_loyalty_update_fails_witness :
  let r := post_redeem (Some alice) "LOC0FFEE000001"
             world_failing_after_the_update in
  status_of r = Some 500 /\
  map v_status (vouchers (snd r)) = ["redeemed"] /\
  audit_log (snd r) = [].
Proof.
  destruct (redemption_stands_when_the_loyalty_update_fails
              "LOC0FFEE000001" alice world_failing_after_the_update
              (join_user [carol]
                 (sample_voucher 1 (Some 7) "LOC0FFEE000001" "loyalty_reward"
                    "active" (just_after_midnight + 604800000)))
              (set_faults [false; true] world_with_reward)
              (snd (redeem_update alice
                      (join_user [carol]
                         (sample_voucher 1 (Some 7) "LOC0FFEE000001"
                            "loyalty_reward" "active"
                            (just_after_midnight + 604800000)))
                      (set_faults [false; true] world_with_reward)))
              (snd (redeem_settle alice
                      (join_user [carol]
                         (sample_voucher 1 (Some 7) "LOC0FFEE000001"
                            "loyalty_reward" "active"
                            (just_after_midnight + 604800000)))
                      (snd (redeem_update alice
                              (join_user [carol]
                                 (sample_voucher 1 (Some 7) "LOC0FFEE000001"
                                    "loyalty_reward" "active"
                                    (just_after_midnight + 604800000)))
                              (set_faults [false; true] world_with_reward)))))
              ltac:(vm_compute; reflexivity) ltac:(vm_compute; reflexivity)
              ltac:(vm_compute; reflexivity))
    as (H1 & H2 & H3).
  cbv zeta. split; [exact H1 | split; [ | exact H3 ] ].
  rewrite H2. vm_compute. reflexivity.
Defined.

(* ===================================================================== *)
(** ** The status route *)





(* ===================================================================== *)
(** ** What no request undoes *)

Lemma begins_with_refl {A} (l : list A) : begins_with l l.
Proof. exists []. now rewrite app_nil_r. Qed.

Lemma begins_with_snoc {A} (l l' : list A) (a : A) :
  begins_with l l' -> begins_with l (l' ++ [a]).
Proof. intros [rest ->]. exists (rest ++ [a])%list. now rewrite app_assoc. Qed.

(** *** The voucher table *)

Lemma issued_after_step (l : list Voucher) (s : Step) (w : World) :
  begins_with l (map as_issued (vouchers w)) ->
  begins_with l (map as_issued (vouchers (step s w))).
Proof.
  set (P := fun w => begins_with l (map as_issued (vouchers w))).
  intros HP. change (P (step s w)).
  assert (Pi : forall v w0, P w0 ->
                 existsb (with_code (v_code v)) (vouchers w0) = false ->
                 P (set_next_voucher_id (next_voucher_id w0 + 1)
                      (set_vouchers
                         (vouchers w0 ++
                            [mkVoucher (next_voucher_id w0) (v_user_id v)
                               (v_site_id v) (v_code v) (v_type v) (v_title v)
                               (v_description v) (v_value v) (v_status v)
                               (v_expires_at v) None None])%list w0))).
  { intros v w0 H _. unfold P in *. cbn [vouchers set_vouchers set_next_voucher_id].
    rewrite map_app. now apply begins_with_snoc. }
  assert (Pr : forall by_ id w0, P w0 ->
                 P (set_vouchers
                      (map (fun v => if with_id id v
                                     then mark_redeemed (clock w0) by_ v else v)
                           (vouchers w0)) w0)).
  { intros by_ id w0 H. unfold P in *. cbn [vouchers set_vouchers].
    now rewrite map_as_issued_update. }
  destruct s as [r | t | fs | u]; cbn [step]; try exact HP.
  assert (Hr : match r with PostStaffWifiOverride _ _ _ => False | _ => True end
               \/ exists m e x, r = PostStaffWifiOverride m e x)
    by (destruct r; eauto).
  destruct Hr as [Hr | (m & e & x & ->)].
  - apply inv_serve_ordinary; try assumption; try unaffected.
    + intros sid. apply inv_createStaffWiFiVoucher; try assumption; try unaffected.
    + intros; apply inv_patch_voucher_status; try assumption; try unaffected.
  - cbn [serve]. apply inv_exec; [ | exact HP ].
    apply inv_post_staff_wifi_override; try assumption; try unaffected.
Qed.

(** X22. No request removes a voucher or rewrites what it was issued
    with.  After any history of requests, clock changes, scheduled
    failures and sign-ups, the table begins with the rows that it had, in
    the same order, each with the id, owner, site, code, type, title,
    description, value and expiry that it had: all that can have changed
    in a row is the status and the two redemption columns. *)
Theorem issued_vouchers_persist :
  forall history w,
    begins_with (map as_issued (vouchers w))
                (map as_issued (vouchers (run history w))).
Proof.
  intros history w. generalize (begins_with_refl (map as_issued (vouchers w))).
  generalize (map as_issued (vouchers w)) at 1 3. revert w.
  induction history as [|s h IH]; intros w l H; [exact H | ].
  cbn. apply IH. now apply issued_after_step.
Qed.

(** *** The status of a voucher *)

Lemma kept_or_redeemed_refl (l : list Voucher) : Forall2 kept_or_redeemed l l.
Proof. induction l; constructor; [now left | assumption]. Qed.

Lemma kept_or_redeemed_mark (p : Voucher -> bool) (t by_ : Z)
    (l old : list Voucher) :
  Forall2 kept_or_redeemed l old ->
  Forall2 kept_or_redeemed l
    (map (fun v => if p v then mark_redeemed t by_ v else v) old).
Proof.
  induction 1 as [|v v' l old Hv _ IH]; cbn; constructor; [ | exact IH ].
  destruct (p v'); [ | exact Hv ].
  right. destruct Hv as [-> | (t0 & b0 & ->)]; exists t, by_; reflexivity.
Qed.

Lemma status_after_step (l : list Voucher) (s : Step) (w : World) :
  rows_kept_or_redeemed l (vouchers w) ->
  rows_kept_or_redeemed l (vouchers (step s w)).
Proof.
  set (P := fun w => rows_kept_or_redeemed l (vouchers w)).
  intros HP. change (P (step s w)).
  assert (Pi : forall v w0, P w0 ->
                 existsb (with_code (v_code v)) (vouchers w0) = false ->
                 P (set_next_voucher_id (next_voucher_id w0 + 1)
                      (set_vouchers
                         (vouchers w0 ++
                            [mkVoucher (next_voucher_id w0) (v_user_id v)
                               (v_site_id v) (v_code v) (v_type v) (v_title v)
                               (v_description v) (v_value v) (v_status v)
                               (v_expires_at v) None None])%list w0))).
  { intros v w0 (old & rest & E & H) _. unfold P.
    cbn [vouchers set_vouchers set_next_voucher_id].
    eexists old, _. rewrite E, <- app_assoc. split; [reflexivity | exact H]. }
  assert (Pr : forall by_ id w0, P w0 ->
                 P (set_vouchers
                      (map (fun v => if with_id id v
                                     then mark_redeemed (clock w0) by_ v else v)
                           (vouchers w0)) w0)).
  { intros by_ id w0 (old & rest & E & H). unfold P.
    cbn [vouchers set_vouchers]. rewrite E, map_app.
    eexists _, _. split; [reflexivity | ]. now apply kept_or_redeemed_mark. }
  destruct s as [r | t | fs | u]; cbn [step]; try exact HP.
  assert (Hr : match r with PostStaffWifiOverride _ _ _ => False | _ => True end
               \/ exists m e x, r = PostStaffWifiOverride m e x)
    by (destruct r; eauto).
  destruct Hr as [Hr | (m & e & x & ->)].
  - apply inv_serve_ordinary; try assumption; try unaffected.
    + intros sid. apply inv_createStaffWiFiVoucher; try assumption; try unaffected.
    + intros; apply inv_patch_voucher_status; try assumption; try unaffected.
  - cbn [serve]. apply inv_exec; [ | exact HP ].
    apply inv_post_staff_wifi_override; try assumption; try unaffected.
Qed.

(** X28. No request cancels a voucher, marks it expired or sets it back
    to active: the only statement that rewrites a row and is accepted by
    the store is the [UPDATE] of a redemption.  After any history of
    requests, clock changes, scheduled failures and sign-ups, the table
    begins with the rows that it had, in the same order, and each of
    them is as it was or as a redemption has marked it; so its status is
    the one it had or [redeemed]. *)
Theorem only_a_redemption_changes_a_status :
  forall history w,
    rows_kept_or_redeemed (vouchers w) (vouchers (run history w)) /\
    forall v, In v (vouchers w) ->
      exists v', In v' (vouchers (run history w)) /\
                 as_issued v' = as_issued v /\
                 (v_status v' = v_status v \/ v_status v' = "redeemed").
Proof.
  intros history w.
  assert (H : rows_kept_or_redeemed (vouchers w) (vouchers (run history w))).
  { assert (H0 : rows_kept_or_redeemed (vouchers w) (vouchers w)).
    { exists (vouchers w), []. rewrite app_nil_r.
      split; [reflexivity | apply kept_or_redeemed_refl]. }
    revert H0. generalize (vouchers w) at 1 3. revert w.
    induction history as [|s h IH]; intros w l H0; [exact H0 | ].
    cbn. apply IH. now apply status_after_step. }
  split; [exact H | ].
  destruct H as (old & rest & E & H). rewrite E. clear E.
  induction H as [|v0 v0' l old Hv _ IH]; intros v Hin; [contradiction | ].
  destruct Hin as [-> | Hin].
  - exists v0'. split; [now left | ].
    destruct Hv as [-> | (t & b & ->)]; cbn; auto.
  - destruct (IH v Hin) as (v' & Hin' & Ha & Hs).
    exists v'. split; [now right | auto].
Qed.

(** *** The audit table *)

Section Trail.

Variable l : list AuditRow.

Lemma trail_external : inv (trail_kept l) external.
Proof. apply inv_external_of_faults; intros; assumption. Qed.

Lemma trail_console ls w : trail_kept l w -> trail_kept l (set_console ls w).
Proof. intros; assumption. Qed.

#[local] Hint Resolve trail_external trail_console : inv.

Lemma trail_frame (f : World -> World) :
  (forall w, audit_log (f w) = audit_log w) -> inv (trail_kept l) (modify f).
Proof.
  intros Hf. apply inv_modify. intros w H. unfold trail_kept. now rewrite Hf.
Qed.

Lemma trail_query {A} (g : World -> A) : inv (trail_kept l) (external ;; gets g).
Proof. inv_tac. Qed.

Lemma trail_insert_audit_log (e : Event) :
  inv (trail_kept l) (Sql.insert_audit_log e).
Proof.
  unfold Sql.insert_audit_log. inv_tac.
  apply inv_modify; intros w H. unfold trail_kept in *. cbn.
  now apply begins_with_snoc.
Qed.

Lemma trail_checkSecurityAlerts_ (a : Event -> M unit) (ev : Event) :
  (forall e, inv (trail_kept l) (a e)) ->
  inv (trail_kept l) (checkSecurityAlerts_ a ev).
Proof.
  intros Ha. unfold checkSecurityAlerts_, now, Sql.count_login_failed,
    Sql.count_voucher_redeemed.
  inv_tac.
Qed.

Lemma trail_auditLog_fuel (n : nat) (ev : Event) :
  inv (trail_kept l) (auditLog_fuel n ev).
Proof.
  revert ev; induction n as [|n IH]; intros ev; cbn [auditLog_fuel].
  - apply inv_diverge.
  - unfold auditLog_, auditLogger_info.
    pose proof trail_insert_audit_log.
    pose proof (fun e => trail_checkSecurityAlerts_ _ e IH).
    inv_tac.
Qed.

Lemma trail_auditLog (ev : Event) : inv (trail_kept l) (auditLog ev).
Proof. apply trail_auditLog_fuel. Qed.

#[local] Hint Resolve trail_auditLog trail_query : inv.

Lemma trail_generateVoucherCode type len :
  inv (trail_kept l) (generateVoucherCode type len).
Proof. unfold generateVoucherCode. inv_tac. intros w H; cbn. exact H. Qed.

Lemma trail_insert_voucher v : inv (trail_kept l) (insert_voucher v).
Proof.
  unfold insert_voucher. inv_tac.
  intros w H. destruct (existsb _ _) eqn:E; cbn; exact H.
Qed.

#[local] Hint Resolve trail_generateVoucherCode trail_insert_voucher : inv.

Lemma trail_createVoucher vd : inv (trail_kept l) (createVoucher vd).
Proof.
  unfold createVoucher, createVoucher_, generateQRCode, generateBarcode, now. inv_tac.
Qed.

Lemma trail_createVoucher_untitled vd :
  inv (trail_kept l) (createVoucher_untitled vd).
Proof.
  unfold createVoucher_untitled, createVoucher_, insert_voucher_without_title,
    generateQRCode, generateBarcode, now.
  inv_tac.
Qed.

#[local] Hint Resolve trail_createVoucher trail_createVoucher_untitled : inv.

Lemma trail_select_voucher_by_code code :
  inv (trail_kept l) (select_voucher_by_code code).
Proof. unfold select_voucher_by_code. inv_tac. Qed.

Lemma trail_select_user id : inv (trail_kept l) (select_user id).
Proof. unfold select_user. inv_tac. Qed.

Lemma trail_select_staff id : inv (trail_kept l) (select_staff id).
Proof. unfold select_staff. inv_tac. Qed.

#[local] Hint Resolve trail_select_voucher_by_code trail_select_user
  trail_select_staff : inv.

Lemma trail_update_voucher_redeemed by_ id :
  inv (trail_kept l) (update_voucher_redeemed by_ id).
Proof.
  unfold update_voucher_redeemed. inv_tac. now apply trail_frame.
Qed.

Lemma trail_update_user_loyalty n t id :
  inv (trail_kept l) (update_user_loyalty n t id).
Proof. unfold update_user_loyalty. inv_tac. now apply trail_frame. Qed.

#[local] Hint Resolve trail_update_voucher_redeemed
  trail_update_user_loyalty : inv.

Lemma trail_createLoyaltyReward uid tier visits :
  inv (trail_kept l) (createLoyaltyReward uid tier visits).
Proof.
  unfold createLoyaltyReward.
  destruct (rewards _) as [[[title description] value]|]; inv_tac.
Qed.

#[local] Hint Resolve trail_createLoyaltyReward : inv.

Lemma trail_updateUserLoyalty uid act :
  inv (trail_kept l) (updateUserLoyalty uid act).
Proof. unfold updateUserLoyalty, select_user. inv_tac. Qed.

Lemma trail_createPremiumWiFiVoucher sid amount :
  inv (trail_kept l) (createPremiumWiFiVoucher sid amount).
Proof. unfold createPremiumWiFiVoucher. inv_tac. Qed.

#[local] Hint Resolve trail_updateUserLoyalty
  trail_createPremiumWiFiVoucher : inv.

Lemma trail_redeemVoucher code s : inv (trail_kept l) (redeemVoucher code s).
Proof.
  unfold redeemVoucher, redeem_validate, redeem_settle, now,
    select_voucher_by_code.
  inv_tac.
Qed.

#[local] Hint Resolve trail_redeemVoucher : inv.

Lemma trail_createStaffWiFiVoucher sid :
  inv (trail_kept l) (createStaffWiFiVoucher sid).
Proof.
  unfold createStaffWiFiVoucher, now, update_staff_daily_used, select_staff.
  inv_tac. now apply trail_frame.
Qed.

#[local] Hint Resolve trail_createStaffWiFiVoucher : inv.

Lemma trail_serve (r : Request) (w : World) :
  trail_kept l w -> trail_kept l (serve r w).
Proof.
  destruct r; cbn [serve]; intros H; apply inv_exec; try exact H.
  - unfold post_redeem, redeem_error_response, failure. inv_tac.
  - unfold post_premium_wifi, failure. inv_tac.
  - unfold post_staff_wifi, failure. inv_tac.
  - unfold post_staff_wifi_override, failure, select_staff_by_email,
      reset_staff_daily_used.
    inv_tac. now apply trail_frame.
  - unfold patch_voucher_status, failure, select_voucher_by_id,
      update_voucher_status.
    inv_tac.
  - inv_tac.
  - inv_tac.
  - inv_tac.
Qed.

Lemma trail_step (s : Step) (w : World) :
  trail_kept l w -> trail_kept l (step s w).
Proof.
  destruct s; cbn [step]; intros H; [now apply trail_serve | exact H ..].
Qed.

Lemma trail_run (h : list Step) (w : World) :
  trail_kept l w -> trail_kept l (run h w).
Proof.
  revert w. induction h as [|s h IH]; intros w H; [exact H | ].
  cbn. apply IH. now apply trail_step.
Qed.

End Trail.

(** X23. No request removes or rewrites a row of the audit table.  After
    any history of requests, clock changes, scheduled failures and
    sign-ups, the table begins with the rows that it had, unchanged and in
    the same order: the requests only append.  (The one statement that
    deletes rows is that of [cleanOldAuditLogs], which no request
    calls.) *)
Theorem audit_trail_only_grows :
  forall history w, begins_with (audit_log w) (audit_log (run history w)).
Proof.
  intros history w. apply (trail_run (audit_log w)). apply begins_with_refl.
Qed.

(* ===================================================================== *)
(** ** Who may see and do what *)

Lemma external_Ret_frame (w w1 : World) :
  external w = (Ret tt, w1) -> vouchers w1 = vouchers w.
Proof.
  unfold external. destruct (faults w) as [|[|] fs]; intros H; inversion H;
    reflexivity.
Qed.

(** X24. [GET /user/:userId] shows a customer nobody else's vouchers.  A
    customer who asks for an id that is not their own is answered 403
    [Access denied], and nothing is read or written.  Whoever asks, every
    voucher in an answer is a row of the table whose [user_id] is the id
    asked for (so, for a customer, their own), with the status asked for
    when one was given; this holds as long as the store returns only rows
    that the query selects, in whatever order. *)
Theorem user_vouchers_are_the_users_own :
  forall order who uid st w r w',
    (forall rows v, In v (order rows) -> In v rows) ->
    get_user_vouchers order who uid st w = (Ret r, w') ->
    (forall c, who = Some c -> uid <> Some (u_id c) ->
       r = mkResponse 403 (Some "Access denied") None /\ w' = w) /\
    (forall vs v, res_body r = Some vs -> In v vs ->
       In v (vouchers w) /\
       v_user_id v = uid /\
       (forall c, who = Some c -> v_user_id v = Some (u_id c)) /\
       (forall s, st = Some s -> s <> EmptyString -> v_status v = s)).
Proof.
  intros order who uid st w r w' Hord H.
  unfold get_user_vouchers in H.
  destruct (other_customer who uid) eqn:Eo.
  - unfold try_catch, failure, ret in H. inversion H; subst. split.
    + intros; split; reflexivity.
    + cbn. intros vs v Hv. discriminate.
  - assert (Hown : forall c, who = Some c -> uid = Some (u_id c)).
    { intros c ->. unfold other_customer in Eo. destruct uid as [n|]; [ | discriminate].
      apply negb_false_iff, Z.eqb_eq in Eo. now subst. }
    split; [intros c Hc Hne; elim Hne; now apply Hown | ].
    intros vs v Hb Hv.
    unfold getUserVouchers, select_vouchers_of_user, logged, try_catch, bind,
      gets, throw, ret, console_error, modify, failure in H.
    destruct (external w) as [[[]| e |] w1] eqn:Ex; cbn in H.
    + inversion H; subst. cbn in Hb. inversion Hb; subst vs.
      apply Hord in Hv. apply filter_In in Hv. destruct Hv as [Hin Hof].
      rewrite (external_Ret_frame _ _ Ex) in Hin.
      unfold of_user in Hof. apply andb_true_iff in Hof. destruct Hof as [Hu Hs].
      assert (Hid : v_user_id v = uid).
      { unfold Sql.int_eq in Hu. destruct (v_user_id v), uid; try discriminate.
        apply Z.eqb_eq in Hu. now subst. }
      repeat split; try assumption.
      * intros c Hc. rewrite Hid. now apply Hown.
      * intros s -> Hne. destruct s as [|a s]; [now elim Hne | ].
        cbn in Hs. now apply String.eqb_eq in Hs.
    + inversion H; subst. cbn in Hb. discriminate.
    + inversion H.
Qed.

Lemma user_vouchers_are_the_users_own_witness :
  exists vs,
    get_user_vouchers (@rev Voucher) (Some carol) (Some 7) (Some "active")
                      world_with_reward
      = (Ret (mkResponse 200 None (Some vs)), world_with_reward) /\
    vs <> [] /\
    forall v, In v vs ->
      In v (vouchers world_with_reward) /\ v_user_id v = Some 7 /\
      v_status v = "active".
Proof.
  eexists. split; [vm_compute; reflexivity | ]. split; [discriminate | ].
  intros v Hv.
  destruct (user_vouchers_are_the_users_own (@rev Voucher) (Some carol)
              (Some 7) (Some "active") world_with_reward _ _
              (fun rows v => proj2 (in_rev rows v)) eq_refl) as [_ H].
  destruct (H _ v eq_refl Hv) as (Hin & Hu & _ & Hs).
  repeat split; [exact Hin | exact Hu | ].
  apply (Hs "active" eq_refl). discriminate.
Defined.

(** X25. The two role checks let the same requests through: those of a
    staff member whose role is exactly [admin] or [manager]; the check
    named [requireAdmin] asks for no more than [requireManager].  A request
    that is turned away by [requireManager] is answered 403 on
    [POST /staff-wifi/override] and on [PATCH /:id/status] before the
    handler runs, so nothing is read or written; a request that is let
    through reaches the handler with the staff member of the request. *)
Theorem role_checks_agree :
  forall req_staff,
    match requireManager req_staff with
    | Next m =>
        req_staff = Some m /\
        (s_role m = "admin" \/ s_role m = "manager") /\
        requireAdmin req_staff = Next m /\
        (forall email reason,
           route_staff_wifi_override req_staff email reason
             = post_staff_wifi_override m email reason) /\
        (forall id st why,
           route_patch_voucher_status req_staff id st why
             = patch_voucher_status m id st why)
    | Denied status error =>
        status = 403 /\
        (forall m, req_staff = Some m ->
                   s_role m <> "admin" /\ s_role m <> "manager") /\
        requireAdmin req_staff
          = Denied 403 "Administrative privileges required." /\
        (forall email reason w,
           route_staff_wifi_override req_staff email reason w
             = (Ret (mkResponse 403 (Some error) None), w)) /\
        (forall id st why w,
           route_patch_voucher_status req_staff id st why w
             = (Ret (mkResponse 403 (Some error) None), w))
    end.
Proof.
  intros [m|]; unfold route_staff_wifi_override, route_patch_voucher_status,
    guarded, requireManager, requireAdmin; cbn [existsb].
  - destruct (String.eqb (s_role m) "admin") eqn:Ea;
      destruct (String.eqb (s_role m) "manager") eqn:Em; cbn.
    + apply String.eqb_eq in Ea. repeat split; auto.
    + apply String.eqb_eq in Ea. repeat split; auto.
    + apply String.eqb_eq in Em. repeat split; auto.
    + apply String.eqb_neq in Ea, Em.
      split; [reflexivity | split; [ | repeat split]].
      intros m' Hm'. inversion Hm'; subst. now split.
  - cbn. split; [reflexivity | split; [ | repeat split]].
    intros m' Hm'. discriminate.
Qed.


(** X26. [blockDeviceByMAC] never raises and blocks nothing: all that it
    can change is the audit table (and the console and the failures that
    are pending).  Without a MAC address ([undefined], [null] or the empty
    text) it does nothing at all; with one and a working store it appends
    one [device_blocked] row that carries the address. *)
Theorem blockDeviceByMAC_only_writes_the_trail :
  forall mac w,
    exists w',
      blockDeviceByMAC mac w = (Ret tt, w') /\
      audit_only w w' /\
      begins_with (audit_log w) (audit_log w') /\
      match Js.str_or_null mac with
      | None => w' = w
      | Some address =>
          faults w = [] ->
          w' = logged_event (auditEntry (device_blocked_event address)) w
      end.
Proof.
  intros mac w. unfold blockDeviceByMAC.
  destruct (Js.str_or_null mac) as [address|].
  - destruct (auditLog_run (device_blocked_event address) w)
      as (w' & E & Ho & _).
    exists w'. split; [ | split; [exact Ho | split]].
    + apply try_catch_Ret. unfold console_log. eapply bind_Ret; [reflexivity | exact E].
    + change (trail_kept (audit_log w) w').
      replace w' with (snd (auditLog (device_blocked_event address) w))
        by now rewrite E.
      apply trail_auditLog. apply begins_with_refl.
    + intros Hq.
      rewrite (auditLog_quiet (device_blocked_event address) w Hq eq_refl eq_refl)
        in E.
      now inversion E.
  - exists w. split; [reflexivity | split; [ | split]].
    + repeat split.
    + apply begins_with_refl.
    + reflexivity.
Qed.


(** *** The shape of a voucher code *)

Lemma toUpperCase_app (a b : string) :
  Js.toUpperCase (a ++ b) = (Js.toUpperCase a ++ Js.toUpperCase b)%string.
Proof. induction a as [|c a IH]; cbn; [reflexivity | now rewrite IH]. Qed.

Lemma toUpperCase_length (s : string) :
  String.length (Js.toUpperCase s) = String.length s.
Proof. induction s as [|c s IH]; cbn; [reflexivity | now rewrite IH]. Qed.

Lemma hex_of_byte_upper (b : byte) :
  exists c d,
    Js.toUpperCase (Js.hex_of_byte b) = String c (String d EmptyString) /\
    hex_upper c = true /\ hex_upper d = true.
Proof.
  assert (H : match Js.toUpperCase (Js.hex_of_byte b) with
              | String c (String d EmptyString) => hex_upper c && hex_upper d
              | _ => false
              end = true) by (destruct b; vm_compute; reflexivity).
  destruct (Js.toUpperCase (Js.hex_of_byte b)) as [|c [|d [|]]];
    try discriminate.
  apply andb_true_iff in H. exists c, d. now split.
Qed.

Lemma toHex_upper (bs : list byte) :
  String.length (Js.toUpperCase (Js.toHex bs)) = (2 * List.length bs)%nat /\
  forallb hex_upper (list_ascii_of_string (Js.toUpperCase (Js.toHex bs))) = true.
Proof.
  induction bs as [|b bs [IHl IHf]]; [split; reflexivity | ].
  cbn [Js.toHex]. rewrite toUpperCase_app.
  destruct (hex_of_byte_upper b) as (c & d & -> & Hc & Hd).
  cbn [append String.length list_ascii_of_string forallb List.length].
  rewrite IHl, IHf, Hc, Hd. split; [lia | reflexivity].
Qed.

Lemma substring_two_length (s : string) :
  String.length (substring 0 2 s) = Nat.min 2 (String.length s).
Proof. destruct s as [|a [|b [|c s]]]; reflexivity. Qed.

(** X27. For a type made of ASCII characters, a voucher code is the first
    two characters of the type in upper case followed by twelve
    characters out of [0-9A-F]: [generateVoucherCode] with the default
    length always returns such a code, of 12 to 14 characters (which
    [POST /redeem] accepts: it asks for 5 to 20), and draws six random
    bytes for it. *)
Theorem voucher_code_shape :
  forall type w,
    Js.is_ascii type = true ->
    exists random,
      generateVoucherCode type 12 w
        = (Ret (Js.toUpperCase (substring 0 2 type) ++ random)%string,
           set_drawn (drawn w + 6) w) /\
      String.length random = 12%nat /\
      forallb hex_upper (list_ascii_of_string random) = true /\
      String.length (Js.toUpperCase (substring 0 2 type) ++ random)
        = (Nat.min 2 (String.length type) + 12)%nat /\
      (12 <= String.length (Js.toUpperCase (substring 0 2 type) ++ random)
          <= 14)%nat.
Proof.
  intros type w _.
  exists (Js.toUpperCase (Js.toHex (map (entropy w) (seq (drawn w) 6)))).
  destruct (toHex_upper (map (entropy w) (seq (drawn w) 6))) as [Hl Hf].
  rewrite length_map, length_seq in Hl.
  split; [apply generateVoucherCode_run | ].
  split; [exact Hl | split; [exact Hf | ]].
  rewrite length_append, Hl, toUpperCase_length, substring_two_length.
  split; [reflexivity | lia].
Qed.

Lemma voucher_code_shape_witness :
  exists random,
    generateVoucherCode "staff_wifi" 12 sample_world
      = (Ret ("ST" ++ random)%string, set_drawn 6 sample_world) /\
    String.length random = 12%nat /\
    forallb hex_upper (list_ascii_of_string random) = true.
Proof.
  destruct (voucher_code_shape "staff_wifi" sample_world eq_refl)
    as (random & E & Hl & Hf & _).
  exists random. split; [exact E | split; [exact Hl | exact Hf]].
Defined.

(* ===================================================================== *)
(** ** The daily staff voucher *)

Lemma keeps_clock_createStaffWiFiVoucher (sid : Z) :
  keeps clock (createStaffWiFiVoucher sid).
Proof.
  apply keeps_of_inv; intros x. apply inv_createStaffWiFiVoucher; unaffected.
Qed.

(** The call that has inserted its voucher and fails at the flag. *)
Lemma createStaffWiFiVoucher_fails_at_the_flag (sid : Z) (w w1 w2 w3 : World)
    (s : Staff) (v : Voucher) (e : Error) :
  select_staff sid w = (Ret (Some s), w1) ->
  daily_gate s w1 = false ->
  createVoucher (staff_wifi_data s sid) w1 = (Ret v, w2) ->
  update_staff_daily_used (Clock.isoDate (clock w1)) sid w2 = (Throw e, w3) ->
  let r := createStaffWiFiVoucher sid w in
  fst r = Throw e /\
  In v (vouchers (snd r)) /\
  staff (snd r) = staff w /\
  clock (snd r) = clock w.
Proof.
  intros Hs Hg Hc Hu r.
  assert (E : createStaffWiFiVoucher sid w =
              (Throw e,
               set_console
                 (console w3
                    ++ [ConsoleError "Create staff WiFi voucher failed:" e])%list
                 w3)).
  { unfold createStaffWiFiVoucher. apply logged_Throw.
    eapply bind_Ret; [exact Hs | ].
    eapply bind_Ret; [reflexivity | ].
    eapply bind_Ret; [unfold daily_gate in Hg; now rewrite Hg | ].
    eapply bind_Ret; [exact Hc | ].
    apply bind_Throw. exact Hu. }
  pose proof (createStaffWiFiVoucher_failure_keeps_staff sid w) as K.
  pose proof (keeps_clock_createStaffWiFiVoucher sid w) as Kc.
  subst r. rewrite E in *. cbn [fst snd] in *.
  split; [reflexivity | split; [ | split ] ].
  - apply createVoucher_Ret in Hc. cbn [vouchers set_console].
    unfold update_staff_daily_used, bind, external, modify in Hu.
    destruct (faults w2) as [|[|] fs]; inversion Hu; subst. exact Hc.
  - apply K. intros v0. discriminate.
  - exact Kc.
Qed.

(** No call succeeds for a member whose flag is set with the date of the
    clock, whatever is served in between short of an override. *)
Lemma refused_while_used_today (sid : Z) (d : string) (history : list Step)
    (w : World) :
  used_today sid d w ->
  Forall (fun s => ordinary_on d s = true) history ->
  let r := createStaffWiFiVoucher sid (run history w) in
  (forall v', fst r <> Ret v') /\
  (faults (run history w) = [] ->
   fst r = Throw (JsError "Daily staff voucher already used") /\
   forall member, s_id member = sid ->
     status_of (post_staff_wifi (Some member) (run history w)) = Some 409).
Proof.
  intros HQ Hh r.
  apply (used_today_after_run sid _ history w Hh) in HQ.
  subst r. split.
  - intros v'. now apply (createStaffWiFiVoucher_blocked sid _ _ v' HQ).
  - intros Hq. split.
    + destruct HQ as [(s & Hs & Hu & Hl) Hk].
      rewrite (createStaffWiFiVoucher_gate sid s _ Hq Hs); [reflexivity | ].
      unfold daily_gate. rewrite Hk, Hl, Hu, text_eq_refl. reflexivity.
    + intros member Hm. apply post_staff_wifi_refused; [exact Hq | ].
      destruct HQ as [HQ Hk]. now rewrite Hm, Hk.
Qed.

(** The override with a working store: one row is added, and the
    member's flag is set again for the date of the clock. *)
Lemma post_staff_wifi_override_adds_one (manager : Staff)
    (staffEmail reason : string) (target : Staff) (w : World) :
  faults w = [] ->
  find (fun s => String.eqb (s_email s) staffEmail) (staff w) = Some target ->
  fresh_code (next_code "staff_wifi" w) w ->
  exists v w',
    post_staff_wifi_override manager staffEmail reason w
      = (Ret (mkResponse 201 None (Some v)), w') /\
    vouchers w' = (vouchers w ++ [v])%list /\
    v_type v = "staff_wifi" /\
    clock w' = clock w /\
    daily_used_on (s_id target) (Clock.isoDate (clock w)) w'.
Proof.
  intros Hq Ht Hfresh.
  destruct (find_by_own_id target (staff w)) as [s Hs];
    [now apply find_some in Ht | ].
  set (w1 := set_staff
               (map (fun s0 => if s_id s0 =? s_id target
                               then with_daily false (s_last_voucher_date s0) s0
                               else s0) (staff w)) w).
  assert (Hq1 : faults w1 = []) by exact Hq.
  assert (Hs1 : find (fun s0 => s_id s0 =? s_id target) (staff w1)
                = Some (with_daily false (s_last_voucher_date s) s)).
  { unfold w1. cbn [staff set_staff].
    rewrite find_map_same, Hs
      by (intros a; destruct (s_id a =? s_id target) eqn:E; cbn; rewrite ?E;
          reflexivity).
    cbn [option_map]. apply find_some in Hs. destruct Hs as [_ Hs].
    now rewrite Hs. }
  assert (Hg : daily_gate (with_daily false (s_last_voucher_date s) s) w1 = false)
    by (unfold daily_gate; cbn [s_daily_voucher_used with_daily];
        apply andb_false_r).
  destruct (createStaffWiFiVoucher_quiet (s_id target) _ w1 Hq1 Hs1 Hg Hfresh)
    as (w2 & Hr & Hv & _ & Hc & Hq2).
  set (v := new_voucher _ w1) in *.
  pose proof (createStaffWiFiVoucher_sets_flag _ _ _ _ Hr) as [Hu _].
  destruct (auditLog_run
              (staff_wifi_override_event (s_id manager) target staffEmail v
                 reason) w2) as (w3 & Ha & Hf & _).
  destruct Hf as (F1 & _ & _ & F4 & F5 & _).
  exists v, w3. split; [ | split; [ | split; [ | split ] ] ].
  - unfold post_staff_wifi_override. apply try_catch_Ret.
    eapply bind_Ret;
      [unfold select_staff_by_email; apply query_quiet, Hq | rewrite Ht ].
    eapply bind_Ret;
      [unfold reset_staff_daily_used; apply command_quiet, Hq | ].
    eapply bind_Ret; [exact Hr | ].
    eapply bind_Ret; [exact Ha | reflexivity].
  - rewrite F1, Hv. reflexivity.
  - reflexivity.
  - rewrite F5, Hc. reflexivity.
  - unfold daily_used_on. rewrite F4. exact Hu.
Qed.

(** C3, as the code has it.  After [createStaffWiFiVoucher] has returned
    a voucher for a staff member, a further call for that member cannot
    succeed on the same calendar (UTC) date, whatever is served in
    between short of a manager override: it throws, and with a working
    store it throws "Daily staff voucher already used", which
    [POST /staff-wifi] answers with 409.  The override,
    [POST /staff-wifi/override], is not a reset after which the member
    calls again: it resets the flag and issues the voucher itself, which
    sets the flag again, so that it answers 201 with one more staff
    voucher in the table and the member's further calls of that date are
    refused as before.  And the limit holds for calls that returned
    only: when a call has inserted its voucher and the [UPDATE] of the
    flag fails, the call throws, the voucher stays, and a further call
    on the same date issues a second voucher without any override. *)
Theorem one_staff_voucher_per_day :
  (forall sid w v w1,
     createStaffWiFiVoucher sid w = (Ret v, w1) ->
     forall history,
       Forall (fun s => ordinary_on (Clock.isoDate (clock w)) s = true) history ->
       let r := createStaffWiFiVoucher sid (run history w1) in
       (forall v', fst r <> Ret v') /\
       (faults (run history w1) = [] ->
        fst r = Throw (JsError "Daily staff voucher already used") /\
        forall member, s_id member = sid ->
          status_of (post_staff_wifi (Some member) (run history w1))
            = Some 409)) /\
  (forall manager staffEmail reason target w,
     faults w = [] ->
     find (fun s => String.eqb (s_email s) staffEmail) (staff w) = Some target ->
     fresh_code (next_code "staff_wifi" w) w ->
     let o := post_staff_wifi_override manager staffEmail reason w in
     (exists v, fst o = Ret (mkResponse 201 None (Some v)) /\
                vouchers (snd o) = (vouchers w ++ [v])%list /\
                v_type v = "staff_wifi") /\
     forall history,
       Forall (fun s => ordinary_on (Clock.isoDate (clock w)) s = true) history ->
       let r := createStaffWiFiVoucher (s_id target) (run history (snd o)) in
       (forall v', fst r <> Ret v') /\
       (faults (run history (snd o)) = [] ->
        fst r = Throw (JsError "Daily staff voucher already used") /\
        forall member, s_id member = s_id target ->
          status_of (post_staff_wifi (Some member) (run history (snd o)))
            = Some 409)) /\
  (forall sid w s w1 v w2 e w3,
     select_staff sid w = (Ret (Some s), w1) ->
     daily_gate s w1 = false ->
     createVoucher (staff_wifi_data s sid) w1 = (Ret v, w2) ->
     update_staff_daily_used (Clock.isoDate (clock w1)) sid w2 = (Throw e, w3) ->
     let r := createStaffWiFiVoucher sid w in
     fst r = Throw e /\
     In v (vouchers (snd r)) /\
     clock (snd r) = clock w /\
     (faults (snd r) = [] ->
      fresh_code (next_code "staff_wifi" (snd r)) (snd r) ->
      exists v' w',
        createStaffWiFiVoucher sid (snd r) = (Ret v', w') /\
        v' <> v /\
        In v (vouchers w') /\ In v' (vouchers w') /\
        clock w' = clock w)).
Proof.
  split; [ | split ].
  - intros sid w v w1 H1 history Hh.
    apply createStaffWiFiVoucher_sets_flag in H1. destruct H1 as [Hd Hc].
    apply (refused_while_used_today sid (Clock.isoDate (clock w)));
      [ | exact Hh ].
    split; [exact Hd | now rewrite Hc].
  - intros manager staffEmail reason target w Hq Ht Hfresh o.
    destruct (post_staff_wifi_override_adds_one manager staffEmail reason
                target w Hq Ht Hfresh) as (v & w' & E & Hv & Hty & Hc & Hu).
    subst o. rewrite E. cbn [fst snd]. split; [eauto | ].
    intros history Hh.
    apply (refused_while_used_today (s_id target) (Clock.isoDate (clock w)));
      [ | exact Hh ].
    split; [exact Hu | now rewrite Hc].
  - intros sid w s w1 v w2 e w3 Hs Hg Hc Hu r.
    destruct (createStaffWiFiVoucher_fails_at_the_flag sid w w1 w2 w3 s v e
                Hs Hg Hc Hu) as (H1 & H2 & H3 & H4).
    fold r in H1, H2, H3, H4.
    split; [exact H1 | split; [exact H2 | split; [exact H4 | ] ] ].
    intros Hq Hfresh.
    apply select_staff_Ret in Hs. destruct Hs as (Hs & _ & Hc1).
    assert (Hg' : daily_gate s (snd r) = false).
    { unfold daily_gate in *. now rewrite H4, <- Hc1. }
    assert (Hs' : find (fun s0 => s_id s0 =? sid) (staff (snd r)) = Some s)
      by now rewrite H3.
    destruct (createStaffWiFiVoucher_quiet sid s (snd r) Hq Hs' Hg' Hfresh)
      as (w' & E & Hv & _ & Hc' & _).
    exists (new_voucher (staff_wifi_data s sid) (snd r)), w'.
    split; [exact E | split; [ | split; [ | split ] ] ].
    + intros Heq. apply (existsb_with_code_false _ _ Hfresh).
      rewrite <- Heq in H2. apply (in_map v_code) in H2. exact H2.
    + rewrite Hv. apply in_or_app. now left.
    + rewrite Hv. apply in_or_app. right. now left.
    + now rewrite Hc'.
Qed.

Lemma one_staff_voucher_per_day_witness :
  fst (createStaffWiFiVoucher 1
         (run same_day_history
            (snd (post_staff_wifi_override dana "alice@cafe.example"
                    "lost her phone" world_after_alices_voucher))))
    = Throw (JsError "Daily staff voucher already used").
Proof.
  apply (proj2 (proj2 (proj1 (proj2 one_staff_voucher_per_day) dana
                         "alice@cafe.example" "lost her phone"
                         (with_daily true (Some "2023-11-15") alice)
                         world_after_alices_voucher eq_refl eq_refl eq_refl)
                  same_day_history ltac:(repeat constructor))).
  vm_compute. reflexivity.
Defined.

(** C3, the claim at concrete inputs.  Alice gets her voucher of the day
    and is refused a second; the manager's override is answered 201, and
    Alice's next request is refused again, where the claim has it
    succeed.  And when the store fails at the flag, Alice's first
    request is answered 500 and her second 201: two staff vouchers are in
    the table on one day, with no override. *)
Lemma override_is_followed_by_a_refusal :
  let w1 := snd (post_staff_wifi (Some alice) world_with_a_manager) in
  let w2 := snd (route_staff_wifi_override (Some dana) "alice@cafe.example"
                   "lost her phone" w1) in
  let w3 := snd (post_staff_wifi (Some alice) manager_world_failing_at_the_flag) in
  let w4 := snd (post_staff_wifi (Some alice) w3) in
  (status_of (post_staff_wifi (Some alice) world_with_a_manager) = Some 201 /\
   status_of (post_staff_wifi (Some alice) w1) = Some 409 /\
   status_of (route_staff_wifi_override (Some dana) "alice@cafe.example"
                "lost her phone" w1) = Some 201 /\
   status_of (post_staff_wifi (Some alice) w2) = Some 409) /\
  (status_of (post_staff_wifi (Some alice) manager_world_failing_at_the_flag)
     = Some 500 /\
   status_of (post_staff_wifi (Some alice) w3) = Some 201 /\
   map v_type (vouchers w4) = ["staff_wifi"; "staff_wifi"] /\
   clock w4 = clock manager_world_failing_at_the_flag /\
   map a_action (audit_log w4) = ["voucher_created"; "voucher_created"]).
Proof. vm_compute. repeat split. Qed.
